(** * calculator-layout: the grid fitter and the layout packer

    A shallow embedding of [CalculatorLayoutClass]
    (src/calculator-layout.class.ts): the constructor's validation, the two
    cuts ([_inlineCut], [_crossCut]), the leftover computation
    ([_calculateRemain]), the expansion of a grid into rectangles
    ([_buildRectMatrix]) and the two orchestrating methods
    ([_generateLayoutMatrix], [calculate]).

    Numbers.  A JavaScript number is an IEEE double, and the class is
    embedded twice.

    The integer embedding is the class on integer-valued dimensions.  The
    constructor tests its arguments with [isNaN], so its inputs are
    [number]s: an integer or NaN, with JavaScript's comparisons (false on
    NaN).  The arithmetic of the calculation runs over [Z], where [%] is the
    truncated remainder [Z.rem] and every division the code performs is
    exact.

    The embedding in [Double] is the class on doubles as they are, with
    rounding, NaN, the exact remainder and the RangeError of [Array(n)].  It
    covers fractional and very large dimensions.

    The two are related.  Doubles compute exactly on integers up to 2^53,
    and [Array(n)] takes a length up to 2^32 - 1: on a valid input of
    integers with the sides of the source within that length, the class on
    doubles returns what the class on integers returns
    ([double_calculate_agrees]).  The properties that rounding breaks are
    proved of the class on doubles within these bounds ([safe_input],
    [max_array_length]); outside them, on fractional dimensions, the class
    on doubles is evaluated.

    The configuration ([config], [_validateConfig]) and the font size
    ([_calculateFontSize]) work on IEEE doubles as they are: these are
    modelled by the primitive [float], whose operations are the processor's,
    and reasoned about through the library's specification of them.  The
    drawing methods, which build DOM elements and canvas calls, are not
    modelled. *)

From Stdlib Require Import ZArith String List Bool Lia.
From Stdlib Require Import PrimFloat.
From Stdlib Require FloatAxioms SpecFloat FloatOps FloatClass.
Import ListNotations.
Open Scope Z_scope.

Set Implicit Arguments.

(** ** Errors

    Every failure of the class is [throw new Error(message)]; one constructor
    per message, in the order of the source. *)

Inductive error : Type :=
| ErrProvideSourceAndTarget   (* "Please provide source and target size." *)
| ErrIncorrectInput           (* "Incorrect input value! ..." (isNaN) *)
| ErrTargetNotPositive        (* "Target width and height must be positive ..." *)
| ErrTargetTooLarge           (* "Target size is too large for the source ..." *)
| ErrProvideSource            (* "Please provide source width and height." *)
| ErrSourceNotPositive        (* "Source width and height must be positive ..." *)
| ErrMarginNegative           (* "Margin width and height must be non-negative ..." *)
| ErrMarginTooLarge           (* "Margin values are too large" *)
| ErrRectMatrixEmpty          (* "rectMatrixArray is empty or undefined or ..." *)
| ErrRectMatrixRowEmpty       (* "rectMatrixArray is empty" *)
| ErrGridRows                 (* "the number of rows in grid cannot be zero ..." *)
| ErrGridColumns              (* "the number of columns in grid cannot be ..." *)
| ErrDivisionByZero           (* "Division by zero" *)
| ErrNegativeRemainX          (* "there is a negative remainX" *)
| ErrNegativeRemainY          (* "there is a negative remainY" *)
| ErrInvalidArrayLength.      (* RangeError: "Invalid array length" of Array(n) *)

(** The kinds of failure the specification names. *)
Inductive error_kind : Type :=
| InvalidDimensionError
| TargetTooLargeError
| DivisionByZeroError
| EmptyGridError
| NegativeRemainderError
| InternalError.

Definition kind_of (e : error) : error_kind :=
  match e with
  | ErrProvideSourceAndTarget | ErrIncorrectInput | ErrTargetNotPositive
  | ErrProvideSource | ErrSourceNotPositive | ErrMarginNegative => InvalidDimensionError
  | ErrTargetTooLarge | ErrMarginTooLarge => TargetTooLargeError
  | ErrDivisionByZero => DivisionByZeroError
  | ErrGridRows | ErrGridColumns => EmptyGridError
  | ErrNegativeRemainX | ErrNegativeRemainY => NegativeRemainderError
  | ErrRectMatrixEmpty | ErrRectMatrixRowEmpty | ErrInvalidArrayLength => InternalError
  end.

Inductive result (A : Type) : Type :=
| Ok (a : A)
| Throw (e : error).

Arguments Ok {A} a.
Arguments Throw {A} e.

Definition bind {A B : Type} (m : result A) (k : A -> result B) : result B :=
  match m with
  | Ok a => k a
  | Throw e => Throw e
  end.

Notation "x <- m ;; k" := (bind m (fun x => k))
  (at level 61, m at next level, right associativity).
Notation "m ;;; k" := (bind m (fun _ => k))
  (at level 61, right associativity).

(** [if (c) throw new Error(e)] *)
Definition throw_if (c : bool) (e : error) : result unit :=
  if c then Throw e else Ok tt.

(** ** JavaScript numbers at the constructor's boundary *)

Inductive number : Type :=
| Num (z : Z)
| NaN.

Definition isNaN (n : number) : bool :=
  match n with NaN => true | Num _ => false end.

Definition js_add (a b : number) : number :=
  match a, b with Num p, Num q => Num (p + q) | _, _ => NaN end.

Definition js_mul (a b : number) : number :=
  match a, b with Num p, Num q => Num (p * q) | _, _ => NaN end.

Definition js_lt (a b : number) : bool :=
  match a, b with Num p, Num q => p <? q | _, _ => false end.

Definition js_le (a b : number) : bool :=
  match a, b with Num p, Num q => p <=? q | _, _ => false end.

Definition js_gt (a b : number) : bool := js_lt b a.

(** [!n]: 0 and NaN are falsy. *)
Definition js_not (n : number) : bool :=
  match n with Num z => z =? 0 | NaN => true end.

(** [ISquareSize] as the constructor receives it. *)
Record JsSquareSize : Type := { js_width : number; js_height : number }.

(** ** Data model *)

Record ISquareSize : Type := { width : Z; height : Z }.

Record ILayoutCoords : Type := { x : Z; y : Z }.

Record IRectPlotConfig : Type :=
  { rect_x : Z; rect_y : Z; rect_width : Z; rect_height : Z }.

Record IMatrixGrid : Type := { row : Z; column : Z }.

Record IRectMatrixResult : Type :=
  { inner : IRectPlotConfig; outer : IRectPlotConfig; grid : IMatrixGrid }.

(** The four entries [calculate] puts into its [sizing] object. *)
Record IPaperLayoutSizing : Type :=
  { source : ISquareSize;
    outerSize : ISquareSize;
    innerSize : ISquareSize;
    marginSize : ISquareSize }.

(** [{ main }] or [{ main, remain }]: [remain] is an optional key. *)
Record ILayoutResult : Type :=
  { main : list IRectMatrixResult;
    remain : option (list IRectMatrixResult) }.

(** [Object.assign({}, layout, { total })] *)
Record ILayoutTotal : Type :=
  { layout : ILayoutResult; total : Z }.

(** The placeholder [{ inner: {}, outer: {}, grid: {} }] the matrices are
    filled with.  [fill] puts the one object in every cell and the one row
    array in every row; [_buildRectMatrix] copies a cell's fields into locals
    and assigns fresh objects to the locals, so nothing shared is mutated and
    only the lengths of the matrix matter. *)
Inductive placeholder : Type := EmptyCell.

(** [Array(n).fill(v)] on an integer [n] up to [max_array_length]. *)
Definition Array_fill {A : Type} (n : Z) (v : A) : result (list A) :=
  if n <? 0 then Throw ErrInvalidArrayLength else Ok (repeat v (Z.to_nat n)).

(** ** Validation *)

Definition _validateSource (source : JsSquareSize) : result unit :=
  throw_if (isNaN (js_width source) || isNaN (js_height source)) ErrProvideSource ;;;
  throw_if (js_le (js_width source) (Num 0) || js_le (js_height source) (Num 0))
           ErrSourceNotPositive.

(** [target + 2 * margin > source] on either axis; the test shared by
    [_validateTarget] and [_validateMargin]. *)
Definition exceeds_source (target source margin : JsSquareSize) : bool :=
  js_gt (js_add (js_width target) (js_mul (Num 2) (js_width margin))) (js_width source)
  || js_gt (js_add (js_height target) (js_mul (Num 2) (js_height margin))) (js_height source).

(** The first test of the source, [!source && !target], is on the objects
    themselves, which the typed signature always supplies. *)
Definition _validateTarget (target source margin : JsSquareSize) : result unit :=
  throw_if (isNaN (js_width source) || isNaN (js_height source)
            || isNaN (js_width target) || isNaN (js_height target)) ErrIncorrectInput ;;;
  throw_if (js_le (js_width target) (Num 0) || js_le (js_height target) (Num 0))
           ErrTargetNotPositive ;;;
  throw_if (exceeds_source target source margin) ErrTargetTooLarge.

Definition _validateMargin (margin source target : JsSquareSize) : result unit :=
  throw_if (js_lt (js_width margin) (Num 0) || js_lt (js_height margin) (Num 0))
           ErrMarginNegative ;;;
  throw_if (exceeds_source target source margin) ErrMarginTooLarge.

Definition _validateRectMatrixArray (rectMatrixArray : list (list placeholder))
  : result unit :=
  match rectMatrixArray with
  | [] => Throw ErrRectMatrixEmpty
  | [] :: _ => Throw ErrRectMatrixRowEmpty
  | _ => Ok tt
  end.

Definition _validateGrid (grid : IMatrixGrid) : result unit :=
  throw_if (row grid <=? 0) ErrGridRows ;;;
  throw_if (column grid <=? 0) ErrGridColumns.

Definition _validateDivisionByZero (dividend : Z) : result unit :=
  throw_if (dividend =? 0) ErrDivisionByZero.

Definition _validateRemainXY (remainX remainY : Z) : result unit :=
  throw_if (remainX <? 0) ErrNegativeRemainX ;;;
  throw_if (remainY <? 0) ErrNegativeRemainY.

(** ** The instance and its constructor *)

Record CalculatorLayoutClass : Type :=
  { _source : JsSquareSize;
    _target : JsSquareSize;
    _margin : JsSquareSize;
    _useInline : bool }.

Definition constructor (source target margin : JsSquareSize) (useInline : bool)
  : result CalculatorLayoutClass :=
  _validateTarget target source margin ;;;
  _validateSource source ;;;
  _validateMargin margin source target ;;;
  Ok {| _source := source;
        _target := target;
        _margin := if js_not (js_width margin) && js_not (js_height margin)
                   then {| js_width := Num 0; js_height := Num 0 |}
                   else margin;
        _useInline := useInline |}.

(** ** Grid fitter *)

Definition _inlineCut (source target margin : ISquareSize) : result IMatrixGrid :=
  _validateDivisionByZero (width target + 2 * width margin) ;;;
  _validateDivisionByZero (height target + 2 * height margin) ;;;
  let input := {| width := width target + 2 * width margin;
                  height := height target + 2 * height margin |} in
  let remainX := Z.rem (width source) (width input) in
  let remainY := Z.rem (height source) (height input) in
  let column := Z.quot (width source - remainX) (width input) in
  let row := Z.quot (height source - remainY) (height input) in
  Ok {| row := row; column := column |}.

Definition _crossCut (source target margin : ISquareSize) : result IMatrixGrid :=
  _validateDivisionByZero (width target + 2 * width margin) ;;;
  _validateDivisionByZero (height target + 2 * height margin) ;;;
  let input := {| width := width target + 2 * width margin;
                  height := height target + 2 * height margin |} in
  let remainX := Z.rem (width source) (height input) in
  let remainY := Z.rem (height source) (width input) in
  let column := Z.quot (width source - remainX) (height input) in
  let row := Z.quot (height source - remainY) (width input) in
  Ok {| row := row; column := column |}.

(** ** Layout packer *)

Record Remainer : Type := { rem_grid : IMatrixGrid; rem_start : ILayoutCoords }.

Definition _calculateRemain (source container target margin : ISquareSize)
  : result (option Remainer) :=
  let remainX := width source - width container in
  let remainContainerX := {| width := remainX; height := height source |} in
  let remainY := height source - height container in
  let remainContainerY := {| width := width source; height := remainY |} in
  _validateRemainXY remainX remainY ;;;
  let condition1 := remainY >=? width target in
  let condition2 := remainX >=? height target in
  if condition2 then
    grid <- _crossCut remainContainerX target margin ;;
    Ok (Some {| rem_grid := grid;
                rem_start := {| x := width container; y := 0 |} |})
  else if condition1 then
    grid <- _crossCut remainContainerY target margin ;;
    Ok (Some {| rem_grid := grid;
                rem_start := {| x := 0; y := height container |} |})
  else Ok None.

(** The body of the two loops of [_buildRectMatrix] for the cell at row [r]
    and column [c]. *)
Definition build_cell (outerSize innerSize marginSize : ISquareSize)
    (start : option ILayoutCoords) (r c : nat) : IRectMatrixResult :=
  let grid := {| row := Z.of_nat r; column := Z.of_nat c |} in
  let outer :=
    {| rect_x := (match start with Some s => x s | None => 0 end)
                 + Z.of_nat c * width outerSize;
       rect_y := (match start with Some s => y s | None => 0 end)
                 + Z.of_nat r * height outerSize;
       rect_width := width outerSize;
       rect_height := height outerSize |} in
  let inner :=
    {| rect_x := rect_x outer + width marginSize;
       rect_y := rect_y outer + height marginSize;
       rect_width := width innerSize;
       rect_height := height innerSize |} in
  {| inner := inner; outer := outer; grid := grid |}.

(** [for (let c = ...; c < rectMatrixArray[r].length; c++)], from column [c]
    over the cells still to visit. *)
Fixpoint column_loop (cell : nat -> nat -> IRectMatrixResult)
    (cells : list placeholder) (r c : nat) : list IRectMatrixResult :=
  match cells with
  | [] => []
  | _ :: rest => cell r c :: column_loop cell rest r (S c)
  end.

(** [for (let r = ...; r < rectMatrixArray.length; r++)], from row [r] over
    the rows still to visit; the pushes of a row come before those of the
    rows below. *)
Fixpoint row_loop (cell : nat -> nat -> IRectMatrixResult)
    (rows : list (list placeholder)) (r : nat) : list IRectMatrixResult :=
  match rows with
  | [] => []
  | cells :: rest => column_loop cell cells r 0 ++ row_loop cell rest (S r)
  end.

Definition _buildRectMatrix (rectMatrixArray : list (list placeholder))
    (sizing : IPaperLayoutSizing) (reverse : bool) (start : option ILayoutCoords)
  : result (list IRectMatrixResult) :=
  _validateRectMatrixArray rectMatrixArray ;;;
  let outerSize :=
    {| width := if reverse then height (outerSize sizing) else width (outerSize sizing);
       height := if reverse then width (outerSize sizing) else height (outerSize sizing) |} in
  let innerSize :=
    {| width := if reverse then height (innerSize sizing) else width (innerSize sizing);
       height := if reverse then width (innerSize sizing) else height (innerSize sizing) |} in
  let marginSize :=
    {| width := if reverse then height (marginSize sizing) else width (marginSize sizing);
       height := if reverse then width (marginSize sizing) else height (marginSize sizing) |} in
  Ok (row_loop (build_cell outerSize innerSize marginSize start) rectMatrixArray 0).

(** [Array(grid.row).fill(Array(grid.column).fill({ ... }))] *)
Definition matrix_of (grid : IMatrixGrid) : result (list (list placeholder)) :=
  cells <- Array_fill (column grid) EmptyCell ;;
  Array_fill (row grid) cells.

Definition _generateLayoutMatrix (grid : IMatrixGrid) (sizing : IPaperLayoutSizing)
  : result ILayoutResult :=
  _validateGrid grid ;;;
  mainMatrix <- matrix_of grid ;;
  main <- _buildRectMatrix mainMatrix sizing false None ;;
  let mainContainer :=
    {| width := width (outerSize sizing) * column grid;
       height := height (outerSize sizing) * row grid |} in
  remainer <- _calculateRemain (source sizing) mainContainer
                               (innerSize sizing) (marginSize sizing) ;;
  match remainer with
  | Some rm =>
      if (row (rem_grid rm) >? 0) && (column (rem_grid rm) >? 0) then
        remainMatrix <- matrix_of (rem_grid rm) ;;
        remain <- _buildRectMatrix remainMatrix sizing true (Some (rem_start rm)) ;;
        Ok {| main := main; remain := Some remain |}
      else Ok {| main := main; remain := None |}
  | None => Ok {| main := main; remain := None |}
  end.

(** [Object.keys(layout)] with the value of each key. *)
Definition layout_entries (l : ILayoutResult)
  : list (string * list IRectMatrixResult) :=
  ("main"%string, main l)
  :: match remain l with
     | Some r => [("remain"%string, r)]
     | None => []
     end.

(** [calculate()] on an instance whose six dimensions are the integers of
    [source], [target] and [margin]. *)
Definition calculate (source target margin : ISquareSize) (useInline : bool)
  : result ILayoutTotal :=
  let innerSize :=
    {| width := if useInline then width target else height target;
       height := if useInline then height target else width target |} in
  let outerSize :=
    {| width := if useInline then width target + 2 * width margin
                else height target + 2 * height margin;
       height := if useInline then height target + 2 * height margin
                 else width target + 2 * width margin |} in
  let marginSize :=
    {| width := if useInline then width margin else height margin;
       height := if useInline then height margin else width margin |} in
  grid <- (if useInline then _inlineCut source target margin
           else _crossCut source target margin) ;;
  _validateGrid grid ;;;
  let sizing := {| source := source; outerSize := outerSize;
                   innerSize := innerSize; marginSize := marginSize |} in
  layout <- _generateLayoutMatrix grid sizing ;;
  let total :=
    fold_left (fun total entry => total + Z.of_nat (length (snd entry)))
              (layout_entries layout) 0 in
  Ok {| layout := layout; total := total |}.

(** ** Calling the class

    [new CalculatorLayoutClass(source, target, margin, useInline).calculate()]:
    the method runs on the fields the constructor stored.  [None] stands for
    an instance one of whose dimensions is NaN, on which the integer model of
    [calculate] says nothing. *)

Definition integer (n : number) : option Z :=
  match n with Num z => Some z | NaN => None end.

Definition integer_size (s : JsSquareSize) : option ISquareSize :=
  match integer (js_width s), integer (js_height s) with
  | Some w, Some h => Some {| width := w; height := h |}
  | _, _ => None
  end.

Definition js_size (s : ISquareSize) : JsSquareSize :=
  {| js_width := Num (width s); js_height := Num (height s) |}.

Definition calculate_method (this : CalculatorLayoutClass)
  : option (result ILayoutTotal) :=
  match integer_size (_source this), integer_size (_target this),
        integer_size (_margin this) with
  | Some s, Some t, Some m => Some (calculate s t m (_useInline this))
  | _, _, _ => None
  end.

Definition new_calculate (source target margin : JsSquareSize) (useInline : bool)
  : option (result ILayoutTotal) :=
  match constructor source target margin useInline with
  | Throw e => Some (Throw e)
  | Ok this => calculate_method this
  end.

(** ** Vocabulary of the properties *)

(** The primary grid: the cut [calculate] chooses. *)
Definition primary_grid (source target margin : ISquareSize) (useInline : bool)
  : result IMatrixGrid :=
  if useInline then _inlineCut source target margin
  else _crossCut source target margin.

(** The inputs the constructor accepts, on integers. *)
Record valid_input (source target margin : ISquareSize) : Prop :=
  { source_width_pos : 0 < width source;
    source_height_pos : 0 < height source;
    target_width_pos : 0 < width target;
    target_height_pos : 0 < height target;
    margin_width_nonneg : 0 <= width margin;
    margin_height_nonneg : 0 <= height margin;
    fits_width : width target + 2 * width margin <= width source;
    fits_height : height target + 2 * height margin <= height source }.

(** The dimensions the specification declares invalid: the target with its
    margin exceeds the source on an axis, a source or target dimension is
    not a number or is not positive, or a margin dimension is negative. *)
Definition invalid_dimensions (source target margin : JsSquareSize) : bool :=
  exceeds_source target source margin
  || (isNaN (js_width source) || isNaN (js_height source)
      || isNaN (js_width target) || isNaN (js_height target))
  || (js_le (js_width source) (Num 0) || js_le (js_height source) (Num 0))
  || (js_le (js_width target) (Num 0) || js_le (js_height target) (Num 0))
  || (js_lt (js_width margin) (Num 0) || js_lt (js_height margin) (Num 0)).

(** The remain sequence, an absent [remain] key counting as empty. *)
Definition remain_seq (l : ILayoutResult) : list IRectMatrixResult :=
  match remain l with Some r => r | None => [] end.

(** Two rectangles overlap when their intersection has a positive area. *)
Definition overlap (a b : IRectPlotConfig) : bool :=
  (Z.max (rect_x a) (rect_x b)
     <? Z.min (rect_x a + rect_width a) (rect_x b + rect_width b))
  && (Z.max (rect_y a) (rect_y b)
        <? Z.min (rect_y a + rect_height a) (rect_y b + rect_height b)).

Definition disjoint_outer (p q : IRectMatrixResult) : Prop :=
  overlap (outer p) (outer q) = false.

(** A rectangle inside the sheet [source], whose corner is the origin. *)
Definition within (source : ISquareSize) (a : IRectPlotConfig) : Prop :=
  0 <= rect_x a /\ 0 <= rect_y a
  /\ rect_x a + rect_width a <= width source
  /\ rect_y a + rect_height a <= height source.




(** The remainder policy as the specification words it: rule 1 tests the
    leftover height against the target's width and packs the vertical strip,
    rule 2 tests the leftover width against the target's height and packs the
    horizontal strip. *)
Definition spec_computeRemainder (source mainContainer target margin : ISquareSize)
  : result (option Remainer) :=
  _validateRemainXY (width source - width mainContainer)
                    (height source - height mainContainer) ;;;
  if height source - height mainContainer >=? width target then
    grid <- _crossCut {| width := width source - width mainContainer;
                         height := height source |} target margin ;;
    Ok (Some {| rem_grid := grid;
                rem_start := {| x := width mainContainer; y := 0 |} |})
  else if width source - width mainContainer >=? height target then
    grid <- _crossCut {| width := width source;
                         height := height source - height mainContainer |}
                      target margin ;;
    Ok (Some {| rem_grid := grid;
                rem_start := {| x := 0; y := height mainContainer |} |})
  else Ok None.

(** ** The pieces [calculate] and [_buildRectMatrix] put together *)

(** The [sizing] object of [calculate]. *)
Definition sizing_of (source target margin : ISquareSize) (useInline : bool)
  : IPaperLayoutSizing :=
  {| source := source;
     outerSize :=
       {| width := if useInline then width target + 2 * width margin
                   else height target + 2 * height margin;
          height := if useInline then height target + 2 * height margin
                    else width target + 2 * width margin |};
     innerSize :=
       {| width := if useInline then width target else height target;
          height := if useInline then height target else width target |};
     marginSize :=
       {| width := if useInline then width margin else height margin;
          height := if useInline then height margin else width margin |} |}.

(** A size as [_buildRectMatrix] takes it under its [reverse] flag. *)
Definition turned (reverse : bool) (size : ISquareSize) : ISquareSize :=
  {| width := if reverse then height size else width size;
     height := if reverse then width size else height size |}.

(** The matrix [matrix_of] builds for a grid with positive counts. *)
Definition matrix (grid : IMatrixGrid) : list (list placeholder) :=
  repeat (repeat EmptyCell (Z.to_nat (column grid))) (Z.to_nat (row grid)).

(** The rectangles [_buildRectMatrix] returns on that matrix. *)
Definition grid_cells (grid : IMatrixGrid) (sizing : IPaperLayoutSizing)
    (reverse : bool) (start : option ILayoutCoords) : list IRectMatrixResult :=
  row_loop (build_cell (turned reverse (outerSize sizing))
                       (turned reverse (innerSize sizing))
                       (turned reverse (marginSize sizing)) start)
           (matrix grid) 0.

(** The bounding box of the main grid, [mainContainer]. *)
Definition container_of (grid : IMatrixGrid) (sizing : IPaperLayoutSizing)
  : ISquareSize :=
  {| width := width (outerSize sizing) * column grid;
     height := height (outerSize sizing) * row grid |}.

(** What [_generateLayoutMatrix] makes of the remainder: the turned grid
    anchored at its start, or no [remain] key. *)
Definition remain_cells (sizing : IPaperLayoutSizing) (remainer : option Remainer)
  : option (list IRectMatrixResult) :=
  match remainer with
  | Some rm =>
      if (row (rem_grid rm) >? 0) && (column (rem_grid rm) >? 0)
      then Some (grid_cells (rem_grid rm) sizing true (Some (rem_start rm)))
      else None
  | None => None
  end.

(** A sizing whose cell is its inner size plus the margin on both sides, with
    a positive inner size and a non-negative margin. *)
Record coherent (sizing : IPaperLayoutSizing) : Prop :=
  { outer_width_eq :
      width (outerSize sizing)
      = width (innerSize sizing) + 2 * width (marginSize sizing);
    outer_height_eq :
      height (outerSize sizing)
      = height (innerSize sizing) + 2 * height (marginSize sizing);
    inner_width_pos : 0 < width (innerSize sizing);
    inner_height_pos : 0 < height (innerSize sizing);
    margin_width_pos : 0 <= width (marginSize sizing);
    margin_height_pos : 0 <= height (marginSize sizing);
    sheet_width_pos : 0 < width (source sizing);
    sheet_height_pos : 0 < height (source sizing) }.

(** ** Documented inputs *)

(** 79 x 109 sheet, 22 x 32 target, 2 x 3 margin (readme: 6 + 2 = 8). *)
Definition A_source : ISquareSize := {| width := 79; height := 109 |}.
Definition A_target : ISquareSize := {| width := 22; height := 32 |}.
Definition A_margin : ISquareSize := {| width := 2; height := 3 |}.

(** 65 x 100 sheet, 43 x 12 target, 1 x 1 margin (readme: 7 + 2 = 9). *)
Definition B_source : ISquareSize := {| width := 65; height := 100 |}.
Definition B_target : ISquareSize := {| width := 43; height := 12 |}.
Definition B_margin : ISquareSize := {| width := 1; height := 1 |}.
(** The box of its 7 x 1 main grid. *)
Definition B_container : ISquareSize := {| width := 45; height := 98 |}.

(** A 23 x 12 sheet and a 10 x 10 target with margin 1: the leftover strip is
    11 wide, enough for the bare target and too narrow for a cell of 12. *)
Definition N_source : ISquareSize := {| width := 23; height := 12 |}.
Definition N_target : ISquareSize := {| width := 10; height := 10 |}.
Definition N_margin : ISquareSize := {| width := 1; height := 1 |}.

(** ** The [input] getter *)

Record ILayoutInput : Type :=
  { input_source : JsSquareSize;
    input_target : JsSquareSize;
    input_margin : JsSquareSize }.

Definition input (this : CalculatorLayoutClass) : ILayoutInput :=
  {| input_source := _source this;
     input_target := _target this;
     input_margin := _margin this |}.

(** ** Configuration

    [ILayoutConfig]: every key is optional; [None] is an absent key.  The two
    numbers are doubles. *)

Record IFonts : Type :=
  { font_size : option float;
    font_unit : option string;
    font_family : option string }.

Record ILayoutConfig : Type :=
  { fonts : option IFonts;
    textColor : option string;
    lineWidth : option float;
    strokeColor : option string;
    paperColor : option string;
    mainOuterColor : option string;
    mainInnerColor : option string;
    remainOuterColor : option string;
    remainInnerColor : option string;
    ratio : option float }.

(** The messages of [_validateConfig], in the order of the source. *)
Inductive config_error : Type :=
| ErrLineWidth          (* "lineWidth must be positive number" *)
| ErrPaperColor         (* "paperColor has invalid value" *)
| ErrStrokeColor        (* "strokeColor has invalid value" *)
| ErrTextColor          (* "textColor has invalid value" *)
| ErrMainOuterColor     (* "mainOuterColor has invalid value" *)
| ErrMainInnerColor     (* "mainInnerColor has invalid value" *)
| ErrRemainOuterColor   (* "remainOuterColor has invalid value" *)
| ErrRemainInnerColor   (* "remainInnerColor has invalid value" *)
| ErrRatio.             (* "invalid value! ratio must be a number" *)

(** Truthiness of an optional number: [undefined], NaN and the two zeros are
    falsy. *)
Definition truthy_number (n : option float) : bool :=
  match n with
  | Some f => negb (is_nan f || (f =? 0)%float)
  | None => false
  end.

(** Truthiness of an optional string: [undefined] and the empty string are
    falsy. *)
Definition truthy_string (s : option string) : bool :=
  match s with
  | Some c => negb (c =? "")%string
  | None => false
  end.

(** [config.lineWidth <= 0]; a comparison with [undefined] is false. *)
Definition not_positive (n : option float) : bool :=
  match n with
  | Some f => (f <=? 0)%float
  | None => false
  end.

(** [isNaN(config.ratio)]: true on NaN and on [undefined]. *)
Definition isNaN_ratio (n : option float) : bool :=
  match n with
  | Some f => is_nan f
  | None => true
  end.

Section Config.

(** [_isValidColor] asks the browser whether a string is a CSS colour; it is
    taken as a parameter. *)
Variable _isValidColor : string -> bool.

(** [config.key && !this._isValidColor(config.key)] *)
Definition bad_color (c : option string) : bool :=
  truthy_string c
  && match c with Some v => negb (_isValidColor v) | None => false end.

(** The error [_validateConfig] throws, if any.  Its last test, on a ratio
    above 28.346, only writes a warning to the console. *)
Definition _validateConfig (config : ILayoutConfig) : option config_error :=
  if truthy_number (lineWidth config) && not_positive (lineWidth config)
  then Some ErrLineWidth
  else if bad_color (paperColor config) then Some ErrPaperColor
  else if bad_color (strokeColor config) then Some ErrStrokeColor
  else if bad_color (textColor config) then Some ErrTextColor
  else if bad_color (mainOuterColor config) then Some ErrMainOuterColor
  else if bad_color (mainInnerColor config) then Some ErrMainInnerColor
  else if bad_color (remainOuterColor config) then Some ErrRemainOuterColor
  else if bad_color (remainInnerColor config) then Some ErrRemainInnerColor
  else if isNaN_ratio (ratio config) then Some ErrRatio
  else None.

End Config.

(** [if (key in this._config) this._config[key] = config[key]] for a key of
    [Object.keys(config)]: a key the argument lacks is not visited, a key
    the instance lacks is not created. *)
Definition assign_key {A : Type} (current given : option A) : option A :=
  match given, current with
  | Some v, Some _ => Some v
  | _, _ => current
  end.

Definition assign_keys (_config config : ILayoutConfig) : ILayoutConfig :=
  {| fonts := assign_key (fonts _config) (fonts config);
     textColor := assign_key (textColor _config) (textColor config);
     lineWidth := assign_key (lineWidth _config) (lineWidth config);
     strokeColor := assign_key (strokeColor _config) (strokeColor config);
     paperColor := assign_key (paperColor _config) (paperColor config);
     mainOuterColor := assign_key (mainOuterColor _config) (mainOuterColor config);
     mainInnerColor := assign_key (mainInnerColor _config) (mainInnerColor config);
     remainOuterColor :=
       assign_key (remainOuterColor _config) (remainOuterColor config);
     remainInnerColor :=
       assign_key (remainInnerColor _config) (remainInnerColor config);
     ratio := assign_key (ratio _config) (ratio config) |}.

(** The [config] setter on an instance whose configuration is [_config]:
    the error thrown, or the configuration the instance holds afterwards. *)
Definition set_config (_isValidColor : string -> bool)
    (_config config : ILayoutConfig) : config_error + ILayoutConfig :=
  match _validateConfig _isValidColor config with
  | Some e => inl e
  | None => inr (assign_keys _config config)
  end.

(** ** Font size *)

(** A possibly absent number used in arithmetic ([x as number]):
    [undefined] becomes NaN. *)
Definition to_number (n : option float) : float :=
  match n with Some f => f | None => nan end.

Definition is_neg_zero (f : float) : bool :=
  match classify f with FloatClass.NZero => true | _ => false end.

(** [Math.min]: NaN if an argument is NaN, and -0 is below +0. *)
Definition Math_min (a b : float) : float :=
  if is_nan a || is_nan b then nan
  else if (a <? b)%float then a
  else if (b <? a)%float then b
  else if is_neg_zero a then a else b.

(** [Math.max]: NaN if an argument is NaN, and +0 is above -0. *)
Definition Math_max (a b : float) : float :=
  if is_nan a || is_nan b then nan
  else if (a <? b)%float then b
  else if (b <? a)%float then a
  else if is_neg_zero a then b else a.

(** [this.config.fonts?.size] *)
Definition fonts_size (config : ILayoutConfig) : option float :=
  match fonts config with Some f => font_size f | None => None end.

(** Steps 1 to 3 of [_calculateFontSize]: half of the smaller side less a
    tenth of padding on each side. *)
#[warnings="-inexact-float"]
Definition dynamic_size (innerRectWidth innerRectHeight : float) : float :=
  let availableSpace := Math_min innerRectWidth innerRectHeight in
  let padding := (availableSpace * 0.1)%float in
  let usableSpace := (availableSpace - (padding * 2))%float in
  (usableSpace / 2)%float.

Definition _calculateFontSize (config : ILayoutConfig)
    (innerRectWidth innerRectHeight : float) (useRatio : bool) : float :=
  let ratio := to_number (ratio config) in
  let minFontSize := to_number (fonts_size config) in
  let maxFontSize := (to_number (fonts_size config) * 1.5)%float in
  let dynamicFontSize := dynamic_size innerRectWidth innerRectHeight in
  let dynamicFontSize :=
    Math_max minFontSize (Math_min maxFontSize dynamicFontSize) in
  if useRatio then (dynamicFontSize * ratio)%float else dynamicFontSize.

(** A configuration that sets the font family alone. *)
Definition family_only : ILayoutConfig :=
  {| fonts := Some {| font_size := None; font_unit := None;
                      font_family := Some "serif"%string |};
     textColor := None; lineWidth := None; strokeColor := None;
     paperColor := None; mainInnerColor := None; mainOuterColor := None;
     remainInnerColor := None; remainOuterColor := None;
     ratio := Some 20%float |}.

(** The value of a key after an assignment on an instance that has the
    key: the given value, or the kept one when none is given. *)
Definition given_or_kept {A : Type} (given kept : option A) : option A :=
  match given with Some v => Some v | None => kept end.

(** A configuration with its [lineWidth] key replaced. *)
Definition with_lineWidth (c : ILayoutConfig) (w : option float) : ILayoutConfig :=
  {| fonts := fonts c; textColor := textColor c; lineWidth := w;
     strokeColor := strokeColor c; paperColor := paperColor c;
     mainOuterColor := mainOuterColor c; mainInnerColor := mainInnerColor c;
     remainOuterColor := remainOuterColor c;
     remainInnerColor := remainInnerColor c; ratio := ratio c |}.

(** A configuration with all ten keys, as the constructor leaves it. *)
Definition complete (c : ILayoutConfig) : Prop :=
  fonts c <> None /\ textColor c <> None /\ lineWidth c <> None
  /\ strokeColor c <> None /\ paperColor c <> None
  /\ mainOuterColor c <> None /\ mainInnerColor c <> None
  /\ remainOuterColor c <> None /\ remainInnerColor c <> None
  /\ ratio c <> None.

(** The configuration the constructor assigns. *)
#[warnings="-inexact-float"]
Definition default_config : ILayoutConfig :=
  {| fonts := Some {| font_size := Some 3%float;
                      font_unit := Some "px"%string;
                      font_family := Some "sans-serif"%string |};
     textColor := Some "rgb(85, 85, 85)"%string;
     lineWidth := Some 0.18%float;
     strokeColor := Some "rgb(85, 85, 85)"%string;
     paperColor := Some "rgb(233, 229, 229)"%string;
     mainInnerColor := Some "lightgreen"%string;
     mainOuterColor := Some "skyblue"%string;
     remainInnerColor := Some "lightcoral"%string;
     remainOuterColor := Some "lightsalmon"%string;
     ratio := Some 28.346%float |}.

(** The five colours of the class's own usage example, without a ratio. *)
Definition example_colors : ILayoutConfig :=
  {| fonts := None; textColor := None; lineWidth := None; strokeColor := None;
     paperColor := Some "beige"%string;
     mainInnerColor := Some "lightgreen"%string;
     mainOuterColor := Some "skyblue"%string;
     remainInnerColor := Some "lightcoral"%string;
     remainOuterColor := Some "lightsalmon"%string;
     ratio := None |}.

(** ** Further vocabulary *)

(** A rectangle that lies in another one. *)
Definition inside (a b : IRectPlotConfig) : Prop :=
  rect_x b <= rect_x a /\ rect_y b <= rect_y a
  /\ rect_x a + rect_width a <= rect_x b + rect_width b
  /\ rect_y a + rect_height a <= rect_y b + rect_height b.


(** The largest length [Array(n)] accepts. *)
Definition max_array_length : Z := 4294967295.

(** [Number.MAX_SAFE_INTEGER], 2^53 - 1: up to it every integer is a double
    and the sum of two integers is exact whenever it stays in the range. *)
Definition MAX_SAFE_INTEGER : Z := 9007199254740991.

(** [Number.isSafeInteger] *)
Definition safe_integer (z : Z) : Prop :=
  - MAX_SAFE_INTEGER <= z <= MAX_SAFE_INTEGER.

(** The six dimensions and the two sides of the cell, target plus twice the
    margin, are safe integers: what the constructor and the cuts compute on
    them is exact. *)
Record safe_input (source target margin : ISquareSize) : Prop :=
  { safe_source_width : safe_integer (width source);
    safe_source_height : safe_integer (height source);
    safe_target_width : safe_integer (width target);
    safe_target_height : safe_integer (height target);
    safe_margin_width : safe_integer (width margin);
    safe_margin_height : safe_integer (height margin);
    safe_cell_width : safe_integer (width target + 2 * width margin);
    safe_cell_height : safe_integer (height target + 2 * height margin) }.

(** * The class on IEEE doubles

    The same methods with the numbers as the engine has them: every
    dimension a double, [+], [-], [*] and [/] rounding to nearest, [%] the
    exact remainder of the truncated division, and [Array(n)] throwing a
    RangeError unless [n] is an integer from 0 to 2^32 - 1.  The definitions
    run, so the class can be evaluated on fractional and on very large
    dimensions. *)

Module Double.

Import SpecFloat FloatOps.
#[local] Open Scope float_scope.

(** ** Numbers *)

(** The double of an integer (exact up to 2^53). *)
Definition of_Z (z : Z) : float :=
  SF2Prim (binary_normalize prec emax z 0 false).

(** The value of a finite double in units of 2^-1074, the smallest positive
    double: an integer, and the order and the sums of these integers are
    those of the real values. *)
Definition exact (f : float) : Z :=
  match Prim2SF f with
  | S754_finite s m e => ((if s then Z.neg m else Z.pos m) * 2 ^ (e + 1074))%Z
  | _ => 0%Z
  end.

(** The integer a double is, if it is one. *)
Definition to_integer (f : float) : option Z :=
  match Prim2SF f with
  | S754_zero _ => Some 0%Z
  | S754_finite s m e =>
      let v := if s then Z.neg m else Z.pos m in
      if (0 <=? e)%Z then Some (v * 2 ^ e)%Z
      else if (Z.pos m mod 2 ^ (- e) =? 0)%Z then Some (v / 2 ^ (- e))%Z
      else None
  | _ => None
  end.

(** [a % b]: NaN when [a] is infinite or [b] is zero, [a] when [a] is zero or
    [b] is infinite, and otherwise the remainder of the truncated division
    of the two values, which has the sign of [a] and is always a double. *)
Definition rem (a b : float) : float :=
  match Prim2SF a, Prim2SF b with
  | S754_nan, _ | _, S754_nan => nan
  | S754_infinity _, _ => nan
  | _, S754_zero _ => nan
  | S754_zero _, _ => a
  | _, S754_infinity _ => a
  | S754_finite sa ma ea, S754_finite _ mb eb =>
      let e := Z.min ea eb in
      let r := Z.rem (Z.pos ma * 2 ^ (ea - e)) (Z.pos mb * 2 ^ (eb - e)) in
      if (r =? 0)%Z then (if sa then neg_zero else zero)
      else SF2Prim (binary_normalize prec emax (if sa then - r else r)%Z e false)
  end.

(** [Math.floor] *)
Definition Math_floor (f : float) : float :=
  match Prim2SF f with
  | S754_finite s m e =>
      if (0 <=? e)%Z then f
      else of_Z ((if s then Z.neg m else Z.pos m) / 2 ^ (- e))
  | _ => f
  end.

(** [!n]: 0, -0 and NaN are falsy. *)
Definition js_not (n : float) : bool := is_nan n || (n =? 0).

(** [Array(n).fill(v)] *)
Definition Array_fill {A : Type} (n : float) (v : A) : result (list A) :=
  match to_integer n with
  | Some z =>
      if ((0 <=? z) && (z <=? 4294967295))%Z then Ok (repeat v (Z.to_nat z))
      else Throw ErrInvalidArrayLength
  | None => Throw ErrInvalidArrayLength
  end.

(** ** Data model *)

Record ISquareSize : Type := { width : float; height : float }.

Record ILayoutCoords : Type := { x : float; y : float }.

Record IRectPlotConfig : Type :=
  { rect_x : float; rect_y : float; rect_width : float; rect_height : float }.

Record IMatrixGrid : Type := { row : float; column : float }.

Record IRectMatrixResult : Type :=
  { inner : IRectPlotConfig; outer : IRectPlotConfig; grid : IMatrixGrid }.

Record IPaperLayoutSizing : Type :=
  { source : ISquareSize;
    outerSize : ISquareSize;
    innerSize : ISquareSize;
    marginSize : ISquareSize }.

Record ILayoutResult : Type :=
  { main : list IRectMatrixResult;
    remain : option (list IRectMatrixResult) }.

Record ILayoutTotal : Type :=
  { layout : ILayoutResult; total : Z }.

(** ** Validation *)

Definition _validateSource (source : ISquareSize) : result unit :=
  throw_if (is_nan (width source) || is_nan (height source)) ErrProvideSource ;;;
  throw_if ((width source <=? 0) || (height source <=? 0)) ErrSourceNotPositive.

(** [target + 2 * margin > source] on either axis. *)
Definition exceeds_source (target source margin : ISquareSize) : bool :=
  (width source <? width target + 2 * width margin)
  || (height source <? height target + 2 * height margin).

Definition _validateTarget (target source margin : ISquareSize) : result unit :=
  throw_if (is_nan (width source) || is_nan (height source)
            || is_nan (width target) || is_nan (height target)) ErrIncorrectInput ;;;
  throw_if ((width target <=? 0) || (height target <=? 0)) ErrTargetNotPositive ;;;
  throw_if (exceeds_source target source margin) ErrTargetTooLarge.

Definition _validateMargin (margin source target : ISquareSize) : result unit :=
  throw_if ((width margin <? 0) || (height margin <? 0)) ErrMarginNegative ;;;
  throw_if (exceeds_source target source margin) ErrMarginTooLarge.

Definition _validateGrid (grid : IMatrixGrid) : result unit :=
  throw_if (row grid <=? 0) ErrGridRows ;;;
  throw_if (column grid <=? 0) ErrGridColumns.

Definition _validateDivisionByZero (dividend : float) : result unit :=
  throw_if (dividend =? 0) ErrDivisionByZero.

Definition _validateRemainXY (remainX remainY : float) : result unit :=
  throw_if (remainX <? 0) ErrNegativeRemainX ;;;
  throw_if (remainY <? 0) ErrNegativeRemainY.

(** ** The instance and its constructor *)

Record CalculatorLayoutClass : Type :=
  { _source : ISquareSize;
    _target : ISquareSize;
    _margin : ISquareSize;
    _useInline : bool }.

Definition constructor (source target margin : ISquareSize) (useInline : bool)
  : result CalculatorLayoutClass :=
  _validateTarget target source margin ;;;
  _validateSource source ;;;
  _validateMargin margin source target ;;;
  Ok {| _source := source;
        _target := target;
        _margin := if js_not (width margin) && js_not (height margin)
                   then {| width := 0; height := 0 |}
                   else margin;
        _useInline := useInline |}.

(** ** Grid fitter *)

Definition _inlineCut (source target margin : ISquareSize) : result IMatrixGrid :=
  _validateDivisionByZero (width target + 2 * width margin) ;;;
  _validateDivisionByZero (height target + 2 * height margin) ;;;
  let input := {| width := width target + 2 * width margin;
                  height := height target + 2 * height margin |} in
  let remainX := rem (width source) (width input) in
  let remainY := rem (height source) (height input) in
  let column := (width source - remainX) / width input in
  let row := (height source - remainY) / height input in
  Ok {| row := row; column := column |}.

Definition _crossCut (source target margin : ISquareSize) : result IMatrixGrid :=
  _validateDivisionByZero (width target + 2 * width margin) ;;;
  _validateDivisionByZero (height target + 2 * height margin) ;;;
  let input := {| width := width target + 2 * width margin;
                  height := height target + 2 * height margin |} in
  let remainX := rem (width source) (height input) in
  let remainY := rem (height source) (width input) in
  let column := (width source - remainX) / height input in
  let row := (height source - remainY) / width input in
  Ok {| row := row; column := column |}.

(** ** Layout packer *)

Record Remainer : Type := { rem_grid : IMatrixGrid; rem_start : ILayoutCoords }.

Definition _calculateRemain (source container target margin : ISquareSize)
  : result (option Remainer) :=
  let remainX := width source - width container in
  let remainContainerX := {| width := remainX; height := height source |} in
  let remainY := height source - height container in
  let remainContainerY := {| width := width source; height := remainY |} in
  _validateRemainXY remainX remainY ;;;
  let condition1 := width target <=? remainY in
  let condition2 := height target <=? remainX in
  if condition2 then
    grid <- _crossCut remainContainerX target margin ;;
    Ok (Some {| rem_grid := grid;
                rem_start := {| x := width container; y := 0 |} |})
  else if condition1 then
    grid <- _crossCut remainContainerY target margin ;;
    Ok (Some {| rem_grid := grid;
                rem_start := {| x := 0; y := height container |} |})
  else Ok None.

(** The body of the two loops for the cell at row [r] and column [c]; the
    counters are doubles like every number. *)
Definition build_cell (outerSize innerSize marginSize : ISquareSize)
    (start : option ILayoutCoords) (r c : nat) : IRectMatrixResult :=
  let grid := {| row := of_Z (Z.of_nat r); column := of_Z (Z.of_nat c) |} in
  let outer :=
    {| rect_x := (match start with Some s => x s | None => 0 end)
                 + of_Z (Z.of_nat c) * width outerSize;
       rect_y := (match start with Some s => y s | None => 0 end)
                 + of_Z (Z.of_nat r) * height outerSize;
       rect_width := width outerSize;
       rect_height := height outerSize |} in
  let inner :=
    {| rect_x := rect_x outer + width marginSize;
       rect_y := rect_y outer + height marginSize;
       rect_width := width innerSize;
       rect_height := height innerSize |} in
  {| inner := inner; outer := outer; grid := grid |}.

Fixpoint column_loop (cell : nat -> nat -> IRectMatrixResult)
    (cells : list placeholder) (r c : nat) : list IRectMatrixResult :=
  match cells with
  | [] => []
  | _ :: rest => cell r c :: column_loop cell rest r (S c)
  end.

Fixpoint row_loop (cell : nat -> nat -> IRectMatrixResult)
    (rows : list (list placeholder)) (r : nat) : list IRectMatrixResult :=
  match rows with
  | [] => []
  | cells :: rest => column_loop cell cells r 0 ++ row_loop cell rest (S r)
  end.

Definition _buildRectMatrix (rectMatrixArray : list (list placeholder))
    (sizing : IPaperLayoutSizing) (reverse : bool) (start : option ILayoutCoords)
  : result (list IRectMatrixResult) :=
  _validateRectMatrixArray rectMatrixArray ;;;
  let outerSize :=
    {| width := if reverse then height (outerSize sizing) else width (outerSize sizing);
       height := if reverse then width (outerSize sizing) else height (outerSize sizing) |} in
  let innerSize :=
    {| width := if reverse then height (innerSize sizing) else width (innerSize sizing);
       height := if reverse then width (innerSize sizing) else height (innerSize sizing) |} in
  let marginSize :=
    {| width := if reverse then height (marginSize sizing) else width (marginSize sizing);
       height := if reverse then width (marginSize sizing) else height (marginSize sizing) |} in
  Ok (row_loop (build_cell outerSize innerSize marginSize start) rectMatrixArray 0).

(** [Array(grid.row).fill(Array(grid.column).fill({ ... }))]: the inner
    array is built first. *)
Definition matrix_of (grid : IMatrixGrid) : result (list (list placeholder)) :=
  cells <- Array_fill (column grid) EmptyCell ;;
  Array_fill (row grid) cells.

Definition _generateLayoutMatrix (grid : IMatrixGrid) (sizing : IPaperLayoutSizing)
  : result ILayoutResult :=
  _validateGrid grid ;;;
  mainMatrix <- matrix_of grid ;;
  main <- _buildRectMatrix mainMatrix sizing false None ;;
  let mainContainer :=
    {| width := width (outerSize sizing) * column grid;
       height := height (outerSize sizing) * row grid |} in
  remainer <- _calculateRemain (source sizing) mainContainer
                               (innerSize sizing) (marginSize sizing) ;;
  match remainer with
  | Some rm =>
      if (0 <? row (rem_grid rm)) && (0 <? column (rem_grid rm)) then
        remainMatrix <- matrix_of (rem_grid rm) ;;
        remain <- _buildRectMatrix remainMatrix sizing true (Some (rem_start rm)) ;;
        Ok {| main := main; remain := Some remain |}
      else Ok {| main := main; remain := None |}
  | None => Ok {| main := main; remain := None |}
  end.

Definition layout_entries (l : ILayoutResult)
  : list (string * list IRectMatrixResult) :=
  ("main"%string, main l)
  :: match remain l with
     | Some r => [("remain"%string, r)]
     | None => []
     end.

Definition calculate (this : CalculatorLayoutClass) : result ILayoutTotal :=
  let useInline := _useInline this in
  let target := _target this in
  let margin := _margin this in
  let innerSize :=
    {| width := if useInline then width target else height target;
       height := if useInline then height target else width target |} in
  let outerSize :=
    {| width := if useInline then width target + 2 * width margin
                else height target + 2 * height margin;
       height := if useInline then height target + 2 * height margin
                 else width target + 2 * width margin |} in
  let marginSize :=
    {| width := if useInline then width margin else height margin;
       height := if useInline then height margin else width margin |} in
  grid <- (if useInline then _inlineCut (_source this) target margin
           else _crossCut (_source this) target margin) ;;
  _validateGrid grid ;;;
  let sizing := {| source := _source this; outerSize := outerSize;
                   innerSize := innerSize; marginSize := marginSize |} in
  layout <- _generateLayoutMatrix grid sizing ;;
  let total :=
    fold_left (fun total entry => (total + Z.of_nat (length (snd entry)))%Z)
              (layout_entries layout) 0%Z in
  Ok {| layout := layout; total := total |}.

(** [new CalculatorLayoutClass(source, target, margin, useInline).calculate()] *)
Definition new_calculate (source target margin : ISquareSize) (useInline : bool)
  : result ILayoutTotal :=
  this <- constructor source target margin useInline ;;
  calculate this.

(** ** The [input] getter *)

Record ILayoutInput : Type :=
  { input_source : ISquareSize;
    input_target : ISquareSize;
    input_margin : ISquareSize }.

Definition input (this : CalculatorLayoutClass) : ILayoutInput :=
  {| input_source := _source this;
     input_target := _target this;
     input_margin := _margin this |}.

(** ** Vocabulary *)

(** The remain sequence, an absent [remain] key counting as empty. *)
Definition remain_seq (l : ILayoutResult) : list IRectMatrixResult :=
  match remain l with Some r => r | None => [] end.

(** The dimensions the specification declares invalid, each test as the
    code evaluates it. *)
Definition invalid_dimensions (source target margin : ISquareSize) : bool :=
  exceeds_source target source margin
  || (is_nan (width source) || is_nan (height source)
      || is_nan (width target) || is_nan (height target))
  || ((width source <=? 0) || (height source <=? 0))
  || ((width target <=? 0) || (height target <=? 0))
  || ((width margin <? 0) || (height margin <? 0)).


Definition spec_cross_grid (source target margin : ISquareSize) : IMatrixGrid :=
  {| row := Math_floor (height source / (width target + 2 * width margin));
     column := Math_floor (width source / (height target + 2 * height margin)) |}.

End Double.

(** ** Between the doubles and the integers *)

(** An integer size as doubles. *)
Definition double_size (s : ISquareSize) : Double.ISquareSize :=
  {| Double.width := Double.of_Z (width s);
     Double.height := Double.of_Z (height s) |}.

Definition double_rect (a : IRectPlotConfig) : Double.IRectPlotConfig :=
  {| Double.rect_x := Double.of_Z (rect_x a);
     Double.rect_y := Double.of_Z (rect_y a);
     Double.rect_width := Double.of_Z (rect_width a);
     Double.rect_height := Double.of_Z (rect_height a) |}.

Definition double_placement (p : IRectMatrixResult) : Double.IRectMatrixResult :=
  {| Double.inner := double_rect (inner p);
     Double.outer := double_rect (outer p);
     Double.grid := {| Double.row := Double.of_Z (row (grid p));
                       Double.column := Double.of_Z (column (grid p)) |} |}.

Definition double_grid (g : IMatrixGrid) : Double.IMatrixGrid :=
  {| Double.row := Double.of_Z (row g); Double.column := Double.of_Z (column g) |}.

Definition double_coords (c : ILayoutCoords) : Double.ILayoutCoords :=
  {| Double.x := Double.of_Z (x c); Double.y := Double.of_Z (y c) |}.

Definition double_remainer (rm : Remainer) : Double.Remainer :=
  {| Double.rem_grid := double_grid (rem_grid rm);
     Double.rem_start := double_coords (rem_start rm) |}.

Definition double_sizing (sizing : IPaperLayoutSizing) : Double.IPaperLayoutSizing :=
  {| Double.source := double_size (source sizing);
     Double.outerSize := double_size (outerSize sizing);
     Double.innerSize := double_size (innerSize sizing);
     Double.marginSize := double_size (marginSize sizing) |}.

Definition double_layout (l : ILayoutResult) : Double.ILayoutResult :=
  {| Double.main := map double_placement (main l);
     Double.remain := option_map (map double_placement) (remain l) |}.

Definition double_result (r : ILayoutTotal) : Double.ILayoutTotal :=
  {| Double.layout := double_layout (layout r); Double.total := total r |}.

Definition double_outcome (m : result ILayoutTotal) : result Double.ILayoutTotal :=
  match m with
  | Ok r => Ok (double_result r)
  | Throw e => Throw e
  end.

(** A size and a rectangle of doubles by their values, in units of 2^-1074. *)
Definition exact_size (s : Double.ISquareSize) : ISquareSize :=
  {| width := Double.exact (Double.width s);
     height := Double.exact (Double.height s) |}.

Definition exact_rect (a : Double.IRectPlotConfig) : IRectPlotConfig :=
  {| rect_x := Double.exact (Double.rect_x a);
     rect_y := Double.exact (Double.rect_y a);
     rect_width := Double.exact (Double.rect_width a);
     rect_height := Double.exact (Double.rect_height a) |}.

(** Two placements of doubles whose outer rectangles, taken by their values,
    do not overlap. *)
Definition double_disjoint_outer (p q : Double.IRectMatrixResult) : Prop :=
  overlap (exact_rect (Double.outer p)) (exact_rect (Double.outer q)) = false.

(** A rectangle whose four numbers are integers below 2^53 in magnitude. *)
Record safe_rect (a : IRectPlotConfig) : Prop :=
  { safe_x : Z.abs (rect_x a) < 2 ^ 53;
    safe_y : Z.abs (rect_y a) < 2 ^ 53;
    safe_width : Z.abs (rect_width a) < 2 ^ 53;
    safe_height : Z.abs (rect_height a) < 2 ^ 53 }.

(** ** Integers as doubles *)

(** The double of a positive integer below 2^53. *)
Definition canon (s : bool) (n : Z) : SpecFloat.spec_float :=
  SpecFloat.S754_finite s (Z.to_pos (n * 2 ^ (52 - Z.log2 n))) (Z.log2 n - 52).

Definition canonZ (z : Z) : SpecFloat.spec_float :=
  match z with
  | 0 => SpecFloat.S754_zero false
  | Z.pos p => canon false (Z.pos p)
  | Z.neg p => canon true (Z.pos p)
  end.

(** The finite form of the double of a non-zero integer: a mantissa of 53
    digits and an exponent from -52 to 0. *)
Record repr (z : Z) (m : positive) (e : Z) : Prop :=
  { repr_exp : -52 <= e <= 0;
    repr_digits : 2 ^ 52 <= Z.pos m < 2 ^ 53;
    repr_value : Z.pos m = Z.abs z * 2 ^ (- e);
    repr_log2 : e = Z.log2 (Z.abs z) - 52 }.

(** ** Arithmetic of the cuts *)

(** [(a - a % b) / b] is an exact division: it is the truncated quotient. *)
Lemma quot_minus_rem (a b : Z) :
  b <> 0 -> Z.quot (a - Z.rem a b) b = Z.quot a b.
Proof.
  intros Hb.
  pose proof (Z.quot_rem' a b) as E.
  replace (a - Z.rem a b) with (Z.quot a b * b) by lia.
  now apply Z.quot_mul.
Qed.

(** On a non-negative dividend and a positive divisor it is the floor. *)
Lemma quot_minus_rem_floor (a b : Z) :
  0 <= a -> 0 < b -> Z.quot (a - Z.rem a b) b = a / b.
Proof.
  intros Ha Hb.
  rewrite quot_minus_rem by lia.
  now apply Z.quot_div_nonneg.
Qed.

Lemma floor_bounds (a b : Z) :
  0 <= a -> 0 < b -> 0 <= a / b /\ b * (a / b) <= a < b * (a / b) + b.
Proof.
  intros Ha Hb.
  pose proof (Z.div_pos a b Ha Hb).
  pose proof (Z.mul_div_le a b Hb).
  pose proof (Z.mul_succ_div_gt a b Hb).
  lia.
Qed.

Lemma validateDivisionByZero_ok (d : Z) :
  d <> 0 -> _validateDivisionByZero d = Ok tt.
Proof.
  intros Hd. unfold _validateDivisionByZero, throw_if.
  now destruct (Z.eqb_spec d 0).
Qed.

Lemma inlineCut_floor (source target margin : ISquareSize) :
  0 <= width source -> 0 <= height source ->
  0 < width target + 2 * width margin ->
  0 < height target + 2 * height margin ->
  _inlineCut source target margin
  = Ok {| row := height source / (height target + 2 * height margin);
          column := width source / (width target + 2 * width margin) |}.
Proof.
  intros Hw Hh Hcw Hch. unfold _inlineCut.
  rewrite !validateDivisionByZero_ok by lia. cbn [bind width height].
  now rewrite !quot_minus_rem_floor by lia.
Qed.

Lemma crossCut_floor (source target margin : ISquareSize) :
  0 <= width source -> 0 <= height source ->
  0 < width target + 2 * width margin ->
  0 < height target + 2 * height margin ->
  _crossCut source target margin
  = Ok {| row := height source / (width target + 2 * width margin);
          column := width source / (height target + 2 * height margin) |}.
Proof.
  intros Hw Hh Hcw Hch. unfold _crossCut.
  rewrite !validateDivisionByZero_ok by lia. cbn [bind width height].
  now rewrite !quot_minus_rem_floor by lia.
Qed.

(** ** The error monad *)

Lemma Ok_inj {A : Type} (a b : A) : Ok a = Ok b -> a = b.
Proof. intros H. now inversion H. Qed.

Lemma bind_ok_inv {A B : Type} (m : result A) (k : A -> result B) (b : B) :
  bind m k = Ok b -> exists a, m = Ok a /\ k a = Ok b.
Proof.
  destruct m as [a|e]; simpl; intros H; [now exists a | discriminate].
Qed.

Lemma bind_throw_inv {A B : Type} (m : result A) (k : A -> result B) (e : error) :
  bind m k = Throw e -> m = Throw e \/ exists a, m = Ok a /\ k a = Throw e.
Proof.
  destruct m as [a|e']; simpl; intros H; [right; exists a; split; [reflexivity|exact H] | left; congruence].
Qed.

Lemma throw_if_ok_inv (c : bool) (e : error) (u : unit) :
  throw_if c e = Ok u -> c = false.
Proof. destruct c; simpl; [discriminate | reflexivity]. Qed.

Lemma throw_if_throw_inv (c : bool) (e e' : error) :
  throw_if c e = Throw e' -> c = true /\ e' = e.
Proof. destruct c; simpl; intros H; [now inversion H | discriminate]. Qed.

(** Peels the successful steps off a hypothesis [bind ... = Ok _]. *)
Ltac ok_steps H :=
  repeat match type of H with
    | bind _ _ = Ok _ =>
        let a := fresh "a" in
        let Ha := fresh "Hstep" in
        apply bind_ok_inv in H; destruct H as (a & Ha & H)
    end.

(** ** The remainder policy *)

Lemma validateRemainXY_ok (remainX remainY : Z) :
  0 <= remainX -> 0 <= remainY -> _validateRemainXY remainX remainY = Ok tt.
Proof.
  intros HX HY. unfold _validateRemainXY, throw_if.
  destruct (Z.ltb_spec remainX 0); [lia|]. simpl.
  destruct (Z.ltb_spec remainY 0); [lia|]. reflexivity.
Qed.

Lemma validateRemainXY_inv (remainX remainY : Z) (u : unit) :
  _validateRemainXY remainX remainY = Ok u -> 0 <= remainX /\ 0 <= remainY.
Proof.
  unfold _validateRemainXY. intros H. ok_steps H.
  apply throw_if_ok_inv in Hstep, H. lia.
Qed.

Lemma crossCut_total (source target margin : ISquareSize) :
  width target + 2 * width margin <> 0 ->
  height target + 2 * height margin <> 0 ->
  exists grid, _crossCut source target margin = Ok grid.
Proof.
  intros Hw Hh. unfold _crossCut.
  rewrite !validateDivisionByZero_ok by assumption. simpl. eauto.
Qed.

(** C1, as the code has it.  With non-negative leftovers and a cell that is
    not degenerate, the rules are tried in this order, the first match
    winning: when source.width - container.width >= target.height the
    vertical strip {source.width - container.width, source.height} is cut
    crosswise and anchored at {container.width, 0}; otherwise, when
    source.height - container.height >= target.width, the horizontal strip
    {source.width, source.height - container.height} is cut crosswise and
    anchored at {0, container.height}; otherwise there is no remainder. *)
Theorem calculateRemain_policy (source container target margin : ISquareSize) :
  0 < width target -> 0 < height target ->
  0 <= width margin -> 0 <= height margin ->
  0 <= width source - width container ->
  0 <= height source - height container ->
  (height target <= width source - width container ->
   exists grid,
     _crossCut {| width := width source - width container;
                  height := height source |} target margin = Ok grid
     /\ _calculateRemain source container target margin
        = Ok (Some {| rem_grid := grid;
                      rem_start := {| x := width container; y := 0 |} |}))
  /\ (width source - width container < height target ->
      width target <= height source - height container ->
      exists grid,
        _crossCut {| width := width source;
                     height := height source - height container |}
                  target margin = Ok grid
        /\ _calculateRemain source container target margin
           = Ok (Some {| rem_grid := grid;
                         rem_start := {| x := 0; y := height container |} |}))
  /\ (width source - width container < height target ->
      height source - height container < width target ->
      _calculateRemain source container target margin = Ok None).
Proof.
  intros Htw Hth Hmw Hmh HX HY.
  unfold _calculateRemain.
  rewrite validateRemainXY_ok by assumption. cbn [bind].
  repeat split.
  - intros Hfit.
    destruct (crossCut_total {| width := width source - width container;
                                height := height source |} target margin)
      as [g Hg]; [lia | lia |].
    exists g. split; [exact Hg|].
    destruct (Z.geb_spec (width source - width container) (height target)); [|lia].
    now rewrite Hg.
  - intros Hno Hfit.
    destruct (crossCut_total {| width := width source;
                                height := height source - height container |}
                target margin) as [g Hg]; [lia | lia |].
    exists g. split; [exact Hg|].
    destruct (Z.geb_spec (width source - width container) (height target)); [lia|].
    destruct (Z.geb_spec (height source - height container) (width target)); [|lia].
    now rewrite Hg.
  - intros Hno1 Hno2.
    destruct (Z.geb_spec (width source - width container) (height target)); [lia|].
    destruct (Z.geb_spec (height source - height container) (width target)); [lia|].
    reflexivity.
Qed.

Lemma calculateRemain_policy_witness :
  exists grid,
    _crossCut {| width := 65 - 45; height := 100 |} B_target B_margin = Ok grid
    /\ _calculateRemain B_source B_container B_target B_margin
       = Ok (Some {| rem_grid := grid; rem_start := {| x := 45; y := 0 |} |}).
Proof.
  apply (calculateRemain_policy B_source B_container B_target B_margin);
    simpl; lia.
Defined.

(** C1 as the specification words it fails on the documented 65 x 100 sheet,
    whose 7 x 1 main grid fills a 45 x 98 box: the leftover is 20 wide and 2
    high, the code packs the vertical strip (two turned targets), the
    specification's order packs the horizontal strip, which holds none. *)
Lemma remain_policy_spec_order_fails :
  primary_grid B_source B_target B_margin true = Ok {| row := 7; column := 1 |}
  /\ container_of {| row := 7; column := 1 |}
                  (sizing_of B_source B_target B_margin true) = B_container
  /\ _calculateRemain B_source B_container B_target B_margin
     = Ok (Some {| rem_grid := {| row := 2; column := 1 |};
                   rem_start := {| x := 45; y := 0 |} |})
  /\ spec_computeRemainder B_source B_container B_target B_margin
     = Ok (Some {| rem_grid := {| row := 0; column := 4 |};
                   rem_start := {| x := 0; y := 98 |} |})
  /\ _calculateRemain B_source B_container B_target B_margin
     <> spec_computeRemainder B_source B_container B_target B_margin.
Proof.
  repeat (split; [reflexivity|]). discriminate.
Qed.

(** ** The loops of [_buildRectMatrix] *)

Lemma ForallOrdPairs_app {A : Type} (R : A -> A -> Prop) (l1 l2 : list A) :
  ForallOrdPairs R l1 -> ForallOrdPairs R l2 ->
  (forall a b, In a l1 -> In b l2 -> R a b) ->
  ForallOrdPairs R (l1 ++ l2).
Proof.
  intros H1 H2. induction H1 as [|a l Ha Hl IH]; intros Hcross; simpl.
  - exact H2.
  - constructor.
    + apply Forall_app. split; [exact Ha|].
      apply Forall_forall. intros b Hb. apply Hcross; [now left | exact Hb].
    + apply IH. intros a' b Ha' Hb. apply Hcross; [now right | exact Hb].
Qed.

Section Loops.

Variable cell : nat -> nat -> IRectMatrixResult.

Lemma column_loop_length (cells : list placeholder) (r c : nat) :
  length (column_loop cell cells r c) = length cells.
Proof.
  revert c. induction cells as [|k cells IH]; intros c; simpl;
    [reflexivity | now rewrite IH].
Qed.

Lemma column_loop_In (cells : list placeholder) (r c0 : nat) (p : IRectMatrixResult) :
  In p (column_loop cell cells r c0) ->
  exists c, (c0 <= c < c0 + length cells)%nat /\ p = cell r c.
Proof.
  revert c0. induction cells as [|k cells IH]; intros c0; simpl.
  - intros [].
  - intros [<- | Hin].
    + exists c0. split; [lia | reflexivity].
    + destruct (IH _ Hin) as (c & Hc & ->). exists c. split; [lia | reflexivity].
Qed.

Lemma row_loop_In (rows : list (list placeholder)) (r0 : nat) (p : IRectMatrixResult) :
  In p (row_loop cell rows r0) ->
  exists r c cells,
    (r0 <= r < r0 + length rows)%nat /\ In cells rows
    /\ (c < length cells)%nat /\ p = cell r c.
Proof.
  revert r0. induction rows as [|cells rows IH]; intros r0; simpl.
  - intros [].
  - intros Hin. apply in_app_or in Hin. destruct Hin as [Hin | Hin].
    + apply column_loop_In in Hin. destruct Hin as (c & Hc & ->).
      exists r0, c, cells. repeat split; try lia. now left.
    + destruct (IH _ Hin) as (r & c & cells' & Hr & Hcells & Hc & ->).
      exists r, c, cells'. repeat split; try lia. now right.
Qed.

Lemma row_loop_length (cells : list placeholder) (n r0 : nat) :
  length (row_loop cell (repeat cells n) r0) = (n * length cells)%nat.
Proof.
  revert r0. induction n as [|n IH]; intros r0; simpl; [reflexivity|].
  now rewrite length_app, column_loop_length, IH.
Qed.

(** Cells of distinct grid positions stand in the relation [R]. *)
Variable R : IRectMatrixResult -> IRectMatrixResult -> Prop.
Hypothesis R_apart :
  forall r c r' c' : nat, r <> r' \/ c <> c' -> R (cell r c) (cell r' c').

Lemma column_loop_pairwise (cells : list placeholder) (r c0 : nat) :
  ForallOrdPairs R (column_loop cell cells r c0).
Proof.
  revert c0. induction cells as [|k cells IH]; intros c0; simpl; constructor.
  - apply Forall_forall. intros q Hq.
    apply column_loop_In in Hq. destruct Hq as (c & Hc & ->).
    apply R_apart. right. lia.
  - apply IH.
Qed.

Lemma row_loop_pairwise (rows : list (list placeholder)) (r0 : nat) :
  ForallOrdPairs R (row_loop cell rows r0).
Proof.
  revert r0. induction rows as [|cells rows IH]; intros r0; simpl.
  - constructor.
  - apply ForallOrdPairs_app.
    + apply column_loop_pairwise.
    + apply IH.
    + intros a b Ha Hb.
      apply column_loop_In in Ha. destruct Ha as (c & _ & ->).
      apply row_loop_In in Hb. destruct Hb as (r & c' & _ & Hr & _ & _ & ->).
      apply R_apart. left. lia.
Qed.

End Loops.

(** ** The rectangles of a grid *)

Lemma matrix_rows (g : IMatrixGrid) (cells : list placeholder) :
  In cells (matrix g) -> length cells = Z.to_nat (column g).
Proof.
  intros Hin. apply repeat_spec in Hin. subst cells. apply repeat_length.
Qed.

Lemma matrix_of_positive (g : IMatrixGrid) :
  0 < row g -> 0 < column g -> matrix_of g = Ok (matrix g).
Proof.
  intros Hr Hc. unfold matrix_of, Array_fill.
  destruct (Z.ltb_spec (column g) 0); [lia|]. cbn [bind].
  destruct (Z.ltb_spec (row g) 0); [lia|]. reflexivity.
Qed.

Lemma validateRectMatrixArray_matrix (g : IMatrixGrid) :
  0 < row g -> 0 < column g -> _validateRectMatrixArray (matrix g) = Ok tt.
Proof.
  intros Hr Hc. unfold matrix.
  destruct (Z.to_nat (row g)) as [|n] eqn:En; [lia|].
  destruct (Z.to_nat (column g)) as [|k] eqn:Ek; [lia|].
  reflexivity.
Qed.

Lemma buildRectMatrix_matrix (g : IMatrixGrid) (sizing : IPaperLayoutSizing)
    (reverse : bool) (start : option ILayoutCoords) :
  0 < row g -> 0 < column g ->
  _buildRectMatrix (matrix g) sizing reverse start
  = Ok (grid_cells g sizing reverse start).
Proof.
  intros Hr Hc. unfold _buildRectMatrix.
  now rewrite validateRectMatrixArray_matrix.
Qed.

Lemma grid_cells_In (g : IMatrixGrid) (sizing : IPaperLayoutSizing)
    (reverse : bool) (start : option ILayoutCoords) (p : IRectMatrixResult) :
  In p (grid_cells g sizing reverse start) ->
  exists r c : nat,
    Z.of_nat r < row g /\ Z.of_nat c < column g
    /\ p = build_cell (turned reverse (outerSize sizing))
                      (turned reverse (innerSize sizing))
                      (turned reverse (marginSize sizing)) start r c.
Proof.
  intros Hin. apply row_loop_In in Hin.
  destruct Hin as (r & c & cells & Hr & Hcells & Hc & ->).
  apply matrix_rows in Hcells.
  unfold matrix in Hr. rewrite repeat_length in Hr.
  exists r, c. repeat split; lia.
Qed.

Lemma grid_cells_length (g : IMatrixGrid) (sizing : IPaperLayoutSizing)
    (reverse : bool) (start : option ILayoutCoords) :
  0 <= row g -> 0 <= column g ->
  Z.of_nat (length (grid_cells g sizing reverse start)) = row g * column g.
Proof.
  intros Hr Hc. unfold grid_cells, matrix.
  rewrite row_loop_length, repeat_length. lia.
Qed.

(** Two cells of one grid at distinct positions do not overlap. *)
Lemma build_cell_apart (cell inside gap : ISquareSize) (start : option ILayoutCoords)
    (r c r' c' : nat) :
  r <> r' \/ c <> c' ->
  disjoint_outer (build_cell cell inside gap start r c)
                 (build_cell cell inside gap start r' c').
Proof.
  intros Hne. unfold disjoint_outer, overlap. cbn.
  apply andb_false_iff.
  destruct (Z.le_gt_cases 0 (width cell)) as [Hw | Hw];
    [| left; apply Z.ltb_ge; lia].
  destruct (Z.le_gt_cases 0 (height cell)) as [Hh | Hh];
    [| right; apply Z.ltb_ge; lia].
  destruct Hne as [Hr | Hc].
  - right. apply Z.ltb_ge.
    assert (Z.of_nat r + 1 <= Z.of_nat r' \/ Z.of_nat r' + 1 <= Z.of_nat r)
      as [Hlt | Hlt] by lia; nia.
  - left. apply Z.ltb_ge.
    assert (Z.of_nat c + 1 <= Z.of_nat c' \/ Z.of_nat c' + 1 <= Z.of_nat c)
      as [Hlt | Hlt] by lia; nia.
Qed.

Lemma grid_cells_pairwise (g : IMatrixGrid) (sizing : IPaperLayoutSizing)
    (reverse : bool) (start : option ILayoutCoords) :
  ForallOrdPairs disjoint_outer (grid_cells g sizing reverse start).
Proof.
  apply row_loop_pairwise. intros r c r' c'. apply build_cell_apart.
Qed.

(** A grid stays inside the box that starts at [start] and is as wide as its
    columns and as high as its rows. *)
Lemma grid_cells_box (g : IMatrixGrid) (sizing : IPaperLayoutSizing)
    (reverse : bool) (start : option ILayoutCoords) (p : IRectMatrixResult) :
  0 <= width (turned reverse (outerSize sizing)) ->
  0 <= height (turned reverse (outerSize sizing)) ->
  In p (grid_cells g sizing reverse start) ->
  let sx := match start with Some s => x s | None => 0 end in
  let sy := match start with Some s => y s | None => 0 end in
  sx <= rect_x (outer p) /\ sy <= rect_y (outer p)
  /\ rect_x (outer p) + rect_width (outer p)
     <= sx + width (turned reverse (outerSize sizing)) * column g
  /\ rect_y (outer p) + rect_height (outer p)
     <= sy + height (turned reverse (outerSize sizing)) * row g.
Proof.
  intros Hw Hh Hin. apply grid_cells_In in Hin.
  destruct Hin as (r & c & Hr & Hc & ->). cbn -[turned].
  repeat split; nia.
Qed.

(** ** The two orchestrating methods *)

Lemma validateGrid_ok (g : IMatrixGrid) :
  0 < row g -> 0 < column g -> _validateGrid g = Ok tt.
Proof.
  intros Hr Hc. unfold _validateGrid, throw_if.
  destruct (Z.leb_spec (row g) 0); [lia|]. cbn [bind].
  destruct (Z.leb_spec (column g) 0); [lia|]. reflexivity.
Qed.

Lemma validateGrid_inv (g : IMatrixGrid) (u : unit) :
  _validateGrid g = Ok u -> 0 < row g /\ 0 < column g.
Proof.
  unfold _validateGrid. intros H. ok_steps H.
  apply throw_if_ok_inv in Hstep, H.
  apply Z.leb_gt in Hstep, H. lia.
Qed.





(** The leftover rule that produced a remainder, and the strip it cut. *)
Lemma calculateRemain_inv (source container target margin : ISquareSize)
    (rm : Remainer) :
  _calculateRemain source container target margin = Ok (Some rm) ->
  0 <= width source - width container
  /\ 0 <= height source - height container
  /\ ((rem_start rm = {| x := width container; y := 0 |}
       /\ _crossCut {| width := width source - width container;
                       height := height source |} target margin
          = Ok (rem_grid rm))
      \/ (rem_start rm = {| x := 0; y := height container |}
          /\ _crossCut {| width := width source;
                          height := height source - height container |}
                       target margin
             = Ok (rem_grid rm))).
Proof.
  unfold _calculateRemain. intros H. ok_steps H.
  apply validateRemainXY_inv in Hstep. destruct Hstep as [HX HY].
  split; [exact HX|]. split; [exact HY|].
  destruct (width source - width container >=? height target).
  - ok_steps H. inversion H; subst rm. left. now split.
  - destruct (height source - height container >=? width target); [|discriminate].
    ok_steps H. inversion H; subst rm. right. now split.
Qed.

Lemma generateLayoutMatrix_eq (g : IMatrixGrid) (sizing : IPaperLayoutSizing) :
  0 < row g -> 0 < column g ->
  _generateLayoutMatrix g sizing
  = (remainer <- _calculateRemain (source sizing) (container_of g sizing)
                                  (innerSize sizing) (marginSize sizing) ;;
     Ok {| main := grid_cells g sizing false None;
           remain := remain_cells sizing remainer |}).
Proof.
  intros Hr Hc. unfold _generateLayoutMatrix.
  rewrite validateGrid_ok, matrix_of_positive by assumption. cbn [bind].
  rewrite buildRectMatrix_matrix by assumption. cbn [bind].
  fold (container_of g sizing).
  destruct (_calculateRemain _ _ _ _) as [[rm|]|e]; cbn [bind remain_cells];
    try reflexivity.
  destruct (row (rem_grid rm) >? 0) eqn:Er; [|reflexivity].
  destruct (column (rem_grid rm) >? 0) eqn:Ec; [|reflexivity].
  cbn [andb].
  apply Z.gtb_lt in Er, Ec.
  rewrite matrix_of_positive by assumption. cbn [bind].
  now rewrite buildRectMatrix_matrix by assumption.
Qed.

Lemma generateLayoutMatrix_inv (g : IMatrixGrid) (sizing : IPaperLayoutSizing)
    (l : ILayoutResult) :
  _generateLayoutMatrix g sizing = Ok l ->
  0 < row g /\ 0 < column g
  /\ exists remainer,
       _calculateRemain (source sizing) (container_of g sizing)
                        (innerSize sizing) (marginSize sizing) = Ok remainer
       /\ l = {| main := grid_cells g sizing false None;
                 remain := remain_cells sizing remainer |}.
Proof.
  intros H.
  assert (0 < row g /\ 0 < column g) as [Hr Hc].
  { unfold _generateLayoutMatrix in H. ok_steps H.
    eapply validateGrid_inv; eassumption. }
  rewrite generateLayoutMatrix_eq in H by assumption.
  ok_steps H. inversion H. eauto.
Qed.


Lemma total_of_entries (l : ILayoutResult) :
  fold_left (fun total entry => total + Z.of_nat (length (snd entry)))
            (layout_entries l) 0
  = Z.of_nat (length (main l)) + Z.of_nat (length (remain_seq l)).
Proof.
  unfold layout_entries, remain_seq.
  destruct (remain l) as [r|]; simpl; lia.
Qed.

Lemma calculate_eq (source target margin : ISquareSize) (useInline : bool) :
  calculate source target margin useInline
  = (grid <- primary_grid source target margin useInline ;;
     _validateGrid grid ;;;
     layout <- _generateLayoutMatrix grid
                 (sizing_of source target margin useInline) ;;
     Ok {| layout := layout;
           total := Z.of_nat (length (main layout))
                    + Z.of_nat (length (remain_seq layout)) |}).
Proof.
  unfold calculate, primary_grid, sizing_of.
  destruct (if useInline then _ else _) as [g|e]; cbn [bind]; [|reflexivity].
  destruct (_validateGrid g); cbn [bind]; [|reflexivity].
  destruct (_generateLayoutMatrix _ _) as [l|e]; cbn [bind]; [|reflexivity].
  now rewrite total_of_entries.
Qed.

Lemma calculate_inv (source target margin : ISquareSize) (useInline : bool)
    (r : ILayoutTotal) :
  calculate source target margin useInline = Ok r ->
  exists g remainer,
    primary_grid source target margin useInline = Ok g
    /\ 0 < row g /\ 0 < column g
    /\ _generateLayoutMatrix g (sizing_of source target margin useInline)
       = Ok (layout r)
    /\ _calculateRemain source
         (container_of g (sizing_of source target margin useInline))
         (innerSize (sizing_of source target margin useInline))
         (marginSize (sizing_of source target margin useInline)) = Ok remainer
    /\ main (layout r)
       = grid_cells g (sizing_of source target margin useInline) false None
    /\ remain (layout r)
       = remain_cells (sizing_of source target margin useInline) remainer.
Proof.
  rewrite calculate_eq. intros H. ok_steps H.
  inversion H; subst r; clear H. cbn [layout].
  destruct (generateLayoutMatrix_inv _ _ Hstep1) as (Hr & Hc & rem & Hrem & ->).
  exists a, rem. cbn [main remain]. repeat split; assumption.
Qed.

(** ** The layout of a coherent sizing *)

Lemma sizing_of_source (sheet target margin : ISquareSize) (useInline : bool) :
  source (sizing_of sheet target margin useInline) = sheet.
Proof. reflexivity. Qed.

Lemma sizing_of_coherent (sheet target margin : ISquareSize) (useInline : bool) :
  valid_input sheet target margin ->
  coherent (sizing_of sheet target margin useInline).
Proof.
  intros []. destruct useInline; constructor;
    cbn [sizing_of source outerSize innerSize marginSize width height]; lia.
Qed.

(** The main grid lies in its container. *)
Lemma main_in_container (g : IMatrixGrid) (sizing : IPaperLayoutSizing)
    (p : IRectMatrixResult) :
  coherent sizing ->
  In p (grid_cells g sizing false None) ->
  within (container_of g sizing) (outer p).
Proof.
  intros Hco Hin. destruct Hco.
  apply grid_cells_box in Hin; cbn [turned width height] in *; [|lia|lia].
  unfold within. cbn [container_of width height]. lia.
Qed.

(** The remainder lies in the strip it was cut from: beside the container
    for the vertical strip, below it for the horizontal one, and inside the
    sheet in both cases. *)
Lemma remain_in_strip (g : IMatrixGrid) (sizing : IPaperLayoutSizing)
    (rm : Remainer) (p : IRectMatrixResult) :
  coherent sizing ->
  0 <= row g -> 0 <= column g ->
  _calculateRemain (source sizing) (container_of g sizing)
                   (innerSize sizing) (marginSize sizing) = Ok (Some rm) ->
  In p (grid_cells (rem_grid rm) sizing true (Some (rem_start rm))) ->
  within (source sizing) (outer p)
  /\ (width (container_of g sizing) <= rect_x (outer p)
      \/ height (container_of g sizing) <= rect_y (outer p)).
Proof.
  intros Hco Hrow Hcol Hrem Hin. destruct Hco.
  assert (0 <= width (container_of g sizing)
          /\ 0 <= height (container_of g sizing)) as [Hcw Hch]
    by (cbn [container_of width height]; split;
        apply Z.mul_nonneg_nonneg; lia).
  apply calculateRemain_inv in Hrem.
  destruct Hrem as (HX & HY & [[Hstart Hcut] | [Hstart Hcut]]);
    rewrite crossCut_floor in Hcut by (cbn [width height]; lia);
    apply Ok_inj in Hcut; rename Hcut into Hgrid; cbn [width height] in Hgrid;
    apply grid_cells_box in Hin; cbn [turned width height] in *; try lia;
    rewrite Hstart, <- Hgrid in Hin; cbn [x y row column] in Hin;
    rewrite <- outer_width_eq0, <- outer_height_eq0 in Hin;
    unfold within.
  - pose proof (floor_bounds (b := height (outerSize sizing)) HX).
    pose proof (floor_bounds (b := width (outerSize sizing))
                  (Z.lt_le_incl _ _ sheet_height_pos0)).
    lia.
  - pose proof (floor_bounds (b := height (outerSize sizing))
                  (Z.lt_le_incl _ _ sheet_width_pos0)).
    pose proof (floor_bounds (b := width (outerSize sizing)) HY).
    lia.
Qed.

(** ** Properties of the result of [calculate] *)

(** C3. When [calculate] returns, its total is the length of main plus the
    length of remain, an absent remain counting for nothing: the total is
    summed over the keys of the layout it has just built. *)
Theorem total_is_sum_of_lengths (source target margin : ISquareSize)
    (useInline : bool) (r : ILayoutTotal) :
  calculate source target margin useInline = Ok r ->
  total r = Z.of_nat (length (main (layout r)))
            + Z.of_nat (length (remain_seq (layout r))).
Proof.
  rewrite calculate_eq. intros H. ok_steps H.
  inversion H; subst r; reflexivity.
Qed.

Lemma total_is_sum_of_lengths_witness :
  exists r,
    calculate A_source A_target A_margin true = Ok r
    /\ total r = Z.of_nat (length (main (layout r)))
                 + Z.of_nat (length (remain_seq (layout r))).
Proof.
  eexists. split; [reflexivity|].
  apply (@total_is_sum_of_lengths A_source A_target A_margin true).
  reflexivity.
Defined.





Lemma within_disjoint (box : ISquareSize) (a b : IRectPlotConfig) :
  within box a ->
  width box <= rect_x b \/ height box <= rect_y b ->
  overlap b a = false.
Proof.
  unfold within, overlap. intros (_ & _ & Hx & Hy) Hout.
  apply andb_false_iff.
  destruct Hout; [left | right]; apply Z.ltb_ge; lia.
Qed.

(** On integers, when [calculate] returns, no two outer rectangles of main
    overlap, no two of remain overlap, and no outer rectangle of remain
    overlaps one of main. *)
Lemma integer_outer_rectangles_disjoint (source target margin : ISquareSize)
    (useInline : bool) (r : ILayoutTotal) :
  valid_input source target margin ->
  calculate source target margin useInline = Ok r ->
  ForallOrdPairs disjoint_outer (main (layout r))
  /\ ForallOrdPairs disjoint_outer (remain_seq (layout r))
  /\ (forall p q, In p (main (layout r)) -> In q (remain_seq (layout r)) ->
                  disjoint_outer q p).
Proof.
  intros Hvalid H. apply calculate_inv in H.
  destruct H as (g & rem & _ & Hrow & Hcol & _ & Hrem & Hmain & Hremain).
  pose proof (sizing_of_coherent useInline Hvalid) as Hco.
  unfold remain_seq. rewrite Hmain, Hremain. split; [|split].
  - apply grid_cells_pairwise.
  - destruct rem as [rm|]; cbn [remain_cells]; [|constructor].
    destruct (_ && _); [|constructor]. apply grid_cells_pairwise.
  - intros p q Hp Hq.
    destruct rem as [rm|]; cbn [remain_cells] in Hq; [|destruct Hq].
    destruct (_ && _); [|destruct Hq].
    apply (@main_in_container g _ p Hco) in Hp.
    destruct (@remain_in_strip g _ rm q Hco (Z.lt_le_incl _ _ Hrow)
                (Z.lt_le_incl _ _ Hcol) Hrem Hq) as [_ Hout].
    unfold disjoint_outer. eapply within_disjoint; eassumption.
Qed.

(** On integers, when [calculate] returns, the outer rectangle of every
    placement lies inside the source. *)
Lemma integer_placements_within_source (source target margin : ISquareSize)
    (useInline : bool) (r : ILayoutTotal) :
  valid_input source target margin ->
  calculate source target margin useInline = Ok r ->
  forall p, In p (main (layout r)) \/ In p (remain_seq (layout r)) ->
            within source (outer p).
Proof.
  intros Hvalid H. apply calculate_inv in H.
  destruct H as (g & rem & _ & Hrow & Hcol & _ & Hrem & Hmain & Hremain).
  pose proof (sizing_of_coherent useInline Hvalid) as Hco.
  unfold remain_seq. rewrite Hmain, Hremain. intros p [Hp | Hp].
  - apply (@main_in_container g _ p Hco) in Hp.
    set (box := container_of g (sizing_of source target margin useInline)) in *.
    assert (Hfit : 0 <= width source - width box
                   /\ 0 <= height source - height box).
    { destruct rem as [rm|].
      - apply calculateRemain_inv in Hrem. tauto.
      - unfold _calculateRemain in Hrem. ok_steps Hrem.
        now apply validateRemainXY_inv in Hstep. }
    unfold within in *. lia.
  - destruct rem as [rm|]; cbn [remain_cells] in Hp; [|destruct Hp].
    destruct (_ && _); [|destruct Hp].
    exact (proj1 (@remain_in_strip g _ rm p Hco (Z.lt_le_incl _ _ Hrow)
                    (Z.lt_le_incl _ _ Hcol) Hrem Hp)).
Qed.

(** ** When [calculate] returns and when it throws *)


Lemma primary_grid_floor (source target margin : ISquareSize) (useInline : bool) :
  valid_input source target margin ->
  primary_grid source target margin useInline
  = Ok (if useInline
        then {| row := height source / (height target + 2 * height margin);
                column := width source / (width target + 2 * width margin) |}
        else {| row := height source / (width target + 2 * width margin);
                column := width source / (height target + 2 * height margin) |}).
Proof.
  intros []. destruct useInline; cbn [primary_grid];
    [apply inlineCut_floor | apply crossCut_floor]; lia.
Qed.


(** The box of the primary grid of a valid input fits the sheet. *)
Lemma primary_container_fits (source target margin : ISquareSize)
    (useInline : bool) (g : IMatrixGrid) :
  valid_input source target margin ->
  primary_grid source target margin useInline = Ok g ->
  width (container_of g (sizing_of source target margin useInline)) <= width source
  /\ height (container_of g (sizing_of source target margin useInline))
     <= height source.
Proof.
  intros Hvalid Hg. rewrite (primary_grid_floor useInline Hvalid) in Hg.
  apply Ok_inj in Hg. subst g. destruct Hvalid.
  destruct useInline;
    cbn [container_of sizing_of outerSize width height row column].
  - pose proof (@floor_bounds (width source) (width target + 2 * width margin)).
    pose proof (@floor_bounds (height source) (height target + 2 * height margin)).
    lia.
  - pose proof (@floor_bounds (width source) (height target + 2 * height margin)).
    pose proof (@floor_bounds (height source) (width target + 2 * width margin)).
    lia.
Qed.



(** In the cross orientation a valid input can have an empty primary grid:
    a 10 x 100 sheet and a 5 x 50 target. *)
Example calculate_cross_empty_grid :
  calculate {| width := 10; height := 100 |} {| width := 5; height := 50 |}
            {| width := 0; height := 0 |} false
  = Throw ErrGridColumns.
Proof. reflexivity. Qed.

(** The totals the readme documents for its three integer inputs, all in
    the inline orientation: 6 + 2 = 8, 7 + 2 = 9 and 14 + 4 = 18. *)
Example documented_totals :
  (exists r, calculate A_source A_target A_margin true = Ok r
             /\ length (main (layout r)) = 6%nat
             /\ length (remain_seq (layout r)) = 2%nat /\ total r = 8)
  /\ (exists r, calculate B_source B_target B_margin true = Ok r
                /\ length (main (layout r)) = 7%nat
                /\ length (remain_seq (layout r)) = 2%nat /\ total r = 9)
  /\ (exists r, calculate B_source {| width := 23; height := 12 |} B_margin true
                = Ok r
                /\ length (main (layout r)) = 14%nat
                /\ length (remain_seq (layout r)) = 4%nat /\ total r = 18).
Proof.
  repeat split; eexists; repeat split; reflexivity.
Qed.

(** On the documented inputs the class on doubles returns, number by number,
    what the class on integers returns, in both orientations. *)
Example doubles_agree_on_documented_inputs :
  Double.new_calculate (double_size A_source) (double_size A_target)
                       (double_size A_margin) true
  = double_outcome (calculate A_source A_target A_margin true)
  /\ Double.new_calculate (double_size A_source) (double_size A_target)
                          (double_size A_margin) false
     = double_outcome (calculate A_source A_target A_margin false)
  /\ Double.new_calculate (double_size B_source) (double_size B_target)
                          (double_size B_margin) true
     = double_outcome (calculate B_source B_target B_margin true)
  /\ Double.new_calculate (double_size B_source) (double_size B_target)
                          (double_size B_margin) false
     = double_outcome (calculate B_source B_target B_margin false)
  /\ Double.new_calculate (double_size N_source) (double_size N_target)
                          (double_size N_margin) true
     = double_outcome (calculate N_source N_target N_margin true).
Proof. repeat split; vm_compute; reflexivity. Qed.

(** The remainder of doubles on a few known values. *)
#[warnings="-inexact-float"]
Example rem_values :
  Double.rem 0.7 0.1 = 0.09999999999999992%float
  /\ Double.rem 5.5 2 = 1.5%float
  /\ Double.rem (-7) 3 = (-1)%float
  /\ Double.rem 29.7 14 = 1.6999999999999993%float
  /\ Double.rem 109 38 = 33%float
  /\ is_nan (Double.rem 1 0) = true.
Proof. repeat split; vm_compute; reflexivity. Qed.



(** C6. The documented 65 x 100 sheet with a 43 x 12 target and margin 1 x 1,
    inline: the constructor accepts it, the primary grid is 7 rows by 1
    column, and [calculate] returns 7 main placements, 2 remain placements
    and total 9. *)
Theorem scenario_B_nine_placements :
  primary_grid B_source B_target B_margin true = Ok {| row := 7; column := 1 |}
  /\ exists r,
       new_calculate (js_size B_source) (js_size B_target) (js_size B_margin) true
       = Some (Ok r)
       /\ calculate B_source B_target B_margin true = Ok r
       /\ length (main (layout r)) = 7%nat
       /\ length (remain_seq (layout r)) = 2%nat
       /\ total r = 9.
Proof.
  split; [reflexivity|]. eexists. repeat split; reflexivity.
Qed.

(** C9. Inline, with target + 2 margin equal to the source on both axes, the
    primary grid is one row by one column, main holds the single placement
    of that cell and there is no remain. *)
Theorem exact_fit_single_placement (source target margin : ISquareSize) :
  0 < width target -> 0 < height target ->
  0 <= width margin -> 0 <= height margin ->
  width target + 2 * width margin = width source ->
  height target + 2 * height margin = height source ->
  primary_grid source target margin true = Ok {| row := 1; column := 1 |}
  /\ exists p,
       calculate source target margin true
       = Ok {| layout := {| main := [p]; remain := None |}; total := 1 |}.
Proof.
  intros Htw Hth Hmw Hmh Hw Hh.
  assert (Hg : primary_grid source target margin true
               = Ok {| row := 1; column := 1 |}).
  { cbn [primary_grid]. rewrite inlineCut_floor by lia.
    rewrite Hw, Hh, !Z.div_same by lia. reflexivity. }
  split; [exact Hg|].
  rewrite calculate_eq, Hg. cbn [bind].
  rewrite validateGrid_ok by (cbn [row column]; lia). cbn [bind].
  rewrite generateLayoutMatrix_eq, sizing_of_source by (cbn [row column]; lia).
  unfold _calculateRemain.
  cbn [container_of sizing_of outerSize innerSize marginSize
       width height row column].
  rewrite validateRemainXY_ok by lia. cbn [bind].
  destruct (Z.geb_spec (width source - (width target + 2 * width margin) * 1)
              (height target)); [lia|].
  destruct (Z.geb_spec (height source - (height target + 2 * height margin) * 1)
              (width target)); [lia|].
  cbn [bind remain_cells]. eexists. reflexivity.
Qed.

Lemma exact_fit_single_placement_witness :
  primary_grid {| width := 45; height := 14 |} B_target B_margin true
  = Ok {| row := 1; column := 1 |}
  /\ exists p,
       calculate {| width := 45; height := 14 |} B_target B_margin true
       = Ok {| layout := {| main := [p]; remain := None |}; total := 1 |}.
Proof.
  apply (@exact_fit_single_placement {| width := 45; height := 14 |}
           B_target B_margin); simpl; lia.
Defined.

(** ** The constructor *)

(** Splits a hypothesis [... = Throw e] along the steps that can throw. *)
Ltac throw_cases H :=
  lazymatch type of H with
  | bind _ _ = Throw _ =>
      apply bind_throw_inv in H;
      let u := fresh "u" in
      destruct H as [H | (u & _ & H)]; [throw_cases H | throw_cases H]
  | throw_if _ _ = Throw _ =>
      apply throw_if_throw_inv in H; destruct H as [_ ->]
  | Ok _ = Throw _ => discriminate H
  | _ => idtac
  end.

Lemma constructor_throw_kind (source target margin : JsSquareSize)
    (useInline : bool) (e : error) :
  constructor source target margin useInline = Throw e ->
  kind_of e = InvalidDimensionError \/ kind_of e = TargetTooLargeError.
Proof.
  unfold constructor, _validateTarget, _validateSource, _validateMargin.
  intros H. throw_cases H; cbn [kind_of]; auto.
Qed.

Lemma constructor_ok_inv (source target margin : JsSquareSize)
    (useInline : bool) (this : CalculatorLayoutClass) :
  constructor source target margin useInline = Ok this ->
  invalid_dimensions source target margin = false.
Proof.
  unfold constructor, _validateTarget, _validateSource, _validateMargin.
  intros H. ok_steps H. ok_steps Hstep. ok_steps Hstep0. ok_steps Hstep1.
  repeat match goal with
         | K : throw_if _ _ = Ok _ |- _ => apply throw_if_ok_inv in K
         end.
  repeat match goal with
         | K : _ || _ = false |- _ => apply orb_false_elim in K; destruct K
         end.
  unfold invalid_dimensions.
  repeat match goal with
         | K : ?c = false |- _ => rewrite K; clear K
         end.
  reflexivity.
Qed.

Lemma integer_js_size (s : ISquareSize) : integer_size (js_size s) = Some s.
Proof. now destruct s. Qed.

(** On integers the constructor accepts exactly the valid inputs, and stores
    them as they are. *)
Lemma constructor_accepts (source target margin : ISquareSize) (useInline : bool) :
  valid_input source target margin ->
  constructor (js_size source) (js_size target) (js_size margin) useInline
  = Ok {| _source := js_size source; _target := js_size target;
          _margin := js_size margin; _useInline := useInline |}.
Proof.
  intros []. unfold constructor, _validateTarget, _validateSource,
    _validateMargin, exceeds_source, js_gt.
  cbn [js_size js_width js_height isNaN js_le js_lt js_add js_mul js_not orb].
  repeat match goal with
         | |- context [?a <=? ?b] => destruct (Z.leb_spec a b); [lia|]
         | |- context [?a <? ?b] => destruct (Z.ltb_spec a b); [lia|]
         end.
  cbn [orb throw_if bind].
  destruct (Z.eqb_spec (width margin) 0) as [Ew|]; [|reflexivity].
  destruct (Z.eqb_spec (height margin) 0) as [Eh|]; [|reflexivity].
  cbn [andb]. unfold js_size. now rewrite Ew, Eh.
Qed.

Lemma constructor_accepts_iff (source target margin : ISquareSize)
    (useInline : bool) :
  (exists this,
     constructor (js_size source) (js_size target) (js_size margin) useInline
     = Ok this)
  <-> valid_input source target margin.
Proof.
  split.
  - intros [this H]. apply constructor_ok_inv in H.
    unfold invalid_dimensions, exceeds_source, js_gt in H.
    cbn [js_size js_width js_height isNaN js_le js_lt js_add js_mul orb] in H.
    repeat match type of H with
           | _ || _ = false => apply orb_false_elim in H;
                               let K := fresh "K" in destruct H as [H K]
           end.
    repeat match goal with
           | K : _ || _ = false |- _ => apply orb_false_elim in K; destruct K
           end.
    repeat match goal with
           | K : (_ <? _) = false |- _ => apply Z.ltb_ge in K
           | K : (_ <=? _) = false |- _ => apply Z.leb_gt in K
           end.
    constructor; lia.
  - intros Hvalid. eexists. now apply constructor_accepts.
Qed.



Lemma double_constructor_ok_inv (source target margin : Double.ISquareSize)
    (useInline : bool) (this : Double.CalculatorLayoutClass) :
  Double.constructor source target margin useInline = Ok this ->
  Double.invalid_dimensions source target margin = false.
Proof.
  unfold Double.constructor, Double._validateTarget, Double._validateSource,
    Double._validateMargin.
  intros H. ok_steps H. ok_steps Hstep. ok_steps Hstep0. ok_steps Hstep1.
  repeat match goal with
         | K : throw_if _ _ = Ok _ |- _ => apply throw_if_ok_inv in K
         end.
  repeat match goal with
         | K : _ || _ = false |- _ => apply orb_false_elim in K; destruct K
         end.
  unfold Double.invalid_dimensions.
  repeat match goal with
         | K : ?c = false |- _ => rewrite K; clear K
         end.
  reflexivity.
Qed.



(** The test is on the rounded sum.  With a source 2^53 wide, a target
    2^53 - 1 wide and a margin 1 wide, the values of target plus twice the
    margin add up to 2^53 + 1, which is no double; the sum the code compares
    with the source is 2^53.  The constructor accepts, and [calculate]
    returns a layout of one placement. *)
Example constructor_compares_the_rounded_sum :
  Double.exact 9007199254740992%float
  < Double.exact 9007199254740991%float + 2 * Double.exact 1%float
  /\ exists this r,
       Double.constructor
         {| Double.width := 9007199254740992%float; Double.height := 10%float |}
         {| Double.width := 9007199254740991%float; Double.height := 10%float |}
         {| Double.width := 1%float; Double.height := 0%float |} true = Ok this
       /\ Double.calculate this = Ok r
       /\ Double.total r = 1.
Proof.
  split; [vm_compute; reflexivity|].
  eexists. eexists. split; [vm_compute; reflexivity|].
  split; vm_compute; reflexivity.
Qed.

(** * Further properties of the class *)

(** ** What the constructor accepts, stores and throws *)

Lemma validateTarget_ok_inv (target source margin : JsSquareSize) (u : unit) :
  _validateTarget target source margin = Ok u ->
  isNaN (js_width source) || isNaN (js_height source) = false
  /\ exceeds_source target source margin = false.
Proof.
  unfold _validateTarget. intros H. ok_steps H.
  apply throw_if_ok_inv in Hstep, Hstep0, H.
  repeat match goal with
         | K : _ || _ = false |- _ => apply orb_false_elim in K; destruct K
         end.
  split; [apply orb_false_intro|]; assumption.
Qed.

(** X2. Two of the constructor's messages can never be raised: when
    [_validateSource] and [_validateMargin] run, [_validateTarget] has
    already rejected a NaN source and a target too large with its margin.
    The constructor throws one of five errors only. *)
Theorem constructor_thrown_errors (source target margin : JsSquareSize)
    (useInline : bool) (e : error) :
  constructor source target margin useInline = Throw e ->
  (e = ErrIncorrectInput \/ e = ErrTargetNotPositive \/ e = ErrTargetTooLarge
   \/ e = ErrSourceNotPositive \/ e = ErrMarginNegative)
  /\ e <> ErrProvideSource /\ e <> ErrMarginTooLarge.
Proof.
  intros H.
  assert (e = ErrIncorrectInput \/ e = ErrTargetNotPositive
          \/ e = ErrTargetTooLarge \/ e = ErrSourceNotPositive
          \/ e = ErrMarginNegative) as Hcases.
  { unfold constructor in H.
    apply bind_throw_inv in H. destruct H as [H | (u & Htarget & H)].
    { unfold _validateTarget in H. throw_cases H; tauto. }
    apply validateTarget_ok_inv in Htarget. destruct Htarget as [Hnan Hfits].
    apply bind_throw_inv in H. destruct H as [H | (u' & _ & H)].
    { unfold _validateSource in H. rewrite Hnan in H.
      cbn [throw_if bind] in H. throw_cases H. tauto. }
    apply bind_throw_inv in H. destruct H as [H | (u'' & _ & H)]; [|discriminate].
    unfold _validateMargin in H. rewrite Hfits in H.
    apply bind_throw_inv in H. destruct H as [H | (u'' & _ & H)]; [|discriminate].
    throw_cases H. tauto. }
  split; [exact Hcases|].
  split; intros ->; repeat (destruct Hcases as [Hcases | Hcases]; try discriminate).
Qed.

Lemma constructor_thrown_errors_witness :
  (ErrMarginNegative = ErrIncorrectInput \/ ErrMarginNegative = ErrTargetNotPositive
   \/ ErrMarginNegative = ErrTargetTooLarge
   \/ ErrMarginNegative = ErrSourceNotPositive
   \/ ErrMarginNegative = ErrMarginNegative)
  /\ ErrMarginNegative <> ErrProvideSource
  /\ ErrMarginNegative <> ErrMarginTooLarge.
Proof.
  apply (@constructor_thrown_errors (js_size B_source) (js_size B_target)
           {| js_width := Num (-1); js_height := Num 1 |} true).
  reflexivity.
Defined.

(** X3. A margin is never rejected for being NaN.  When both its components
    are falsy (0 or NaN) and the bare target fits the source, the
    constructor stores the margin 0 x 0, and [calculate] on the instance is
    [calculate] without margin. *)
Theorem falsy_margin_is_no_margin (source target : ISquareSize)
    (marginWidth marginHeight : number) (useInline : bool) :
  valid_input source target {| width := 0; height := 0 |} ->
  js_not marginWidth = true -> js_not marginHeight = true ->
  constructor (js_size source) (js_size target)
              {| js_width := marginWidth; js_height := marginHeight |} useInline
  = Ok {| _source := js_size source; _target := js_size target;
          _margin := {| js_width := Num 0; js_height := Num 0 |};
          _useInline := useInline |}
  /\ new_calculate (js_size source) (js_size target)
                   {| js_width := marginWidth; js_height := marginHeight |}
                   useInline
     = Some (calculate source target {| width := 0; height := 0 |} useInline).
Proof.
  intros Hvalid Hw Hh.
  assert (Hnew : constructor (js_size source) (js_size target)
                   {| js_width := marginWidth; js_height := marginHeight |}
                   useInline
                 = Ok {| _source := js_size source; _target := js_size target;
                         _margin := {| js_width := Num 0; js_height := Num 0 |};
                         _useInline := useInline |}).
  { destruct Hvalid. cbn [width height] in *.
    unfold constructor, _validateTarget, _validateSource, _validateMargin,
      exceeds_source, js_gt.
    destruct marginWidth as [w|], marginHeight as [h|];
      cbn [js_not] in Hw, Hh;
      repeat match goal with
             | K : (_ =? 0) = true |- _ => apply Z.eqb_eq in K; subst
             end;
      cbn [js_size js_width js_height isNaN js_le js_lt js_add js_mul js_not
           orb andb Z.eqb];
      repeat match goal with
             | |- context [?a <=? ?b] => destruct (Z.leb_spec a b); [lia|]
             | |- context [?a <? ?b] => destruct (Z.ltb_spec a b); [lia|]
             end;
      reflexivity. }
  split; [exact Hnew|].
  unfold new_calculate. rewrite Hnew. unfold calculate_method.
  cbn [_source _target _margin _useInline].
  now rewrite !integer_js_size.
Qed.

Lemma falsy_margin_is_no_margin_witness :
  constructor (js_size B_source) (js_size B_target)
              {| js_width := NaN; js_height := NaN |} true
  = Ok {| _source := js_size B_source; _target := js_size B_target;
          _margin := {| js_width := Num 0; js_height := Num 0 |};
          _useInline := true |}
  /\ new_calculate (js_size B_source) (js_size B_target)
                   {| js_width := NaN; js_height := NaN |} true
     = Some (calculate B_source B_target {| width := 0; height := 0 |} true).
Proof.
  apply (@falsy_margin_is_no_margin B_source B_target NaN NaN true).
  - constructor; simpl; lia.
  - reflexivity.
  - reflexivity.
Defined.

(** ** The outcome of [calculate] after a successful construction *)

Lemma calculate_total (source target margin : ISquareSize) (useInline : bool)
    (r : ILayoutTotal) :
  calculate source target margin useInline = Ok r ->
  total r = Z.of_nat (length (main (layout r)))
            + Z.of_nat (length (remain_seq (layout r))).
Proof.
  rewrite calculate_eq. intros H. ok_steps H. now inversion H.
Qed.

Lemma main_length (source target margin : ISquareSize) (useInline : bool)
    (r : ILayoutTotal) :
  calculate source target margin useInline = Ok r ->
  exists g, primary_grid source target margin useInline = Ok g
            /\ 0 < row g /\ 0 < column g
            /\ Z.of_nat (length (main (layout r))) = row g * column g.
Proof.
  intros H. apply calculate_inv in H.
  destruct H as (g & rem & Hg & Hrow & Hcol & _ & _ & Hmain & _).
  exists g. repeat split; try assumption.
  rewrite Hmain. apply grid_cells_length; lia.
Qed.





(** X6. The cross cut is the inline cut of the target and margin turned by
    a quarter, and [calculate] in the cross orientation is [calculate] in
    the inline orientation on the turned target and margin: same
    placements, same total, same error. *)
Theorem cross_is_inline_on_turned_target (source target margin : ISquareSize) :
  _crossCut source target margin
  = _inlineCut source (turned true target) (turned true margin)
  /\ calculate source target margin false
     = calculate source (turned true target) (turned true margin) true.
Proof.
  assert (Hcut : _crossCut source target margin
                 = _inlineCut source (turned true target) (turned true margin)).
  { unfold _crossCut, _inlineCut, _validateDivisionByZero, throw_if.
    cbn [turned width height].
    destruct (width target + 2 * width margin =? 0);
      destruct (height target + 2 * height margin =? 0); reflexivity. }
  split; [exact Hcut|].
  unfold calculate. rewrite Hcut. reflexivity.
Qed.

(** ** How many placements *)

Lemma calculateRemain_fits (source container target margin : ISquareSize)
    (remainer : option Remainer) :
  _calculateRemain source container target margin = Ok remainer ->
  0 <= width source - width container /\ 0 <= height source - height container.
Proof.
  unfold _calculateRemain. intros H. ok_steps H.
  eapply validateRemainXY_inv; eassumption.
Qed.

(** The remainder as floors of the leftover strip. *)
Lemma calculateRemain_floor (sheet container target margin : ISquareSize) :
  0 <= width sheet -> 0 <= height sheet ->
  0 <= width sheet - width container -> 0 <= height sheet - height container ->
  0 < width target + 2 * width margin ->
  0 < height target + 2 * height margin ->
  _calculateRemain sheet container target margin
  = Ok (if height target <=? width sheet - width container
        then Some {| rem_grid :=
                       {| row := height sheet / (width target + 2 * width margin);
                          column := (width sheet - width container)
                                    / (height target + 2 * height margin) |};
                     rem_start := {| x := width container; y := 0 |} |}
        else if width target <=? height sheet - height container
        then Some {| rem_grid :=
                       {| row := (height sheet - height container)
                                 / (width target + 2 * width margin);
                          column := width sheet
                                    / (height target + 2 * height margin) |};
                     rem_start := {| x := 0; y := height container |} |}
        else None).
Proof.
  intros Hw Hh HX HY Hcw Hch. unfold _calculateRemain.
  rewrite validateRemainXY_ok by assumption. cbn [bind].
  rewrite !Z.geb_leb.
  destruct (height target <=? width sheet - width container).
  - rewrite crossCut_floor by (cbn [width height]; lia). reflexivity.
  - destruct (width target <=? height sheet - height container); [|reflexivity].
    rewrite crossCut_floor by (cbn [width height]; lia). reflexivity.
Qed.

Lemma remain_cells_length (sizing : IPaperLayoutSizing) (rm : Remainer) :
  0 <= row (rem_grid rm) -> 0 <= column (rem_grid rm) ->
  Z.of_nat (length (match remain_cells sizing (Some rm) with
                    | Some l => l
                    | None => []
                    end))
  = row (rem_grid rm) * column (rem_grid rm).
Proof.
  intros Hrow Hcol. cbn [remain_cells].
  destruct (Z.gtb_spec (row (rem_grid rm)) 0);
    destruct (Z.gtb_spec (column (rem_grid rm)) 0); cbn [andb length Z.of_nat];
    try (apply grid_cells_length; lia); nia.
Qed.

(** On integers, the number of main placements is rows times columns of the
    primary grid. *)
Lemma integer_main_count (source target margin : ISquareSize) (useInline : bool)
    (r : ILayoutTotal) :
  valid_input source target margin ->
  calculate source target margin useInline = Ok r ->
  Z.of_nat (length (main (layout r)))
  = if useInline
    then (height source / (height target + 2 * height margin))
         * (width source / (width target + 2 * width margin))
    else (height source / (width target + 2 * width margin))
         * (width source / (height target + 2 * height margin)).
Proof.
  intros Hvalid H.
  destruct (@main_length _ _ _ _ _ H) as (g & Hg & _ & _ & ->).
  rewrite (primary_grid_floor useInline Hvalid) in Hg.
  apply Ok_inj in Hg. subst g. now destruct useInline.
Qed.

(** On integers and inline, the leftovers are the remainders of the source
    by the cell, and the number of remain placements follows from them. *)
Lemma integer_remain_count_inline (source target margin : ISquareSize)
    (r : ILayoutTotal) :
  valid_input source target margin ->
  calculate source target margin true = Ok r ->
  let cellWidth := width target + 2 * width margin in
  let cellHeight := height target + 2 * height margin in
  let rx := width source mod cellWidth in
  let ry := height source mod cellHeight in
  Z.of_nat (length (remain_seq (layout r)))
  = if height target <=? rx
    then (height source / cellWidth) * (rx / cellHeight)
    else if width target <=? ry
         then (ry / cellWidth) * (width source / cellHeight)
         else 0.
Proof.
  intros Hvalid H cellWidth cellHeight rx ry.
  apply calculate_inv in H.
  destruct H as (g & rem & Hg & _ & _ & _ & Hrem & _ & Hremain).
  rewrite (primary_grid_floor true Hvalid) in Hg. apply Ok_inj in Hg. subst g.
  destruct Hvalid as [Hsw Hsh Htw Hth Hmw Hmh Hfw Hfh].
  unfold container_of, sizing_of in Hrem.
  cbn [outerSize innerSize marginSize width height row column] in Hrem.
  fold cellWidth cellHeight in Hrem.
  assert (Hrx : width source - cellWidth * (width source / cellWidth) = rx)
    by (unfold rx; rewrite Z.mod_eq; lia).
  assert (Hry : height source - cellHeight * (height source / cellHeight) = ry)
    by (unfold ry; rewrite Z.mod_eq; lia).
  pose proof (Z.mod_pos_bound (width source) cellWidth) as Bx.
  pose proof (Z.mod_pos_bound (height source) cellHeight) as By.
  rewrite calculateRemain_floor in Hrem
    by (cbn [width height]; fold cellWidth cellHeight; lia).
  cbn [width height] in Hrem. fold cellWidth cellHeight in Hrem.
  rewrite Hrx, Hry in Hrem. apply Ok_inj in Hrem.
  unfold remain_seq. rewrite Hremain, <- Hrem.
  destruct (height target <=? rx).
  - rewrite remain_cells_length; cbn [rem_grid row column];
      try apply Z.div_pos; try reflexivity; lia.
  - destruct (width target <=? ry); [|reflexivity].
    rewrite remain_cells_length; cbn [rem_grid row column];
      try apply Z.div_pos; try reflexivity; lia.
Qed.

(** ** The order of the placements *)






(** X10. [calculate] never returns an empty list: main holds at least one
    placement, and remain, when the key is present, holds at least one too
    (a leftover grid without rows or columns is dropped, not returned as an
    empty array). *)
Theorem returned_lists_are_not_empty (source target margin : ISquareSize)
    (useInline : bool) (r : ILayoutTotal) :
  calculate source target margin useInline = Ok r ->
  main (layout r) <> []
  /\ forall l, remain (layout r) = Some l -> l <> [].
Proof.
  intros H. apply calculate_inv in H.
  destruct H as (g & rem & _ & Hrow & Hcol & _ & _ & Hmain & Hremain).
  rewrite Hmain, Hremain. split.
  - intros Hnil.
    pose proof (grid_cells_length g (sizing_of source target margin useInline)
                  false None (Z.lt_le_incl _ _ Hrow) (Z.lt_le_incl _ _ Hcol)) as L.
    rewrite Hnil in L. cbn [length Z.of_nat] in L. nia.
  - intros l Hl Hnil. subst l.
    destruct rem as [rm|]; cbn [remain_cells] in Hl; [|discriminate].
    destruct (Z.gtb_spec (row (rem_grid rm)) 0) as [Hr|]; [|discriminate].
    destruct (Z.gtb_spec (column (rem_grid rm)) 0) as [Hc|]; [|discriminate].
    cbn [andb] in Hl. injection Hl as Hl.
    pose proof (grid_cells_length (rem_grid rm)
                  (sizing_of source target margin useInline) true
                  (Some (rem_start rm)) (Z.lt_le_incl _ _ Hr)
                  (Z.lt_le_incl _ _ Hc)) as L.
    rewrite Hl in L. cbn [length Z.of_nat] in L. nia.
Qed.

Lemma returned_lists_are_not_empty_witness :
  exists r,
    calculate N_source N_target N_margin true = Ok r
    /\ main (layout r) <> []
    /\ forall l, remain (layout r) = Some l -> l <> [].
Proof.
  eexists. split; [reflexivity|].
  apply (@returned_lists_are_not_empty N_source N_target N_margin true).
  reflexivity.
Defined.

(** ** Area *)

Lemma layout_area (g : IMatrixGrid) (sizing : IPaperLayoutSizing)
    (l : ILayoutResult) :
  coherent sizing ->
  _generateLayoutMatrix g sizing = Ok l ->
  (Z.of_nat (length (main l)) + Z.of_nat (length (remain_seq l)))
  * (width (outerSize sizing) * height (outerSize sizing))
  <= width (source sizing) * height (source sizing).
Proof.
  intros Hco H. apply generateLayoutMatrix_inv in H.
  destruct H as (Hrow & Hcol & rem & Hrem & ->).
  destruct Hco as [Eow Eoh Hiw Hih Hmw Hmh Hsw Hsh].
  pose proof (calculateRemain_fits _ _ _ _ Hrem) as [HX HY].
  rewrite calculateRemain_floor in Hrem by lia. apply Ok_inj in Hrem.
  rewrite <- Eow, <- Eoh in Hrem.
  unfold remain_seq. cbn [main remain].
  rewrite grid_cells_length by lia.
  cbn [container_of width height] in *.
  set (ow := width (outerSize sizing)) in *.
  set (oh := height (outerSize sizing)) in *.
  set (sw := width (source sizing)) in *.
  set (sh := height (source sizing)) in *.
  assert (Hmain : row g * column g * (ow * oh) <= (ow * column g) * sh).
  { replace (row g * column g * (ow * oh))
      with ((ow * column g) * (oh * row g)) by ring.
    apply Z.mul_le_mono_nonneg_l; nia. }
  destruct (height (innerSize sizing) <=? sw - ow * column g).
  - subst rem. rewrite remain_cells_length;
      cbn [rem_grid row column]; try (apply Z.div_pos; lia).
    pose proof (@floor_bounds sh ow) as Br.
    pose proof (@floor_bounds (sw - ow * column g) oh) as Bc.
    assert (Hremain : (ow * (sh / ow)) * (oh * ((sw - ow * column g) / oh))
                      <= sh * (sw - ow * column g))
      by (apply Z.mul_le_mono_nonneg; nia).
    nia.
  - destruct (width (innerSize sizing) <=? sh - oh * row g).
    + subst rem. rewrite remain_cells_length;
        cbn [rem_grid row column]; try (apply Z.div_pos; lia).
      pose proof (@floor_bounds (sh - oh * row g) ow) as Br.
      pose proof (@floor_bounds sw oh) as Bc.
      assert (Hremain : (ow * ((sh - oh * row g) / ow)) * (oh * (sw / oh))
                        <= (sh - oh * row g) * sw)
        by (apply Z.mul_le_mono_nonneg; nia).
      assert (Hmain' : row g * column g * (ow * oh) <= sw * (oh * row g)).
      { replace (row g * column g * (ow * oh))
          with ((ow * column g) * (oh * row g)) by ring.
        apply Z.mul_le_mono_nonneg_r; nia. }
      nia.
    + subst rem. cbn [remain_cells length Z.of_nat]. nia.
Qed.

(** On integers, the total times the area of a cell is at most the area of
    the source. *)
Lemma integer_total_fits_the_area (source target margin : ISquareSize)
    (useInline : bool) (r : ILayoutTotal) :
  valid_input source target margin ->
  calculate source target margin useInline = Ok r ->
  total r * ((width target + 2 * width margin)
             * (height target + 2 * height margin))
  <= width source * height source.
Proof.
  intros Hvalid H.
  rewrite (@calculate_total _ _ _ _ _ H).
  apply calculate_inv in H.
  destruct H as (g & rem & _ & _ & _ & Hgen & _).
  pose proof (@layout_area _ _ _ (sizing_of_coherent useInline Hvalid) Hgen) as A.
  rewrite sizing_of_source in A.
  destruct useInline; cbn [sizing_of outerSize width height] in A; lia.
Qed.

(** ** Inner and outer rectangle of a placement *)

(** Every placement [calculate] returns is a cell of one of its two grids. *)
Lemma placement_cell (source target margin : ISquareSize) (useInline : bool)
    (r : ILayoutTotal) (p : IRectMatrixResult) :
  calculate source target margin useInline = Ok r ->
  In p (main (layout r)) \/ In p (remain_seq (layout r)) ->
  exists reverse start row col,
    p = build_cell
          (turned reverse (outerSize (sizing_of source target margin useInline)))
          (turned reverse (innerSize (sizing_of source target margin useInline)))
          (turned reverse (marginSize (sizing_of source target margin useInline)))
          start row col.
Proof.
  intros H Hin. apply calculate_inv in H.
  destruct H as (g & rem & _ & _ & _ & _ & _ & Hmain & Hremain).
  unfold remain_seq in Hin. rewrite Hmain, Hremain in Hin.
  destruct Hin as [Hin | Hin].
  - apply grid_cells_In in Hin. destruct Hin as (row & col & _ & _ & ->).
    now exists false, None, row, col.
  - destruct rem as [rm|]; cbn [remain_cells] in Hin; [|destruct Hin].
    destruct (_ && _); [|destruct Hin].
    apply grid_cells_In in Hin. destruct Hin as (row & col & _ & _ & ->).
    now exists true, (Some (rem_start rm)), row, col.
Qed.

(** On integers, the inner rectangle of every placement lies inside its
    outer rectangle and is centred in it. *)
Lemma integer_inner_centred_in_outer (source target margin : ISquareSize)
    (useInline : bool) (r : ILayoutTotal) :
  valid_input source target margin ->
  calculate source target margin useInline = Ok r ->
  forall p,
    In p (main (layout r)) \/ In p (remain_seq (layout r)) ->
    inside (inner p) (outer p)
    /\ rect_x (inner p) - rect_x (outer p)
       = (rect_x (outer p) + rect_width (outer p))
         - (rect_x (inner p) + rect_width (inner p))
    /\ rect_y (inner p) - rect_y (outer p)
       = (rect_y (outer p) + rect_height (outer p))
         - (rect_y (inner p) + rect_height (inner p)).
Proof.
  intros [_ _ _ _ Hmw Hmh _ _] H p Hin.
  destruct (@placement_cell _ _ _ _ _ p H Hin) as (reverse & start & row & col & ->).
  unfold inside.
  destruct useInline, reverse;
    cbn [build_cell sizing_of turned outerSize innerSize marginSize inner outer
         rect_x rect_y rect_width rect_height width height];
    lia.
Qed.

(** X13. Without margin the inner rectangle of every placement is its outer
    rectangle. *)
Theorem zero_margin_inner_is_outer (source target margin : ISquareSize)
    (useInline : bool) (r : ILayoutTotal) :
  width margin = 0 -> height margin = 0 ->
  calculate source target margin useInline = Ok r ->
  forall p,
    In p (main (layout r)) \/ In p (remain_seq (layout r)) ->
    inner p = outer p.
Proof.
  intros Hmw Hmh H p Hin.
  destruct (@placement_cell _ _ _ _ _ p H Hin) as (reverse & start & row & col & ->).
  destruct useInline, reverse;
    cbn [build_cell sizing_of turned outerSize innerSize marginSize inner outer
         rect_x rect_y rect_width rect_height width height];
    rewrite Hmw, Hmh; f_equal; lia.
Qed.

Lemma zero_margin_inner_is_outer_witness :
  exists r,
    calculate B_source B_target {| width := 0; height := 0 |} true = Ok r
    /\ forall p,
         In p (main (layout r)) \/ In p (remain_seq (layout r)) ->
         inner p = outer p.
Proof.
  eexists. split; [reflexivity|].
  apply (@zero_margin_inner_is_outer B_source B_target
           {| width := 0; height := 0 |} true); reflexivity.
Defined.

(** ** [_buildRectMatrix] on an arbitrary matrix *)



(** ** The [config] setter *)

Section ConfigFacts.

Variable _isValidColor : string -> bool.

(** X15. The setter requires a ratio: a configuration whose [ratio] key is
    absent or NaN is rejected whatever else it holds (the setter validates
    before it assigns anything).  The class's own usage example, five
    colours and no ratio, is such a configuration. *)
Theorem config_without_ratio_is_rejected (_config config : ILayoutConfig) :
  isNaN_ratio (ratio config) = true ->
  exists e, set_config _isValidColor _config config = inl e.
Proof.
  intros Hratio. unfold set_config, _validateConfig. rewrite Hratio.
  repeat match goal with
         | |- context [if ?c then _ else _] => destruct c
         end; eauto.
Qed.

(** X16. Only a truthy line width is tested: 0, -0 and NaN are validated
    like an absent [lineWidth], so a configuration accepted without the key
    is accepted with such a value, which the instance then stores. *)
Theorem falsy_lineWidth_is_accepted (_config config cur : ILayoutConfig)
    (w : float) :
  truthy_number (Some w) = false ->
  lineWidth _config <> None ->
  set_config _isValidColor _config (with_lineWidth config None) = inr cur ->
  exists cur',
    set_config _isValidColor _config (with_lineWidth config (Some w)) = inr cur'
    /\ lineWidth cur' = Some w.
Proof.
  intros Hfalsy Hkey. unfold set_config, _validateConfig.
  cbn [with_lineWidth lineWidth paperColor strokeColor textColor mainOuterColor
       mainInnerColor remainOuterColor remainInnerColor ratio andb
       truthy_number].
  cbn [truthy_number] in Hfalsy. rewrite Hfalsy. cbn [andb].
  repeat match goal with
         | |- context [if ?c then _ else _] => destruct c
         end; try discriminate.
  intros _. eexists. split; [reflexivity|].
  cbn [assign_keys lineWidth with_lineWidth].
  destruct (lineWidth _config); [reflexivity | contradiction].
Qed.

Lemma assign_key_present {A : Type} (current given : option A) :
  current <> None ->
  assign_key current given
  = match given with Some v => Some v | None => current end.
Proof.
  destruct given, current; try reflexivity. contradiction.
Qed.

Lemma assign_key_keeps {A : Type} (current given : option A) :
  current <> None -> assign_key current given <> None.
Proof.
  destruct given, current; simpl; congruence.
Qed.

Lemma assign_key_twice {A : Type} (current given : option A) :
  assign_key (assign_key current given) given = assign_key current given.
Proof.
  destruct given, current; reflexivity.
Qed.

(** X17. A successful assignment keeps the instance's configuration
    complete, so no key the drawing reads is ever lost: each of the ten keys
    takes the given value when there is one (fonts as a whole, the ratio
    always, since it is required) and keeps the stored value otherwise.
    Assigning the same configuration again changes nothing. *)
Theorem set_config_keeps_complete (_config config cur : ILayoutConfig) :
  complete _config ->
  set_config _isValidColor _config config = inr cur ->
  complete cur
  /\ cur = {| fonts := given_or_kept (fonts config) (fonts _config);
              textColor := given_or_kept (textColor config) (textColor _config);
              lineWidth := given_or_kept (lineWidth config) (lineWidth _config);
              strokeColor :=
                given_or_kept (strokeColor config) (strokeColor _config);
              paperColor :=
                given_or_kept (paperColor config) (paperColor _config);
              mainOuterColor :=
                given_or_kept (mainOuterColor config) (mainOuterColor _config);
              mainInnerColor :=
                given_or_kept (mainInnerColor config) (mainInnerColor _config);
              remainOuterColor :=
                given_or_kept (remainOuterColor config)
                              (remainOuterColor _config);
              remainInnerColor :=
                given_or_kept (remainInnerColor config)
                              (remainInnerColor _config);
              ratio := ratio config |}
  /\ set_config _isValidColor cur config = inr cur.
Proof.
  intros Hcomplete. unfold set_config.
  destruct (_validateConfig _isValidColor config) as [e|] eqn:Hvalid;
    [discriminate|].
  intros H. injection H as <-.
  destruct Hcomplete as (Hf & Ht & Hl & Hs & Hp & Hmo & Hmi & Hro & Hri & Hr).
  split; [|split].
  - unfold complete. cbn [assign_keys fonts textColor lineWidth strokeColor
      paperColor mainOuterColor mainInnerColor remainOuterColor
      remainInnerColor ratio].
    repeat split; apply assign_key_keeps; assumption.
  - unfold assign_keys. rewrite !assign_key_present by assumption.
    fold (given_or_kept (fonts config) (fonts _config)).
    fold (given_or_kept (textColor config) (textColor _config)).
    fold (given_or_kept (lineWidth config) (lineWidth _config)).
    fold (given_or_kept (strokeColor config) (strokeColor _config)).
    fold (given_or_kept (paperColor config) (paperColor _config)).
    fold (given_or_kept (mainOuterColor config) (mainOuterColor _config)).
    fold (given_or_kept (mainInnerColor config) (mainInnerColor _config)).
    fold (given_or_kept (remainOuterColor config) (remainOuterColor _config)).
    fold (given_or_kept (remainInnerColor config) (remainInnerColor _config)).
    f_equal.
    unfold _validateConfig in Hvalid.
    destruct (ratio config); [reflexivity|].
    cbn [isNaN_ratio] in Hvalid.
    repeat match type of Hvalid with
           | (if ?c then _ else _) = _ => destruct c; try discriminate
           end.
  - f_equal. unfold assign_keys.
    cbn [fonts textColor lineWidth strokeColor paperColor mainOuterColor
         mainInnerColor remainOuterColor remainInnerColor ratio].
    now rewrite !assign_key_twice.
Qed.

End ConfigFacts.

#[warnings="-inexact-float"]
Lemma config_without_ratio_is_rejected_witness :
  exists e, set_config (fun _ => true) default_config example_colors = inl e.
Proof.
  apply (@config_without_ratio_is_rejected (fun _ => true) default_config
           example_colors).
  reflexivity.
Defined.

Lemma falsy_lineWidth_is_accepted_witness :
  exists cur',
    set_config (fun _ => true) default_config
      (with_lineWidth default_config (Some 0%float)) = inr cur'
    /\ lineWidth cur' = Some 0%float.
Proof.
  apply (@falsy_lineWidth_is_accepted (fun _ => true) default_config
           default_config default_config 0%float).
  - reflexivity.
  - discriminate.
  - reflexivity.
Defined.

Lemma set_config_keeps_complete_witness :
  complete (assign_keys default_config family_only)
  /\ assign_keys default_config family_only
     = {| fonts := given_or_kept (fonts family_only) (fonts default_config);
          textColor :=
            given_or_kept (textColor family_only) (textColor default_config);
          lineWidth :=
            given_or_kept (lineWidth family_only) (lineWidth default_config);
          strokeColor :=
            given_or_kept (strokeColor family_only) (strokeColor default_config);
          paperColor :=
            given_or_kept (paperColor family_only) (paperColor default_config);
          mainOuterColor :=
            given_or_kept (mainOuterColor family_only)
                          (mainOuterColor default_config);
          mainInnerColor :=
            given_or_kept (mainInnerColor family_only)
                          (mainInnerColor default_config);
          remainOuterColor :=
            given_or_kept (remainOuterColor family_only)
                          (remainOuterColor default_config);
          remainInnerColor :=
            given_or_kept (remainInnerColor family_only)
                          (remainInnerColor default_config);
          ratio := ratio family_only |}
  /\ set_config (fun _ => true) (assign_keys default_config family_only)
                family_only
     = inr (assign_keys default_config family_only).
Proof.
  apply (@set_config_keeps_complete (fun _ => true) default_config
           family_only (assign_keys default_config family_only)).
  - unfold complete, default_config; cbn; repeat split; discriminate.
  - reflexivity.
Defined.

(** ** Order of the doubles *)

Module FloatOrder.

Import FloatAxioms SpecFloat FloatOps.

Lemma SFcompare_antisym (a b : spec_float) :
  SFcompare b a = option_map CompOpp (SFcompare a b).
Proof.
  destruct a as [sa|sa| |sa ma ea], b as [sb|sb| |sb mb eb];
    try reflexivity;
    try (destruct sa; reflexivity); try (destruct sb; reflexivity);
    try (destruct sa, sb; reflexivity).
  cbn [SFcompare option_map].
  destruct sa, sb; try reflexivity; f_equal;
    rewrite (Z.compare_antisym ea eb);
    destruct (ea ?= eb) eqn:E; cbn [CompOpp]; try reflexivity;
    change (Pos.compare_cont Eq mb ma)
      with (Pos.compare_cont (CompOpp Eq) mb ma);
    rewrite <- (Pos.compare_cont_antisym ma mb Eq); reflexivity.
Qed.

Lemma SFcompare_some (a b : spec_float) :
  a <> S754_nan -> b <> S754_nan -> exists c, SFcompare a b = Some c.
Proof.
  intros Ha Hb. destruct a, b; try congruence; cbn; eauto.
Qed.

Lemma SFcompare_refl (a : spec_float) :
  a <> S754_nan -> SFcompare a a = Some Eq.
Proof.
  intros Ha. pose proof (SFcompare_antisym a a) as A.
  destruct (@SFcompare_some a a Ha Ha) as [c E]. rewrite E in A |- *.
  destruct c; try discriminate A. reflexivity.
Qed.

Lemma is_nan_false_iff (f : float) :
  is_nan f = false <-> Prim2SF f <> S754_nan.
Proof.
  unfold is_nan. rewrite eqb_spec. unfold SFeqb. split.
  - intros H E. rewrite E in H. discriminate.
  - intros H. now rewrite SFcompare_refl.
Qed.

Lemma leb_refl (f : float) : is_nan f = false -> (f <=? f)%float = true.
Proof.
  rewrite is_nan_false_iff, leb_spec. unfold SFleb.
  intros H. now rewrite SFcompare_refl.
Qed.

(** On numbers, [a <= b] unless [b < a]. *)
Lemma leb_total (a b : float) :
  is_nan a = false -> is_nan b = false -> (b <? a)%float = false ->
  (a <=? b)%float = true.
Proof.
  rewrite !is_nan_false_iff, ltb_spec, leb_spec. unfold SFltb, SFleb.
  intros Ha Hb.
  rewrite (SFcompare_antisym (Prim2SF a) (Prim2SF b)).
  destruct (@SFcompare_some _ _ Ha Hb) as [c ->]. now destruct c.
Qed.

Lemma ltb_leb (a b : float) : (a <? b)%float = true -> (a <=? b)%float = true.
Proof.
  rewrite ltb_spec, leb_spec. unfold SFltb, SFleb.
  now destruct (SFcompare _ _) as [[]|].
Qed.

Lemma leb_not_nan (a b : float) :
  (a <=? b)%float = true -> is_nan a = false /\ is_nan b = false.
Proof.
  rewrite leb_spec, !is_nan_false_iff. unfold SFleb.
  destruct (Prim2SF a), (Prim2SF b); cbn; try discriminate; split; discriminate.
Qed.

Lemma mul_nan_l (f : float) : is_nan (nan * f)%float = true.
Proof.
  unfold is_nan. rewrite eqb_spec, mul_spec. unfold SFeqb.
  replace (Prim2SF nan) with S754_nan by reflexivity.
  reflexivity.
Qed.

End FloatOrder.

(** ** [Math.min], [Math.max] and the font size *)

Lemma Math_min_below (a b : float) :
  is_nan a = false -> is_nan b = false ->
  (Math_min a b = a \/ Math_min a b = b)
  /\ (Math_min a b <=? a)%float = true
  /\ (Math_min a b <=? b)%float = true.
Proof.
  intros Ha Hb. unfold Math_min. rewrite Ha, Hb. cbn [orb].
  destruct (a <? b)%float eqn:Hab.
  - repeat split; auto using FloatOrder.leb_refl, FloatOrder.ltb_leb.
  - destruct (b <? a)%float eqn:Hba.
    + repeat split; auto using FloatOrder.leb_refl, FloatOrder.ltb_leb.
    + destruct (is_neg_zero a);
        repeat split; auto using FloatOrder.leb_refl, FloatOrder.leb_total.
Qed.

Lemma Math_max_above (a b : float) :
  is_nan a = false -> is_nan b = false ->
  (Math_max a b = a \/ Math_max a b = b)
  /\ (a <=? Math_max a b)%float = true
  /\ (b <=? Math_max a b)%float = true.
Proof.
  intros Ha Hb. unfold Math_max. rewrite Ha, Hb. cbn [orb].
  destruct (a <? b)%float eqn:Hab.
  - repeat split; auto using FloatOrder.leb_refl, FloatOrder.ltb_leb.
  - destruct (b <? a)%float eqn:Hba.
    + repeat split; auto using FloatOrder.leb_refl, FloatOrder.ltb_leb.
    + destruct (is_neg_zero a);
        repeat split; auto using FloatOrder.leb_refl, FloatOrder.leb_total.
Qed.

(** X18. The font size is clamped.  When the configured size s is at most
    1.5 s (as for the default size 3) and the dynamic size computed from
    the inner rectangle is a number, [_calculateFontSize] without the ratio
    returns a size between s and 1.5 s. *)
#[warnings="-inexact-float"]
Theorem font_size_is_clamped (config : ILayoutConfig)
    (innerRectWidth innerRectHeight size : float) :
  fonts_size config = Some size ->
  (size <=? size * 1.5)%float = true ->
  is_nan (dynamic_size innerRectWidth innerRectHeight) = false ->
  (size <=? _calculateFontSize config innerRectWidth innerRectHeight false)%float
  = true
  /\ (_calculateFontSize config innerRectWidth innerRectHeight false
      <=? size * 1.5)%float = true.
Proof.
  intros Hsize Hbound Hdyn. unfold _calculateFontSize. rewrite Hsize.
  cbn [to_number].
  destruct (@FloatOrder.leb_not_nan _ _ Hbound) as [Hs Hmax].
  destruct (@Math_min_below _ _ Hmax Hdyn) as (_ & Hle & _).
  destruct (@FloatOrder.leb_not_nan _ _ Hle) as [Hmin _].
  destruct (@Math_max_above _ _ Hs Hmin) as ([E | E] & Hlow & _).
  - split; [exact Hlow|]. now rewrite E.
  - split; [exact Hlow|]. now rewrite E.
Qed.

#[warnings="-inexact-float"]
Lemma font_size_is_clamped_witness :
  (3 <=? _calculateFontSize default_config 22 32 false)%float = true
  /\ (_calculateFontSize default_config 22 32 false <=? 3 * 1.5)%float = true.
Proof.
  apply (@font_size_is_clamped default_config 22%float 32%float 3%float);
    reflexivity.
Defined.

Lemma Math_max_nan_l (b : float) : Math_max nan b = nan.
Proof. reflexivity. Qed.

(** X19. Fonts are assigned as a whole, so a configuration that gives fonts
    without a size erases the size the instance had: once the setter has
    accepted it, [_calculateFontSize] returns NaN for every rectangle, with
    and without the ratio. *)
Theorem fonts_without_size_give_nan (_isValidColor : string -> bool)
    (_config config cur : ILayoutConfig) (f : IFonts)
    (innerRectWidth innerRectHeight : float) (useRatio : bool) :
  fonts _config <> None ->
  fonts config = Some f -> font_size f = None ->
  set_config _isValidColor _config config = inr cur ->
  is_nan (_calculateFontSize cur innerRectWidth innerRectHeight useRatio) = true.
Proof.
  intros Hkey Hfonts Hsize. unfold set_config.
  destruct (_validateConfig _isValidColor config); [discriminate|].
  intros H. injection H as <-.
  unfold _calculateFontSize, fonts_size. cbn [assign_keys fonts].
  rewrite Hfonts. destruct (fonts _config); [|contradiction].
  cbn [assign_key]. rewrite Hsize. cbn [to_number].
  rewrite Math_max_nan_l.
  destruct useRatio; [apply FloatOrder.mul_nan_l | reflexivity].
Qed.

Lemma fonts_without_size_give_nan_witness :
  is_nan (_calculateFontSize (assign_keys default_config family_only)
            22 32 true) = true.
Proof.
  apply (@fonts_without_size_give_nan (fun _ => true) default_config
           family_only (assign_keys default_config family_only)
           {| font_size := None; font_unit := None;
              font_family := Some "serif"%string |} 22%float 32%float true);
    [discriminate | reflexivity | reflexivity | reflexivity].
Defined.

(** * The class on doubles and the class on integers *)

(** ** Doubles compute exactly on integers below 2^53 *)

(** The library specifies the operations of the primitive doubles by the
    functions of [SpecFloat] on a sign, a mantissa and an exponent
    ([FloatAxioms]).  Those functions round to nearest; on the doubles of
    integers whose result is an integer below 2^53 nothing is lost. *)

Module Exactness.
Import SpecFloat FloatOps FloatAxioms.

(** The number of binary digits. *)
Lemma Zdigits2_log2 (z : Z) : 0 < z -> Zdigits2 z = Z.log2 z + 1.
Proof.
  destruct z as [|p|p]; try lia. intros _. cbn [Zdigits2].
  induction p as [p IH|p IH|]; cbn [digits2_pos Z.log2]; try reflexivity.
  - rewrite Pos2Z.inj_succ. destruct p; cbn [Z.log2 Pos.size digits2_pos] in *; lia.
  - rewrite Pos2Z.inj_succ. destruct p; cbn [Z.log2 Pos.size digits2_pos] in *; lia.
Qed.

Lemma fexp_eq (e : Z) : fexp prec emax e = Z.max (e - 53) (-1074).
Proof. reflexivity. Qed.

Lemma iter_pos_nat {A : Type} (f : A -> A) (n : positive) (a : A) :
  iter_pos f n a = Nat.iter (Pos.to_nat n) f a.
Proof.
  revert a. induction n as [n IH|n IH|]; intros a; cbn [iter_pos].
  - rewrite !IH, Pos2Nat.inj_xI.
    replace (S (2 * Pos.to_nat n)) with (Pos.to_nat n + S (Pos.to_nat n))%nat by lia.
    now rewrite Nat.iter_add, Nat.iter_succ_r.
  - rewrite !IH, Pos2Nat.inj_xO.
    replace (2 * Pos.to_nat n)%nat with (Pos.to_nat n + Pos.to_nat n)%nat by lia.
    now rewrite Nat.iter_add.
  - reflexivity.
Qed.

(** Shifting out zeros keeps the mantissa exact. *)
Lemma shr_1_even (z : Z) :
  0 <= z ->
  shr_1 {| shr_m := 2 * z; shr_r := false; shr_s := false |}
  = {| shr_m := z; shr_r := false; shr_s := false |}.
Proof. destruct z; [reflexivity|reflexivity|lia]. Qed.

Lemma shr_iter (n : nat) (z : Z) :
  0 <= z ->
  Nat.iter n shr_1 {| shr_m := z * 2 ^ Z.of_nat n; shr_r := false; shr_s := false |}
  = {| shr_m := z; shr_r := false; shr_s := false |}.
Proof.
  intros Hz. induction n as [|n IH].
  - cbn [Nat.iter]. now rewrite Z.mul_1_r.
  - rewrite Nat.iter_succ_r.
    replace (z * 2 ^ Z.of_nat (S n)) with (2 * (z * 2 ^ Z.of_nat n))
      by (rewrite Nat2Z.inj_succ, Z.pow_succ_r by lia; ring).
    rewrite shr_1_even by (apply Z.mul_nonneg_nonneg; [lia | apply Z.pow_nonneg; lia]).
    exact IH.
Qed.

Lemma shr_exact (z e k : Z) :
  0 <= z -> 0 <= k ->
  shr {| shr_m := z * 2 ^ k; shr_r := false; shr_s := false |} e k
  = ({| shr_m := z; shr_r := false; shr_s := false |}, e + k).
Proof.
  intros Hz Hk. destruct k as [|p|p]; [| |lia].
  - cbn [shr]. now rewrite Z.mul_1_r, Z.add_0_r.
  - cbn [shr]. rewrite iter_pos_nat.
    rewrite <- (positive_nat_Z p) at 1. now rewrite shr_iter.
Qed.

(** A mantissa of 53 digits followed by [k] zeros is rounded exactly. *)
Lemma binary_round_aux_exact (s : bool) (q k e : Z) :
  2 ^ 52 <= q < 2 ^ 53 -> 0 <= k -> -1074 <= e + k <= 971 ->
  binary_round_aux prec emax s (q * 2 ^ k) e loc_Exact
  = S754_finite s (Z.to_pos q) (e + k).
Proof.
  intros Hq Hk He.
  assert (Hpow : 0 < 2 ^ k) by (apply Z.pow_pos_nonneg; lia).
  assert (Hlog : Z.log2 q = 52).
  { apply Z.log2_unique; [lia|]. exact Hq. }
  unfold binary_round_aux, shr_fexp.
  rewrite Zdigits2_log2 by nia.
  rewrite Z.log2_mul_pow2 by lia.
  rewrite fexp_eq, Hlog.
  replace (Z.max (k + 52 + 1 + e - 53) (-1074) - e) with k by lia.
  cbn [shr_record_of_loc]. rewrite shr_exact by lia.
  cbn [shr_m loc_of_shr_record round_nearest_even shr_record_of_loc].
  rewrite Zdigits2_log2 by lia. rewrite fexp_eq, Hlog.
  replace (Z.max (52 + 1 + (e + k) - 53) (-1074) - (e + k)) with 0 by lia.
  cbn [shr shr_m].
  destruct q as [|p|p]; try lia.
  cbn [Z.to_pos].
  replace (e + k <=? emax - prec) with true; [reflexivity|].
  symmetry. apply Z.leb_le. cbn. lia.
Qed.

(** An integer from 1 to 2^53 - 1 has a mantissa of 53 digits once shifted
    left, and an exponent from -52 to 0. *)
Lemma log2_bounds (n : Z) :
  1 <= n < 2 ^ 53 -> 0 <= Z.log2 n <= 52.
Proof.
  intros Hn. split; [apply Z.log2_nonneg|].
  assert (Z.log2 n < 53); [|lia].
  apply Z.log2_lt_pow2; lia.
Qed.

Lemma canon_mantissa (n : Z) :
  1 <= n < 2 ^ 53 -> 2 ^ 52 <= n * 2 ^ (52 - Z.log2 n) < 2 ^ 53.
Proof.
  intros Hn. pose proof (log2_bounds Hn) as Hl.
  destruct (Z.log2_spec n) as [Hlo Hhi]; [lia|].
  assert (Hp : 0 < 2 ^ (52 - Z.log2 n)) by (apply Z.pow_pos_nonneg; lia).
  replace (2 ^ 52) with (2 ^ Z.log2 n * 2 ^ (52 - Z.log2 n))
    by (rewrite <- Z.pow_add_r by lia; f_equal; lia).
  replace (2 ^ 53) with (2 ^ Z.succ (Z.log2 n) * 2 ^ (52 - Z.log2 n))
    by (rewrite <- Z.pow_add_r by lia; f_equal; lia).
  split; [apply Z.mul_le_mono_nonneg_r | apply Z.mul_lt_mono_pos_r]; lia.
Qed.

(** Rounding [n * 2^k] at exponent [-k] gives the double of [n]. *)
Lemma binary_round_aux_int (s : bool) (n k : Z) :
  1 <= n < 2 ^ 53 -> 52 - Z.log2 n <= k ->
  binary_round_aux prec emax s (n * 2 ^ k) (- k) loc_Exact = canon s n.
Proof.
  intros Hn Hk. pose proof (log2_bounds Hn) as Hl.
  pose proof (canon_mantissa Hn) as Hq.
  replace (n * 2 ^ k)
    with (n * 2 ^ (52 - Z.log2 n) * 2 ^ (k - (52 - Z.log2 n)))
    by (rewrite <- Z.mul_assoc, <- Z.pow_add_r by lia; do 2 f_equal; lia).
  rewrite binary_round_aux_exact by lia.
  unfold canon. f_equal. lia.
Qed.

Lemma iter_xO (m d : positive) :
  Z.pos (Pos.iter xO m d) = Z.pos m * 2 ^ Z.pos d.
Proof.
  change (Pos.iter xO m d) with (Zpower.shift_pos d m).
  rewrite Zpower.shift_pos_correct. now rewrite Z.mul_comm.
Qed.

Lemma binary_round_int (s : bool) (m : positive) (n k : Z) :
  1 <= n < 2 ^ 53 -> 0 <= k -> Z.pos m = n * 2 ^ k ->
  binary_round prec emax s m (- k) = canon s n.
Proof.
  intros Hn Hk Hm. pose proof (log2_bounds Hn) as Hl.
  unfold binary_round.
  change (Z.pos (digits2_pos m)) with (Zdigits2 (Z.pos m)).
  rewrite Zdigits2_log2 by lia. rewrite Hm.
  rewrite Z.log2_mul_pow2 by lia. rewrite fexp_eq.
  replace (Z.max (k + Z.log2 n + 1 + - k - 53) (-1074)) with (Z.log2 n - 52) by lia.
  unfold shl_align.
  destruct (Z.log2 n - 52 - - k) as [|d|d] eqn:Ed.
  - rewrite Hm. apply binary_round_aux_int; lia.
  - rewrite Hm. apply binary_round_aux_int; lia.
  - rewrite iter_xO, Hm.
    replace (n * 2 ^ k * 2 ^ Z.pos d) with (n * 2 ^ (52 - Z.log2 n) * 2 ^ 0)
      by (rewrite Z.mul_1_r, <- Z.mul_assoc, <- Z.pow_add_r by lia; do 2 f_equal; lia).
    pose proof (canon_mantissa Hn) as Hq.
    rewrite binary_round_aux_exact by lia.
    unfold canon. f_equal. lia.
Qed.

Lemma canon_valid (s : bool) (n : Z) :
  1 <= n < 2 ^ 53 -> valid_binary (canon s n) = true.
Proof.
  intros Hn. pose proof (log2_bounds Hn) as Hl.
  pose proof (canon_mantissa Hn) as Hq.
  unfold canon, valid_binary, bounded, canonical_mantissa.
  change (Z.pos (digits2_pos ?m)) with (Zdigits2 (Z.pos m)).
  rewrite Z2Pos.id by lia. rewrite Zdigits2_log2 by lia.
  rewrite (Z.log2_unique _ 52) by lia.
  rewrite fexp_eq. apply andb_true_intro. split.
  - apply Z.eqb_eq. lia.
  - apply Z.leb_le. cbn. lia.
Qed.

Lemma canonZ_valid (z : Z) : Z.abs z < 2 ^ 53 -> valid_binary (canonZ z) = true.
Proof.
  intros Hz. destruct z; [reflexivity| |]; apply canon_valid; lia.
Qed.

Lemma binary_normalize_int (z k : Z) :
  0 <= k -> Z.abs z < 2 ^ 53 ->
  binary_normalize prec emax (z * 2 ^ k) (- k) false = canonZ z.
Proof.
  intros Hk Hz.
  assert (Hp : 0 < 2 ^ k) by (apply Z.pow_pos_nonneg; lia).
  destruct z as [|p|p].
  - reflexivity.
  - destruct (Z.pos p * 2 ^ k) as [|m|m] eqn:E; try lia.
    cbn [binary_normalize canonZ]. apply binary_round_int; lia.
  - destruct (Z.neg p * 2 ^ k) as [|m|m] eqn:E; try lia.
    cbn [binary_normalize canonZ]. apply binary_round_int; lia.
Qed.

(** [of_Z] on an integer below 2^53 in magnitude is its double. *)
Lemma Prim2SF_of_Z (z : Z) :
  Z.abs z < 2 ^ 53 -> Prim2SF (Double.of_Z z) = canonZ z.
Proof.
  intros Hz. unfold Double.of_Z.
  pose proof (@binary_normalize_int z 0) as H.
  rewrite Z.mul_1_r in H. cbn [Z.opp] in H. rewrite H by lia.
  apply Prim2SF_SF2Prim, canonZ_valid, Hz.
Qed.

Lemma Prim2SF_inj (a b : float) : Prim2SF a = Prim2SF b -> a = b.
Proof.
  intros H. rewrite <- (SF2Prim_Prim2SF a), <- (SF2Prim_Prim2SF b). now f_equal.
Qed.

Lemma of_canonZ (f : float) (z : Z) :
  Z.abs z < 2 ^ 53 -> Prim2SF f = canonZ z -> f = Double.of_Z z.
Proof.
  intros Hz H. apply Prim2SF_inj. now rewrite Prim2SF_of_Z.
Qed.


Lemma canonZ_finite (z : Z) :
  z <> 0 -> Z.abs z < 2 ^ 53 ->
  exists m e, canonZ z = S754_finite (z <? 0) m e /\ repr z m e.
Proof.
  intros Hz Hb.
  assert (Hn : 1 <= Z.abs z < 2 ^ 53) by lia.
  pose proof (log2_bounds Hn) as Hl.
  pose proof (canon_mantissa Hn) as Hq.
  exists (Z.to_pos (Z.abs z * 2 ^ (52 - Z.log2 (Z.abs z)))), (Z.log2 (Z.abs z) - 52).
  split.
  - destruct z as [|p|p]; [lia| |]; reflexivity.
  - constructor.
    + lia.
    + rewrite Z2Pos.id by lia. exact Hq.
    + rewrite Z2Pos.id by lia. do 2 f_equal. lia.
    + reflexivity.
Qed.

Lemma shl_align_fst (mx : positive) (ex ez : Z) :
  ez <= ex -> Z.pos (fst (shl_align mx ex ez)) = Z.pos mx * 2 ^ (ex - ez).
Proof.
  intros H. unfold shl_align.
  destruct (ez - ex) as [|d|d] eqn:E; cbn [fst]; try lia.
  - replace (ex - ez) with 0 by lia. lia.
  - rewrite iter_xO. do 2 f_equal. lia.
Qed.

Lemma signed_mantissa (z : Z) (m : positive) (e k : Z) :
  repr z m e -> - e <= k ->
  cond_Zopp (z <? 0) (Z.pos m * 2 ^ (k - - e)) = z * 2 ^ k.
Proof.
  intros [He Hd Hv _] Hk. rewrite Hv, <- Z.mul_assoc, <- Z.pow_add_r by lia.
  replace (- e + (k - - e)) with k by lia.
  unfold cond_Zopp. destruct (Z.ltb_spec z 0).
  - rewrite Z.abs_neq by lia. lia.
  - rewrite Z.abs_eq by lia. reflexivity.
Qed.

(** Sum, difference, product and exact quotient of integers, when the
    result is below 2^53 in magnitude. *)
Lemma SFadd_canonZ (a b : Z) :
  Z.abs a < 2 ^ 53 -> Z.abs b < 2 ^ 53 -> Z.abs (a + b) < 2 ^ 53 ->
  SFadd prec emax (canonZ a) (canonZ b) = canonZ (a + b).
Proof.
  intros Ha Hb Hab.
  destruct (Z.eq_dec a 0) as [->|Na].
  { cbn [canonZ Z.add]. destruct (Z.eq_dec b 0) as [->|Nb]; [reflexivity|].
    destruct (canonZ_finite Nb Hb) as (m & e & -> & _). reflexivity. }
  destruct (Z.eq_dec b 0) as [->|Nb].
  { rewrite Z.add_0_r. destruct (canonZ_finite Na Ha) as (m & e & -> & _).
    reflexivity. }
  destruct (canonZ_finite Na Ha) as (ma & ea & Ea & Ra).
  destruct (canonZ_finite Nb Hb) as (mb & eb & Eb & Rb).
  rewrite Ea, Eb. cbn [SFadd].
  pose proof (repr_exp Ra). pose proof (repr_exp Rb).
  rewrite !shl_align_fst by lia.
  set (k := - Z.min ea eb).
  replace (ea - Z.min ea eb) with (k - - ea) by lia.
  replace (eb - Z.min ea eb) with (k - - eb) by lia.
  rewrite (signed_mantissa Ra), (signed_mantissa Rb) by lia.
  replace (Z.min ea eb) with (- k) by lia.
  rewrite <- Z.mul_add_distr_r.
  apply binary_normalize_int; lia.
Qed.

Lemma SFsub_canonZ (a b : Z) :
  Z.abs a < 2 ^ 53 -> Z.abs b < 2 ^ 53 -> Z.abs (a - b) < 2 ^ 53 ->
  SFsub prec emax (canonZ a) (canonZ b) = canonZ (a - b).
Proof.
  intros Ha Hb Hab.
  destruct (Z.eq_dec b 0) as [->|Nb].
  { rewrite Z.sub_0_r. destruct (Z.eq_dec a 0) as [->|Na]; [reflexivity|].
    destruct (canonZ_finite Na Ha) as (m & e & -> & _). reflexivity. }
  destruct (Z.eq_dec a 0) as [->|Na].
  { cbn [Z.sub Z.add].
    destruct b as [|p|p]; [lia| |]; reflexivity. }
  destruct (canonZ_finite Na Ha) as (ma & ea & Ea & Ra).
  destruct (canonZ_finite Nb Hb) as (mb & eb & Eb & Rb).
  rewrite Ea, Eb. cbn [SFsub].
  pose proof (repr_exp Ra). pose proof (repr_exp Rb).
  rewrite !shl_align_fst by lia.
  set (k := - Z.min ea eb).
  replace (ea - Z.min ea eb) with (k - - ea) by lia.
  replace (eb - Z.min ea eb) with (k - - eb) by lia.
  rewrite (signed_mantissa Ra), (signed_mantissa Rb) by lia.
  replace (Z.min ea eb) with (- k) by lia.
  rewrite <- Z.mul_sub_distr_r.
  apply binary_normalize_int; lia.
Qed.

Lemma SFmul_canonZ (a b : Z) :
  0 <= a -> 0 <= b -> a * b < 2 ^ 53 ->
  SFmul prec emax (canonZ a) (canonZ b) = canonZ (a * b).
Proof.
  intros Ha Hb Hab.
  destruct (Z.eq_dec a 0) as [->|Na].
  { cbn [canonZ Z.mul]. destruct b; [reflexivity|reflexivity|lia]. }
  destruct (Z.eq_dec b 0) as [->|Nb].
  { rewrite Z.mul_0_r. destruct a; [reflexivity|reflexivity|lia]. }
  assert (Ba : Z.abs a < 2 ^ 53) by nia.
  assert (Bb : Z.abs b < 2 ^ 53) by nia.
  destruct (canonZ_finite Na Ba) as (ma & ea & Ea & Ra).
  destruct (canonZ_finite Nb Bb) as (mb & eb & Eb & Rb).
  rewrite Ea, Eb. cbn [SFmul].
  destruct (Z.ltb_spec a 0); [lia|]. destruct (Z.ltb_spec b 0); [lia|].
  cbn [xorb].
  destruct Ra as [Hea _ Hva Hla], Rb as [Heb _ Hvb Hlb].
  rewrite Z.abs_eq in Hva, Hvb, Hla, Hlb by lia.
  rewrite Pos2Z.inj_mul, Hva, Hvb.
  replace (a * 2 ^ (- ea) * (b * 2 ^ (- eb))) with (a * b * 2 ^ (- (ea + eb)))
    by (replace (- (ea + eb)) with (- ea + - eb) by lia;
        rewrite Z.pow_add_r by lia; ring).
  replace (ea + eb) with (- - (ea + eb)) at 2 by lia.
  rewrite binary_round_aux_int.
  - destruct (a * b) as [|p|p] eqn:E; [nia|reflexivity|nia].
  - nia.
  - pose proof (Z.log2_mul_below a b ltac:(lia) ltac:(lia)). lia.
Qed.

Lemma new_location_exact (n : Z) : new_location n 0 = loc_Exact.
Proof. unfold new_location. destruct (Z.even n); reflexivity. Qed.

Lemma SFdiv_canonZ (b c : Z) :
  0 < b < 2 ^ 53 -> 0 <= c -> c * b < 2 ^ 53 ->
  SFdiv prec emax (canonZ (c * b)) (canonZ b) = canonZ c.
Proof.
  intros Hb Hc Hcb.
  assert (Nb : b <> 0) by lia.
  assert (Bb : Z.abs b < 2 ^ 53) by lia.
  destruct (canonZ_finite Nb Bb) as (mb & eb & Eb & Rb).
  destruct (Z.eq_dec c 0) as [->|Nc].
  { cbn [Z.mul canonZ]. rewrite Eb.
    destruct (Z.ltb_spec b 0); [lia|reflexivity]. }
  assert (Na : c * b <> 0) by nia.
  assert (Ba : Z.abs (c * b) < 2 ^ 53) by nia.
  destruct (canonZ_finite Na Ba) as (ma & ea & Ea & Ra).
  rewrite Ea, Eb. cbn [SFdiv].
  destruct (Z.ltb_spec (c * b) 0); [nia|]. destruct (Z.ltb_spec b 0); [lia|].
  cbn [xorb].
  destruct Ra as [Hea Hda Hva Hla], Rb as [Heb Hdb Hvb Hlb].
  rewrite Z.abs_eq in Hva, Hvb, Hla, Hlb by nia.
  unfold SFdiv_core_binary.
  rewrite !Zdigits2_log2 by lia.
  rewrite (Z.log2_unique (Z.pos ma) 52), (Z.log2_unique (Z.pos mb) 52) by lia.
  rewrite fexp_eq.
  replace (Z.min (Z.max (52 + 1 + ea - (52 + 1 + eb) - 53) (-1074)) (ea - eb))
    with (ea - eb - 53) by lia.
  replace (ea - eb - (ea - eb - 53)) with 53 by lia.
  rewrite Z.shiftl_mul_pow2 by lia.
  set (k := 53 - ea + eb).
  assert (Hk : 0 <= k) by lia.
  assert (Hq : Z.pos ma * 2 ^ 53 = c * 2 ^ k * Z.pos mb).
  { rewrite Hva, Hvb. unfold k.
    replace (c * b * 2 ^ (- ea) * 2 ^ 53) with (c * b * (2 ^ (- ea) * 2 ^ 53)) by ring.
    rewrite <- Z.pow_add_r by lia.
    replace (c * 2 ^ (53 - ea + eb) * (b * 2 ^ (- eb)))
      with (c * b * (2 ^ (53 - ea + eb) * 2 ^ (- eb))) by ring.
    rewrite <- Z.pow_add_r by lia. do 2 f_equal. lia. }
  destruct (Z.div_eucl (Z.pos ma * 2 ^ 53) (Z.pos mb)) as [q r] eqn:E.
  assert (Eq : q = c * 2 ^ k).
  { change q with (fst (q, r)). rewrite <- E.
    change (fst (Z.div_eucl ?x ?y)) with (x / y).
    rewrite Hq. apply Z.div_mul. lia. }
  assert (Er : r = 0).
  { change r with (snd (q, r)). rewrite <- E.
    change (snd (Z.div_eucl ?x ?y)) with (x mod y).
    rewrite Hq. apply Z.mod_mul. lia. }
  subst q r. rewrite new_location_exact.
  replace (ea - eb - 53) with (- k) by lia.
  rewrite binary_round_aux_int.
  - destruct c as [|p|p]; [lia|reflexivity|lia].
  - nia.
  - pose proof (Z.log2_mul_above c b ltac:(lia) ltac:(lia)). unfold k. lia.
Qed.

(** The order of the doubles of integers is the order of the integers. *)
Lemma compare_canon (n1 n2 : Z) :
  1 <= n1 < 2 ^ 53 -> 1 <= n2 < 2 ^ 53 ->
  match Z.log2 n1 - 52 ?= Z.log2 n2 - 52 with
  | Lt => Lt
  | Gt => Gt
  | Eq => Pos.compare_cont Eq (Z.to_pos (n1 * 2 ^ (52 - Z.log2 n1)))
                              (Z.to_pos (n2 * 2 ^ (52 - Z.log2 n2)))
  end = (n1 ?= n2).
Proof.
  intros H1 H2.
  pose proof (log2_bounds H1). pose proof (log2_bounds H2).
  pose proof (canon_mantissa H1). pose proof (canon_mantissa H2).
  destruct (Z.compare_spec (Z.log2 n1 - 52) (Z.log2 n2 - 52)) as [E|E|E].
  - change (Pos.compare_cont Eq ?p ?q) with (Z.pos p ?= Z.pos q).
    rewrite !Z2Pos.id by lia.
    replace (Z.log2 n2) with (Z.log2 n1) by lia.
    symmetry. apply Zmult_compare_compat_r.
    apply Z.lt_gt, Z.pow_pos_nonneg; lia.
  - symmetry. apply Z.compare_lt_iff. apply Z.log2_lt_cancel. lia.
  - symmetry. apply Z.compare_gt_iff. apply Z.log2_lt_cancel. lia.
Qed.

Lemma SFcompare_canonZ (a b : Z) :
  Z.abs a < 2 ^ 53 -> Z.abs b < 2 ^ 53 ->
  SFcompare (canonZ a) (canonZ b) = Some (a ?= b).
Proof.
  intros Ha Hb.
  destruct a as [|p|p], b as [|q|q]; try reflexivity;
    cbn [canonZ canon SFcompare].
  - f_equal. apply compare_canon; lia.
  - f_equal.
    change (Z.neg p ?= Z.neg q) with (CompOpp (Z.pos p ?= Z.pos q)).
    rewrite <- (@compare_canon (Z.pos p) (Z.pos q)) by lia.
    destruct (Z.log2 (Z.pos p) - 52 ?= Z.log2 (Z.pos q) - 52); reflexivity.
Qed.


(** ** The operations of the class on the doubles of integers *)

(** [+], [-], [*] and [/] *)
Lemma of_Z_add (a b : Z) :
  Z.abs a < 2 ^ 53 -> Z.abs b < 2 ^ 53 -> Z.abs (a + b) < 2 ^ 53 ->
  (Double.of_Z a + Double.of_Z b)%float = Double.of_Z (a + b).
Proof.
  intros Ha Hb Hab. apply of_canonZ; [assumption|].
  rewrite add_spec, !Prim2SF_of_Z by assumption. now apply SFadd_canonZ.
Qed.

Lemma of_Z_sub (a b : Z) :
  Z.abs a < 2 ^ 53 -> Z.abs b < 2 ^ 53 -> Z.abs (a - b) < 2 ^ 53 ->
  (Double.of_Z a - Double.of_Z b)%float = Double.of_Z (a - b).
Proof.
  intros Ha Hb Hab. apply of_canonZ; [assumption|].
  rewrite sub_spec, !Prim2SF_of_Z by assumption. now apply SFsub_canonZ.
Qed.

Lemma of_Z_mul (a b : Z) :
  0 <= a < 2 ^ 53 -> 0 <= b < 2 ^ 53 -> a * b < 2 ^ 53 ->
  (Double.of_Z a * Double.of_Z b)%float = Double.of_Z (a * b).
Proof.
  intros Ha Hb Hab. apply of_canonZ; [nia|].
  rewrite mul_spec, !Prim2SF_of_Z by lia. apply SFmul_canonZ; lia.
Qed.

Lemma of_Z_div (b c : Z) :
  0 < b < 2 ^ 53 -> 0 <= c < 2 ^ 53 -> c * b < 2 ^ 53 ->
  (Double.of_Z (c * b) / Double.of_Z b)%float = Double.of_Z c.
Proof.
  intros Hb Hc Hcb. apply of_canonZ; [lia|].
  rewrite div_spec, !Prim2SF_of_Z by nia. apply SFdiv_canonZ; lia.
Qed.

(** [<], [<=] and [===] *)
Lemma of_Z_compare (a b : Z) :
  Z.abs a < 2 ^ 53 -> Z.abs b < 2 ^ 53 ->
  (Double.of_Z a <? Double.of_Z b)%float = (a <? b)
  /\ (Double.of_Z a <=? Double.of_Z b)%float = (a <=? b)
  /\ (Double.of_Z a =? Double.of_Z b)%float = (a =? b).
Proof.
  intros Ha Hb.
  rewrite ltb_spec, leb_spec, eqb_spec, !Prim2SF_of_Z by assumption.
  unfold SFltb, SFleb, SFeqb. rewrite SFcompare_canonZ by assumption.
  unfold Z.ltb, Z.leb, Z.eqb.
  repeat split; destruct (a ?= b) eqn:E; try reflexivity.
  - apply Z.compare_eq in E. subst b. destruct a; cbn; try reflexivity;
      now rewrite Pos.eqb_refl.
  - destruct a, b; cbn in *; try discriminate; try reflexivity;
      [destruct (Pos.eqb_spec p p0) | destruct (Pos.eqb_spec p p0)];
      try reflexivity; subst; rewrite ?Pos.compare_refl in E; discriminate.
  - destruct a, b; cbn in *; try discriminate; try reflexivity;
      [destruct (Pos.eqb_spec p p0) | destruct (Pos.eqb_spec p p0)];
      try reflexivity; subst; rewrite ?Pos.compare_refl in E; discriminate.
Qed.

Lemma of_Z_ltb (a b : Z) :
  Z.abs a < 2 ^ 53 -> Z.abs b < 2 ^ 53 ->
  (Double.of_Z a <? Double.of_Z b)%float = (a <? b).
Proof. intros Ha Hb. apply (@of_Z_compare a b Ha Hb). Qed.

Lemma of_Z_leb (a b : Z) :
  Z.abs a < 2 ^ 53 -> Z.abs b < 2 ^ 53 ->
  (Double.of_Z a <=? Double.of_Z b)%float = (a <=? b).
Proof. intros Ha Hb. apply (@of_Z_compare a b Ha Hb). Qed.

Lemma of_Z_eqb (a b : Z) :
  Z.abs a < 2 ^ 53 -> Z.abs b < 2 ^ 53 ->
  (Double.of_Z a =? Double.of_Z b)%float = (a =? b).
Proof. intros Ha Hb. apply (@of_Z_compare a b Ha Hb). Qed.

Lemma of_Z_is_nan (a : Z) :
  Z.abs a < 2 ^ 53 -> is_nan (Double.of_Z a) = false.
Proof.
  intros Ha. unfold is_nan. rewrite of_Z_eqb by assumption.
  now rewrite Z.eqb_refl.
Qed.

Lemma of_Z_canon (z : Z) :
  Z.abs z < 2 ^ 53 -> Double.of_Z z = SF2Prim (canonZ z).
Proof.
  intros Hz. unfold Double.of_Z.
  pose proof (@binary_normalize_int z 0) as H.
  rewrite Z.mul_1_r in H. cbn [Z.opp] in H. now rewrite H by lia.
Qed.

(** [%] *)
Lemma of_Z_rem (a b : Z) :
  0 <= a < 2 ^ 53 -> 0 < b < 2 ^ 53 ->
  Double.rem (Double.of_Z a) (Double.of_Z b) = Double.of_Z (Z.rem a b).
Proof.
  intros Ha Hb. unfold Double.rem.
  rewrite !Prim2SF_of_Z by lia.
  assert (Nb : b <> 0) by lia.
  assert (Bb : Z.abs b < 2 ^ 53) by lia.
  destruct (canonZ_finite Nb Bb) as (mb & eb & Eb & Rb). rewrite Eb.
  destruct (Z.eq_dec a 0) as [->|Na].
  { cbn [canonZ]. now rewrite Z.rem_0_l by lia. }
  assert (Ba : Z.abs a < 2 ^ 53) by lia.
  destruct (canonZ_finite Na Ba) as (ma & ea & Ea & Ra). rewrite Ea.
  destruct (Z.ltb_spec a 0); [lia|].
  destruct Ra as [Hea _ Hva _], Rb as [Heb _ Hvb _].
  rewrite Z.abs_eq in Hva, Hvb by lia.
  cbv zeta.
  set (k := - Z.min ea eb).
  assert (Hk : 0 <= k) by lia.
  assert (Hp : 0 < 2 ^ k) by (apply Z.pow_pos_nonneg; lia).
  replace (Z.pos ma * 2 ^ (ea - Z.min ea eb)) with (a * 2 ^ k)
    by (rewrite Hva, <- Z.mul_assoc, <- Z.pow_add_r by lia; do 2 f_equal; lia).
  replace (Z.pos mb * 2 ^ (eb - Z.min ea eb)) with (b * 2 ^ k)
    by (rewrite Hvb, <- Z.mul_assoc, <- Z.pow_add_r by lia; do 2 f_equal; lia).
  rewrite (Z.rem_mod_nonneg (a * 2 ^ k)) by nia.
  rewrite Z.mul_mod_distr_r by lia.
  rewrite Z.rem_mod_nonneg by lia.
  pose proof (Z.mod_pos_bound a b ltac:(lia)) as Hm.
  destruct (Z.eqb_spec (a mod b * 2 ^ k) 0) as [E|E].
  - replace (a mod b) with 0 by nia. reflexivity.
  - replace (Z.min ea eb) with (- k) by lia.
    rewrite binary_normalize_int by lia.
    symmetry. apply of_Z_canon. lia.
Qed.

(** The length [Array(n)] reads and the value of the double. *)
Lemma of_Z_to_integer (z : Z) :
  Z.abs z < 2 ^ 53 -> Double.to_integer (Double.of_Z z) = Some z.
Proof.
  intros Hz. unfold Double.to_integer. rewrite Prim2SF_of_Z by assumption.
  destruct (Z.eq_dec z 0) as [->|Nz]; [reflexivity|].
  destruct (canonZ_finite Nz Hz) as (m & e & E & [He _ Hv _]). rewrite E.
  assert (Hp : 0 < 2 ^ (- e)) by (apply Z.pow_pos_nonneg; lia).
  assert (Hs : (if z <? 0 then Z.neg m else Z.pos m) = z * 2 ^ (- e)).
  { destruct (Z.ltb_spec z 0).
    - rewrite Z.abs_neq in Hv by lia. lia.
    - rewrite Z.abs_eq in Hv by lia. exact Hv. }
  cbv zeta. rewrite Hs.
  destruct (Z.leb_spec 0 e).
  - replace e with 0 by lia. f_equal. cbn. lia.
  - rewrite Hv, Z.mod_mul by lia. cbn [Z.eqb].
    now rewrite Z.div_mul by lia.
Qed.

Lemma of_Z_exact (z : Z) :
  Z.abs z < 2 ^ 53 -> Double.exact (Double.of_Z z) = z * 2 ^ 1074.
Proof.
  intros Hz. unfold Double.exact. rewrite Prim2SF_of_Z by assumption.
  destruct (Z.eq_dec z 0) as [->|Nz]; [reflexivity|].
  destruct (canonZ_finite Nz Hz) as (m & e & E & [He _ Hv _]). rewrite E.
  assert (Hs : (if z <? 0 then Z.neg m else Z.pos m) = z * 2 ^ (- e)).
  { destruct (Z.ltb_spec z 0).
    - rewrite Z.abs_neq in Hv by lia. lia.
    - rewrite Z.abs_eq in Hv by lia. exact Hv. }
  rewrite Hs, <- Z.mul_assoc, <- Z.pow_add_r by lia.
  do 2 f_equal. lia.
Qed.

End Exactness.

(** ** The class on the doubles of integers *)

Section Agreement.
Import Exactness.

(** The literals of the code. *)
Lemma of_Z_0 : 0%float = Double.of_Z 0.
Proof. reflexivity. Qed.

Lemma of_Z_2 : 2%float = Double.of_Z 2.
Proof. reflexivity. Qed.

(** [target + (2 * margin)] *)
Lemma cell_side (t m : Z) :
  0 < t -> 0 <= m -> t + 2 * m < 2 ^ 53 ->
  (Double.of_Z t + 2 * Double.of_Z m)%float = Double.of_Z (t + 2 * m).
Proof.
  intros Ht Hm Hb. rewrite of_Z_2.
  rewrite of_Z_mul, of_Z_add by lia. reflexivity.
Qed.

Lemma double_validateDivisionByZero (d : Z) :
  0 < d < 2 ^ 53 -> Double._validateDivisionByZero (Double.of_Z d) = Ok tt.
Proof.
  intros Hd. unfold Double._validateDivisionByZero. rewrite of_Z_0.
  rewrite of_Z_eqb by lia. now destruct (Z.eqb_spec d 0); [lia|].
Qed.

(** [(a - a % b) / b] on the doubles of integers is the double of the
    floor. *)
Lemma double_floor (a b : Z) :
  0 <= a < 2 ^ 53 -> 0 < b < 2 ^ 53 ->
  ((Double.of_Z a - Double.rem (Double.of_Z a) (Double.of_Z b)) / Double.of_Z b)%float = Double.of_Z (a / b).
Proof.
  intros Ha Hb.
  pose proof (Z.mod_pos_bound a b ltac:(lia)) as Hm.
  pose proof (@floor_bounds a b ltac:(lia) ltac:(lia)) as Hf.
  rewrite of_Z_rem by lia. rewrite Z.rem_mod_nonneg by lia.
  rewrite of_Z_sub by lia.
  replace (a - a mod b) with (a / b * b) by (rewrite Z.mod_eq by lia; ring).
  apply of_Z_div; nia.
Qed.

Lemma double_inlineCut (source target margin : ISquareSize) :
  0 <= width source < 2 ^ 53 -> 0 <= height source < 2 ^ 53 ->
  0 < width target -> 0 < height target ->
  0 <= width margin -> 0 <= height margin ->
  width target + 2 * width margin < 2 ^ 53 ->
  height target + 2 * height margin < 2 ^ 53 ->
  Double._inlineCut (double_size source) (double_size target) (double_size margin)
  = Ok (double_grid
          {| row := height source / (height target + 2 * height margin);
             column := width source / (width target + 2 * width margin) |}).
Proof.
  intros Hsw Hsh Htw Hth Hmw Hmh Hcw Hch.
  unfold Double._inlineCut, double_size.
  cbn [Double.width Double.height].
  rewrite !cell_side by lia.
  rewrite !double_validateDivisionByZero by lia. cbn [bind].
  rewrite !double_floor by lia. reflexivity.
Qed.

Lemma double_crossCut (source target margin : ISquareSize) :
  0 <= width source < 2 ^ 53 -> 0 <= height source < 2 ^ 53 ->
  0 < width target -> 0 < height target ->
  0 <= width margin -> 0 <= height margin ->
  width target + 2 * width margin < 2 ^ 53 ->
  height target + 2 * height margin < 2 ^ 53 ->
  Double._crossCut (double_size source) (double_size target) (double_size margin)
  = Ok (double_grid
          {| row := height source / (width target + 2 * width margin);
             column := width source / (height target + 2 * height margin) |}).
Proof.
  intros Hsw Hsh Htw Hth Hmw Hmh Hcw Hch.
  unfold Double._crossCut, double_size.
  cbn [Double.width Double.height].
  rewrite !cell_side by lia.
  rewrite !double_validateDivisionByZero by lia. cbn [bind].
  rewrite !double_floor by lia. reflexivity.
Qed.


Lemma double_Array_fill (A : Type) (n : Z) (v : A) :
  0 <= n <= max_array_length ->
  Double.Array_fill (Double.of_Z n) v = Ok (repeat v (Z.to_nat n)).
Proof.
  unfold max_array_length. intros Hn. unfold Double.Array_fill.
  rewrite of_Z_to_integer by lia.
  destruct (Z.leb_spec 0 n); [|lia].
  destruct (Z.leb_spec n 4294967295); [|lia]. reflexivity.
Qed.

Lemma double_matrix_of (g : IMatrixGrid) :
  0 <= row g <= max_array_length -> 0 <= column g <= max_array_length ->
  Double.matrix_of (double_grid g) = Ok (matrix g).
Proof.
  intros Hr Hc. unfold Double.matrix_of, double_grid, matrix.
  cbn [Double.row Double.column].
  rewrite double_Array_fill by assumption. cbn [bind].
  now rewrite double_Array_fill by assumption.
Qed.

Lemma double_validateGrid (g : IMatrixGrid) :
  Z.abs (row g) < 2 ^ 53 -> Z.abs (column g) < 2 ^ 53 ->
  Double._validateGrid (double_grid g) = _validateGrid g.
Proof.
  intros Hr Hc. unfold Double._validateGrid, _validateGrid, double_grid.
  cbn [Double.row Double.column]. rewrite of_Z_0.
  now rewrite !of_Z_leb by (cbn; lia).
Qed.

(** The cell of the loops, when its coordinates stay below 2^53. *)
Lemma double_build_cell (outerSize innerSize marginSize : ISquareSize)
    (start : option ILayoutCoords) (r c : nat) :
  0 <= width outerSize -> 0 <= height outerSize ->
  0 <= width marginSize -> 0 <= height marginSize ->
  Z.abs (width innerSize) < 2 ^ 53 -> Z.abs (height innerSize) < 2 ^ 53 ->
  0 <= match start with Some s => x s | None => 0 end ->
  0 <= match start with Some s => y s | None => 0 end ->
  match start with Some s => x s | None => 0 end
  + Z.of_nat c * width outerSize + width outerSize + width marginSize < 2 ^ 53 ->
  match start with Some s => y s | None => 0 end
  + Z.of_nat r * height outerSize + height outerSize + height marginSize < 2 ^ 53 ->
  Z.of_nat c < 2 ^ 53 -> Z.of_nat r < 2 ^ 53 ->
  Double.build_cell (double_size outerSize) (double_size innerSize)
                    (double_size marginSize) (option_map double_coords start) r c
  = double_placement (build_cell outerSize innerSize marginSize start r c).
Proof.
  intros How Hoh Hmw Hmh Hiw Hih Hsx Hsy Hx Hy Hc Hr.
  unfold Double.build_cell, build_cell, double_placement, double_rect, double_size.
  cbn [Double.width Double.height Double.rect_x Double.rect_y inner outer grid
       rect_x rect_y rect_width rect_height row column].
  assert (Ex : (match option_map double_coords start with
                | Some s => Double.x s
                | None => 0
                end)%float
               = Double.of_Z (match start with Some s => x s | None => 0 end)).
  { destruct start; reflexivity. }
  assert (Ey : (match option_map double_coords start with
                | Some s => Double.y s
                | None => 0
                end)%float
               = Double.of_Z (match start with Some s => y s | None => 0 end)).
  { destruct start; reflexivity. }
  rewrite Ex, Ey.
  set (sx := match start with Some s => x s | None => 0 end) in *.
  set (sy := match start with Some s => y s | None => 0 end) in *.
  assert (0 <= Z.of_nat c * width outerSize) by nia.
  assert (0 <= Z.of_nat r * height outerSize) by nia.
  rewrite !of_Z_mul by lia.
  rewrite !of_Z_add by lia.
  reflexivity.
Qed.

Lemma double_column_loop (cellD : nat -> nat -> Double.IRectMatrixResult)
    (cellZ : nat -> nat -> IRectMatrixResult) (cells : list placeholder)
    (r c0 : nat) :
  (forall c, (c0 <= c < c0 + length cells)%nat ->
             cellD r c = double_placement (cellZ r c)) ->
  Double.column_loop cellD cells r c0
  = map double_placement (column_loop cellZ cells r c0).
Proof.
  revert c0. induction cells as [|cell cells IH]; intros c0 H; [reflexivity|].
  cbn [Double.column_loop column_loop map]. f_equal.
  - apply H. cbn [length]. lia.
  - apply IH. intros c Hc. apply H. cbn [length]. lia.
Qed.

Lemma double_row_loop (cellD : nat -> nat -> Double.IRectMatrixResult)
    (cellZ : nat -> nat -> IRectMatrixResult) (rows : list (list placeholder))
    (r0 : nat) :
  (forall r c cells, (r0 <= r < r0 + length rows)%nat -> In cells rows ->
                     (c < length cells)%nat ->
                     cellD r c = double_placement (cellZ r c)) ->
  Double.row_loop cellD rows r0
  = map double_placement (row_loop cellZ rows r0).
Proof.
  revert r0. induction rows as [|cells rows IH]; intros r0 H; [reflexivity|].
  cbn [Double.row_loop row_loop]. rewrite map_app. f_equal.
  - apply double_column_loop. intros c Hc.
    apply (H r0 c cells); cbn [length In]; auto; lia.
  - apply IH. intros r c cells' Hr Hin Hc.
    apply (H r c cells'); cbn [length In]; auto; lia.
Qed.


Lemma double_turned (reverse : bool) (size : ISquareSize) :
  {| Double.width := if reverse then Double.height (double_size size)
                     else Double.width (double_size size);
     Double.height := if reverse then Double.width (double_size size)
                      else Double.height (double_size size) |}
  = double_size (turned reverse size).
Proof. now destruct reverse. Qed.

Lemma double_buildRectMatrix (g : IMatrixGrid) (sizing : IPaperLayoutSizing)
    (reverse : bool) (start : option ILayoutCoords) :
  0 < row g < 2 ^ 53 -> 0 < column g < 2 ^ 53 ->
  0 <= width (turned reverse (outerSize sizing)) ->
  0 <= height (turned reverse (outerSize sizing)) ->
  0 <= width (turned reverse (marginSize sizing)) ->
  0 <= height (turned reverse (marginSize sizing)) ->
  Z.abs (width (innerSize sizing)) < 2 ^ 53 ->
  Z.abs (height (innerSize sizing)) < 2 ^ 53 ->
  0 <= match start with Some s => x s | None => 0 end ->
  0 <= match start with Some s => y s | None => 0 end ->
  match start with Some s => x s | None => 0 end
  + width (turned reverse (outerSize sizing)) * column g
  + width (turned reverse (marginSize sizing)) < 2 ^ 53 ->
  match start with Some s => y s | None => 0 end
  + height (turned reverse (outerSize sizing)) * row g
  + height (turned reverse (marginSize sizing)) < 2 ^ 53 ->
  Double._buildRectMatrix (matrix g) (double_sizing sizing) reverse
                          (option_map double_coords start)
  = Ok (map double_placement (grid_cells g sizing reverse start)).
Proof.
  intros Hr Hc How Hoh Hmw Hmh Hiw Hih Hsx Hsy Hx Hy.
  unfold Double._buildRectMatrix.
  rewrite validateRectMatrixArray_matrix by lia. cbn [bind].
  unfold double_sizing.
  cbn [Double.outerSize Double.innerSize Double.marginSize].
  rewrite !double_turned. f_equal. unfold grid_cells.
  apply double_row_loop. intros r c cells Hrr Hin Hcc.
  apply matrix_rows in Hin. unfold matrix in Hrr. rewrite repeat_length in Hrr.
  rewrite Hin in Hcc.
  apply double_build_cell; try assumption.
  - destruct reverse; assumption.
  - destruct reverse; assumption.
  - nia.
  - nia.
  - lia.
  - lia.
Qed.

Lemma double_calculateRemain (sheet container target margin : ISquareSize) :
  0 <= width sheet < 2 ^ 53 -> 0 <= height sheet < 2 ^ 53 ->
  0 <= width container -> 0 <= height container ->
  0 <= width sheet - width container -> 0 <= height sheet - height container ->
  0 < width target -> 0 < height target ->
  0 <= width margin -> 0 <= height margin ->
  width target + 2 * width margin < 2 ^ 53 ->
  height target + 2 * height margin < 2 ^ 53 ->
  Double._calculateRemain (double_size sheet) (double_size container)
                          (double_size target) (double_size margin)
  = match _calculateRemain sheet container target margin with
    | Ok remainer => Ok (option_map double_remainer remainer)
    | Throw e => Throw e
    end.
Proof.
  intros Hsw Hsh Hcw Hch HX HY Htw Hth Hmw Hmh Hbw Hbh.
  rewrite calculateRemain_floor by lia.
  unfold Double._calculateRemain, double_size.
  cbn [Double.width Double.height].
  rewrite !of_Z_sub by lia.
  unfold Double._validateRemainXY. rewrite of_Z_0.
  rewrite !of_Z_ltb by (cbn; lia).
  destruct (Z.ltb_spec (width sheet - width container) 0); [lia|].
  destruct (Z.ltb_spec (height sheet - height container) 0); [lia|].
  cbn [throw_if bind].
  rewrite !of_Z_leb by lia.
  destruct (height target <=? width sheet - width container).
  - pose proof (@double_crossCut
                  {| width := width sheet - width container;
                     height := height sheet |} target margin) as E.
    unfold double_size in E. cbn [width height] in E.
    rewrite E by lia. reflexivity.
  - destruct (width target <=? height sheet - height container); [|reflexivity].
    pose proof (@double_crossCut
                  {| width := width sheet;
                     height := height sheet - height container |}
                  target margin) as E.
    unfold double_size in E. cbn [width height] in E.
    rewrite E by lia. reflexivity.
Qed.


Lemma double_remain (sizing : IPaperLayoutSizing) (rm : Remainer)
    (main : list Double.IRectMatrixResult) :
  0 <= row (rem_grid rm) <= max_array_length ->
  0 <= column (rem_grid rm) <= max_array_length ->
  0 <= height (outerSize sizing) -> 0 <= width (outerSize sizing) ->
  0 <= height (marginSize sizing) -> 0 <= width (marginSize sizing) ->
  Z.abs (width (innerSize sizing)) < 2 ^ 53 ->
  Z.abs (height (innerSize sizing)) < 2 ^ 53 ->
  0 <= x (rem_start rm) -> 0 <= y (rem_start rm) ->
  x (rem_start rm) + height (outerSize sizing) * column (rem_grid rm)
  + height (marginSize sizing) < 2 ^ 53 ->
  y (rem_start rm) + width (outerSize sizing) * row (rem_grid rm)
  + width (marginSize sizing) < 2 ^ 53 ->
  (if ((0 <? Double.row (Double.rem_grid (double_remainer rm)))
       && (0 <? Double.column (Double.rem_grid (double_remainer rm))))%float
   then
     remainMatrix <- Double.matrix_of (Double.rem_grid (double_remainer rm)) ;;
     remain <- Double._buildRectMatrix
                 remainMatrix (double_sizing sizing) true
                 (Some (Double.rem_start (double_remainer rm))) ;;
     Ok {| Double.main := main; Double.remain := Some remain |}
   else Ok {| Double.main := main; Double.remain := None |})
  = Ok {| Double.main := main;
          Double.remain :=
            option_map (map double_placement) (remain_cells sizing (Some rm)) |}.
Proof.
  unfold max_array_length.
  intros Hr Hc Hoh How Hmh Hmw Hiw Hih Hsx Hsy Hx Hy.
  unfold double_remainer, double_grid.
  cbn [Double.rem_grid Double.rem_start Double.row Double.column remain_cells].
  rewrite of_Z_0, !of_Z_ltb by (cbn; lia).
  rewrite !Z.gtb_ltb.
  destruct (Z.ltb_spec 0 (row (rem_grid rm))) as [Hrow|]; [|reflexivity].
  destruct (Z.ltb_spec 0 (column (rem_grid rm))) as [Hcol|]; [|reflexivity].
  cbn [andb option_map].
  pose proof (@double_matrix_of (rem_grid rm)) as M.
  unfold double_grid, max_array_length in M. rewrite M by lia. cbn [bind].
  pose proof (@double_buildRectMatrix (rem_grid rm) sizing true
                (Some (rem_start rm))) as B.
  cbn [option_map turned width height] in B.
  rewrite B by lia. reflexivity.
Qed.

Lemma double_generateLayoutMatrix (g : IMatrixGrid) (sizing : IPaperLayoutSizing) :
  coherent sizing ->
  width (source sizing) <= max_array_length ->
  height (source sizing) <= max_array_length ->
  0 < row g -> 0 < column g ->
  width (outerSize sizing) * column g <= width (source sizing) ->
  height (outerSize sizing) * row g <= height (source sizing) ->
  Double._generateLayoutMatrix (double_grid g) (double_sizing sizing)
  = match _generateLayoutMatrix g sizing with
    | Ok l => Ok (double_layout l)
    | Throw e => Throw e
    end.
Proof.
  unfold max_array_length.
  intros [Eow Eoh Hiw Hih Hmw Hmh Hsw Hsh] Bw Bh Hrow Hcol Hfw Hfh.
  assert (How : 1 <= width (outerSize sizing)) by lia.
  assert (Hoh : 1 <= height (outerSize sizing)) by lia.
  assert (Hr : row g <= height (source sizing)) by nia.
  assert (Hc : column g <= width (source sizing)) by nia.
  rewrite generateLayoutMatrix_eq by assumption.
  unfold Double._generateLayoutMatrix.
  rewrite double_validateGrid by lia.
  rewrite validateGrid_ok by assumption. cbn [bind].
  rewrite double_matrix_of by (unfold max_array_length; lia). cbn [bind].
  change (@None Double.ILayoutCoords) with (option_map double_coords None).
  rewrite double_buildRectMatrix
    by (cbn [turned width height]; try lia; nia).
  cbn [bind].
  replace {| Double.width := (Double.width (Double.outerSize (double_sizing sizing))
                              * Double.column (double_grid g))%float;
             Double.height := (Double.height (Double.outerSize (double_sizing sizing))
                               * Double.row (double_grid g))%float |}
    with (double_size (container_of g sizing)).
  2:{ unfold double_sizing, double_grid, container_of, double_size.
      cbn [Double.outerSize Double.width Double.height Double.row Double.column
           width height].
      now rewrite !of_Z_mul by lia. }
  unfold double_sizing at 1 2 3.
  cbn [Double.source Double.innerSize Double.marginSize].
  rewrite double_calculateRemain
    by (unfold container_of; cbn [width height]; try lia; nia).
  destruct (_calculateRemain (source sizing) (container_of g sizing)
              (innerSize sizing) (marginSize sizing)) as [[rm|]|e] eqn:Erem;
    cbn [bind option_map]; [| reflexivity | reflexivity].
  pose proof Erem as Efl.
  rewrite calculateRemain_floor in Efl
    by (unfold container_of; cbn [width height]; try lia; nia).
  unfold container_of in Efl. cbn [width height] in Efl.
  rewrite <- Eow, <- Eoh in Efl.
  pose proof (@floor_bounds (height (source sizing)) (width (outerSize sizing))
                ltac:(lia) ltac:(lia)) as F1.
  pose proof (@floor_bounds (width (source sizing)) (height (outerSize sizing))
                ltac:(lia) ltac:(lia)) as F2.
  destruct (height (innerSize sizing)
            <=? width (source sizing) - width (outerSize sizing) * column g).
  - apply Ok_inj in Efl. injection Efl as <-.
    pose proof (@floor_bounds
                  (width (source sizing) - width (outerSize sizing) * column g)
                  (height (outerSize sizing)) ltac:(lia) ltac:(lia)) as F3.
    apply double_remain; cbn [rem_grid rem_start row column x y];
      unfold max_array_length; try lia; nia.
  - destruct (width (innerSize sizing)
              <=? height (source sizing) - height (outerSize sizing) * row g);
      [|discriminate].
    apply Ok_inj in Efl. injection Efl as <-.
    pose proof (@floor_bounds
                  (height (source sizing) - height (outerSize sizing) * row g)
                  (width (outerSize sizing)) ltac:(lia) ltac:(lia)) as F3.
    apply double_remain; cbn [rem_grid rem_start row column x y];
      unfold max_array_length; try lia; nia.
Qed.


Lemma double_constructor_accepts (source target margin : ISquareSize)
    (useInline : bool) :
  valid_input source target margin ->
  width source < 2 ^ 53 -> height source < 2 ^ 53 ->
  Double.constructor (double_size source) (double_size target)
                     (double_size margin) useInline
  = Ok {| Double._source := double_size source;
          Double._target := double_size target;
          Double._margin := double_size margin;
          Double._useInline := useInline |}.
Proof.
  intros [Hsw Hsh Htw Hth Hmw Hmh Hfw Hfh] Bw Bh.
  unfold Double.constructor, Double._validateTarget, Double._validateSource,
    Double._validateMargin, Double.exceeds_source, Double.js_not, double_size.
  cbn [Double.width Double.height].
  rewrite !cell_side by lia.
  rewrite !of_Z_is_nan by lia. rewrite of_Z_0.
  rewrite !of_Z_leb, !of_Z_ltb, !of_Z_eqb by lia.
  repeat match goal with
         | |- context [?a <=? ?b] => destruct (Z.leb_spec a b); [lia|]
         | |- context [?a <? ?b] => destruct (Z.ltb_spec a b); [lia|]
         end.
  cbn [orb throw_if bind].
  destruct (Z.eqb_spec (width margin) 0) as [Ew|]; [|reflexivity].
  destruct (Z.eqb_spec (height margin) 0) as [Eh|]; [|reflexivity].
  cbn [andb]. now rewrite Ew, Eh.
Qed.

Lemma double_sizing_of (sheet target margin : ISquareSize) (useInline : bool) :
  0 < width target -> 0 < height target ->
  0 <= width margin -> 0 <= height margin ->
  width target + 2 * width margin < 2 ^ 53 ->
  height target + 2 * height margin < 2 ^ 53 ->
  {| Double.source := double_size sheet;
     Double.outerSize :=
       {| Double.width :=
            if useInline
            then (Double.width (double_size target)
                  + 2 * Double.width (double_size margin))%float
            else (Double.height (double_size target)
                  + 2 * Double.height (double_size margin))%float;
          Double.height :=
            if useInline
            then (Double.height (double_size target)
                  + 2 * Double.height (double_size margin))%float
            else (Double.width (double_size target)
                  + 2 * Double.width (double_size margin))%float |};
     Double.innerSize :=
       {| Double.width := if useInline then Double.width (double_size target)
                          else Double.height (double_size target);
          Double.height := if useInline then Double.height (double_size target)
                           else Double.width (double_size target) |};
     Double.marginSize :=
       {| Double.width := if useInline then Double.width (double_size margin)
                          else Double.height (double_size margin);
          Double.height := if useInline then Double.height (double_size margin)
                           else Double.width (double_size margin) |} |}
  = double_sizing (sizing_of sheet target margin useInline).
Proof.
  intros Htw Hth Hmw Hmh Hbw Hbh.
  unfold double_sizing, sizing_of, double_size.
  cbn [Double.width Double.height source outerSize innerSize marginSize
       width height].
  rewrite !cell_side by lia. now destruct useInline.
Qed.

Lemma double_total (l : ILayoutResult) :
  fold_left (fun total entry => total + Z.of_nat (length (snd entry)))
            (Double.layout_entries (double_layout l)) 0
  = Z.of_nat (length (main l)) + Z.of_nat (length (remain_seq l)).
Proof.
  unfold Double.layout_entries, double_layout, remain_seq.
  cbn [Double.main Double.remain].
  destruct (remain l) as [remain|]; cbn [option_map fold_left snd length];
    rewrite ?length_map; lia.
Qed.

(** On a valid input of integers, with the sides of the source within the
    largest array length, the class on doubles computes, number by number,
    what the class on integers computes: the same error, or the same
    placements and the same total. *)
Lemma double_calculate_agrees (source target margin : ISquareSize)
    (useInline : bool) :
  valid_input source target margin ->
  width source <= max_array_length -> height source <= max_array_length ->
  Double.new_calculate (double_size source) (double_size target)
                       (double_size margin) useInline
  = double_outcome (calculate source target margin useInline).
Proof.
  intros Hvalid Bw Bh.
  pose proof (sizing_of_coherent useInline Hvalid) as Hco.
  pose proof (primary_grid_floor useInline Hvalid) as Hg.
  pose proof (fun g => @primary_container_fits _ _ _ useInline g Hvalid) as Hfit.
  destruct Hvalid as [Hsw Hsh Htw Hth Hmw Hmh Hfw Hfh].
  unfold max_array_length in Bw, Bh.
  unfold Double.new_calculate.
  rewrite double_constructor_accepts by (try constructor; lia).
  cbn [bind]. unfold Double.calculate.
  cbn [Double._source Double._target Double._margin Double._useInline].
  rewrite double_sizing_of by lia.
  rewrite calculate_eq, Hg. cbn [bind].
  set (g := if useInline
            then {| row := height source / (height target + 2 * height margin);
                    column := width source / (width target + 2 * width margin) |}
            else {| row := height source / (width target + 2 * width margin);
                    column := width source / (height target + 2 * height margin) |})
    in *.
  assert (Eg : (if useInline
                then Double._inlineCut (double_size source) (double_size target)
                                       (double_size margin)
                else Double._crossCut (double_size source) (double_size target)
                                      (double_size margin))
               = Ok (double_grid g)).
  { unfold g. destruct useInline;
      [apply double_inlineCut | apply double_crossCut]; lia. }
  rewrite Eg. cbn [bind].
  assert (Bg : 0 <= row g <= height source /\ 0 <= column g <= width source).
  { pose proof (@floor_bounds (height source) (height target + 2 * height margin)
                  ltac:(lia) ltac:(lia)).
    pose proof (@floor_bounds (width source) (width target + 2 * width margin)
                  ltac:(lia) ltac:(lia)).
    pose proof (@floor_bounds (height source) (width target + 2 * width margin)
                  ltac:(lia) ltac:(lia)).
    pose proof (@floor_bounds (width source) (height target + 2 * height margin)
                  ltac:(lia) ltac:(lia)).
    unfold g. destruct useInline; cbn [row column]; nia. }
  rewrite double_validateGrid by lia.
  destruct (_validateGrid g) as [[]|e] eqn:Ev; cbn [bind double_outcome];
    [|reflexivity].
  apply validateGrid_inv in Ev. destruct Ev as [Hrow Hcol].
  specialize (Hfit g Hg).
  unfold container_of in Hfit. cbn [width height] in Hfit.
  rewrite double_generateLayoutMatrix.
  2-8: rewrite ?sizing_of_source; unfold max_array_length;
       try assumption; try lia; tauto.
  destruct (_generateLayoutMatrix g (sizing_of source target margin useInline))
    as [l|e]; cbn [bind double_outcome]; [|reflexivity].
  rewrite double_total. reflexivity.
Qed.


Lemma double_calculate_inv (source target margin : ISquareSize)
    (useInline : bool) (r : Double.ILayoutTotal) :
  valid_input source target margin ->
  width source <= max_array_length -> height source <= max_array_length ->
  Double.new_calculate (double_size source) (double_size target)
                       (double_size margin) useInline = Ok r ->
  exists r0, calculate source target margin useInline = Ok r0
             /\ r = double_result r0.
Proof.
  intros Hvalid Bw Bh H. rewrite double_calculate_agrees in H by assumption.
  destruct (calculate source target margin useInline) as [r0|e];
    cbn [double_outcome] in H; [|discriminate].
  exists r0. split; [reflexivity|]. now apply Ok_inj in H.
Qed.

Lemma double_remain_seq_result (r0 : ILayoutTotal) :
  Double.remain_seq (Double.layout (double_result r0))
  = map double_placement (remain_seq (layout r0)).
Proof.
  unfold Double.remain_seq, remain_seq, double_result, double_layout.
  cbn [Double.layout Double.remain]. now destruct (remain (layout r0)).
Qed.

Lemma exact_rect_double (a : IRectPlotConfig) :
  safe_rect a ->
  exact_rect (double_rect a)
  = {| rect_x := rect_x a * 2 ^ 1074;
       rect_y := rect_y a * 2 ^ 1074;
       rect_width := rect_width a * 2 ^ 1074;
       rect_height := rect_height a * 2 ^ 1074 |}.
Proof.
  intros []. unfold exact_rect, double_rect.
  cbn [Double.rect_x Double.rect_y Double.rect_width Double.rect_height].
  now rewrite !of_Z_exact by assumption.
Qed.

Lemma overlap_exact (a b : IRectPlotConfig) :
  safe_rect a -> safe_rect b ->
  overlap (exact_rect (double_rect a)) (exact_rect (double_rect b)) = overlap a b.
Proof.
  intros Ha Hb. rewrite !exact_rect_double by assumption.
  unfold overlap. cbn [rect_x rect_y rect_width rect_height].
  assert (Hc : 0 < 2 ^ 1074) by (apply Z.pow_pos_nonneg; lia).
  set (c := 2 ^ 1074) in *. clearbody c.
  rewrite <- !Z.mul_add_distr_r.
  rewrite !Z.mul_max_distr_nonneg_r, !Z.mul_min_distr_nonneg_r by lia.
  f_equal.
  - destruct (Z.ltb_spec (Z.max (rect_x a) (rect_x b))
                (Z.min (rect_x a + rect_width a) (rect_x b + rect_width b)));
      [apply Z.ltb_lt | apply Z.ltb_ge]; nia.
  - destruct (Z.ltb_spec (Z.max (rect_y a) (rect_y b))
                (Z.min (rect_y a + rect_height a) (rect_y b + rect_height b)));
      [apply Z.ltb_lt | apply Z.ltb_ge]; nia.
Qed.

Lemma within_exact (size : ISquareSize) (a : IRectPlotConfig) :
  Z.abs (width size) < 2 ^ 53 -> Z.abs (height size) < 2 ^ 53 -> safe_rect a ->
  within size a ->
  within (exact_size (double_size size)) (exact_rect (double_rect a)).
Proof.
  intros Hw Hh Ha (Hx & Hy & Hxw & Hyh).
  rewrite exact_rect_double by assumption.
  unfold within, exact_size, double_size.
  cbn [rect_x rect_y rect_width rect_height width height
       Double.width Double.height].
  rewrite !of_Z_exact by assumption.
  assert (Hc : 0 < 2 ^ 1074) by (apply Z.pow_pos_nonneg; lia).
  set (c := 2 ^ 1074) in *. clearbody c.
  rewrite <- !Z.mul_add_distr_r. repeat split; nia.
Qed.

Lemma ForallOrdPairs_map_In {A B : Type} (f : A -> B) (R : A -> A -> Prop)
    (S : B -> B -> Prop) (l : list A) :
  (forall a b, In a l -> In b l -> R a b -> S (f a) (f b)) ->
  ForallOrdPairs R l -> ForallOrdPairs S (map f l).
Proof.
  intros H HR. induction HR as [|a l Ha Hl IH]; cbn [map]; constructor.
  - apply Forall_map, Forall_forall. intros b Hb.
    apply H; [now left | now right |].
    rewrite Forall_forall in Ha. now apply Ha.
  - apply IH. intros a' b' Ha' Hb'. apply H; now right.
Qed.

End Agreement.

(** ** Integer-valued dimensions: the properties of the class on doubles *)

Section IntegerDimensions.
Import Exactness.




(** The numbers of a placement of a valid input are integers from 0 to the
    side of the source plus a margin. *)
Lemma placement_safe (source target margin : ISquareSize) (useInline : bool)
    (r : ILayoutTotal) (p : IRectMatrixResult) :
  valid_input source target margin ->
  width source <= max_array_length -> height source <= max_array_length ->
  calculate source target margin useInline = Ok r ->
  In p (main (layout r)) \/ In p (remain_seq (layout r)) ->
  safe_rect (outer p) /\ safe_rect (inner p).
Proof.
  unfold max_array_length. intros Hvalid Bw Bh H Hin.
  pose proof (@integer_placements_within_source _ _ _ _ _ Hvalid H p Hin) as Hw.
  destruct (@placement_cell _ _ _ _ _ p H Hin)
    as (reverse & start & row & col & ->).
  destruct Hvalid as [Hsw Hsh Htw Hth Hmw Hmh Hfw Hfh].
  unfold within in Hw.
  destruct useInline, reverse;
    cbn [build_cell sizing_of turned outerSize innerSize marginSize inner outer
         rect_x rect_y rect_width rect_height width height] in *;
    split; constructor;
    cbn [rect_x rect_y rect_width rect_height]; lia.
Qed.

Lemma double_placement_In (r0 : ILayoutTotal) (p : Double.IRectMatrixResult) :
  In p (Double.main (Double.layout (double_result r0)))
  \/ In p (Double.remain_seq (Double.layout (double_result r0))) ->
  exists p0, p = double_placement p0
             /\ (In p0 (main (layout r0)) \/ In p0 (remain_seq (layout r0))).
Proof.
  rewrite double_remain_seq_result.
  cbn [double_result double_layout Double.layout Double.main].
  intros [H | H]; apply in_map_iff in H; destruct H as (p0 & <- & H0);
    exists p0; auto.
Qed.

(** C5, on integers.  On a valid input of integer dimensions, the sides of
    the source within the largest array length, on which [calculate] of the
    class on doubles returns, no two outer rectangles of main overlap, no two
    of remain overlap, and no outer rectangle of remain overlaps one of
    main. *)
Theorem outer_rectangles_disjoint (source target margin : ISquareSize)
    (useInline : bool) (r : Double.ILayoutTotal) :
  valid_input source target margin ->
  width source <= max_array_length -> height source <= max_array_length ->
  Double.new_calculate (double_size source) (double_size target)
                       (double_size margin) useInline = Ok r ->
  ForallOrdPairs double_disjoint_outer (Double.main (Double.layout r))
  /\ ForallOrdPairs double_disjoint_outer (Double.remain_seq (Double.layout r))
  /\ (forall p q, In p (Double.main (Double.layout r)) ->
                  In q (Double.remain_seq (Double.layout r)) ->
                  double_disjoint_outer q p).
Proof.
  intros Hvalid Bw Bh H.
  destruct (@double_calculate_inv _ _ _ _ _ Hvalid Bw Bh H) as (r0 & H0 & ->).
  destruct (@integer_outer_rectangles_disjoint _ _ _ _ _ Hvalid H0) as (Hm & Hr & Hx).
  assert (Hsafe : forall p, In p (main (layout r0)) \/ In p (remain_seq (layout r0)) ->
                            safe_rect (outer p))
    by (intros p Hp; exact (proj1 (@placement_safe _ _ _ _ _ _ Hvalid Bw Bh H0 Hp))).
  assert (Hd : forall a b,
             (In a (main (layout r0)) \/ In a (remain_seq (layout r0))) ->
             (In b (main (layout r0)) \/ In b (remain_seq (layout r0))) ->
             disjoint_outer a b ->
             double_disjoint_outer (double_placement a) (double_placement b)).
  { intros a b Ha Hb Hab. unfold double_disjoint_outer, double_placement.
    cbn [Double.outer]. rewrite overlap_exact by auto. exact Hab. }
  rewrite double_remain_seq_result.
  cbn [double_result double_layout Double.layout Double.main].
  split; [|split].
  - eapply ForallOrdPairs_map_In; [|exact Hm]. intros a b Ha Hb. apply Hd; auto.
  - eapply ForallOrdPairs_map_In; [|exact Hr]. intros a b Ha Hb. apply Hd; auto.
  - intros p q Hp Hq. apply in_map_iff in Hp, Hq.
    destruct Hp as (p0 & <- & Hp0), Hq as (q0 & <- & Hq0).
    apply Hd; auto.
Qed.

Lemma outer_rectangles_disjoint_witness :
  exists r,
    Double.new_calculate (double_size B_source) (double_size B_target)
                         (double_size B_margin) true = Ok r
    /\ ForallOrdPairs double_disjoint_outer (Double.main (Double.layout r))
    /\ ForallOrdPairs double_disjoint_outer (Double.remain_seq (Double.layout r))
    /\ (forall p q, In p (Double.main (Double.layout r)) ->
                    In q (Double.remain_seq (Double.layout r)) ->
                    double_disjoint_outer q p).
Proof.
  eexists. split; [vm_compute; reflexivity|].
  apply (@outer_rectangles_disjoint B_source B_target B_margin true).
  - constructor; simpl; lia.
  - unfold max_array_length; simpl; lia.
  - unfold max_array_length; simpl; lia.
  - vm_compute. reflexivity.
Defined.

(** C5 as the specification words it fails on a fractional target.  On a
    10 x 10 source with a 0.7 x 1 target and no margin the class returns
    140 placements; the sixth of main has outer x = 3.5 and width 0.7, the
    seventh has outer x = 6 * 0.7 = 4.199999999999999, which is less than
    3.5 + 0.7: the two outer rectangles overlap. *)
#[warnings="-inexact-float"]
Lemma fractional_outer_rectangles_overlap :
  exists r p q,
    Double.new_calculate {| Double.width := 10; Double.height := 10 |}
                         {| Double.width := 0.7; Double.height := 1 |}
                         {| Double.width := 0; Double.height := 0 |} true = Ok r
    /\ nth_error (Double.main (Double.layout r)) 5 = Some p
    /\ nth_error (Double.main (Double.layout r)) 6 = Some q
    /\ Double.rect_x (Double.outer p) = 3.5%float
    /\ Double.rect_x (Double.outer q) = 4.199999999999999%float
    /\ overlap (exact_rect (Double.outer p)) (exact_rect (Double.outer q)) = true.
Proof.
  eexists. eexists. eexists.
  split; [vm_compute; reflexivity|].
  split; [reflexivity|]. split; [reflexivity|].
  split; [reflexivity|]. split; [reflexivity|].
  vm_compute. reflexivity.
Qed.

(** C10, on integers.  On a valid input of integer dimensions, the sides of
    the source within the largest array length, on which [calculate] of the
    class on doubles returns, the outer rectangle of every placement of main
    and of remain lies inside the source: x >= 0, y >= 0, x + width <=
    source.width and y + height <= source.height. *)
Theorem placements_within_source (source target margin : ISquareSize)
    (useInline : bool) (r : Double.ILayoutTotal) :
  valid_input source target margin ->
  width source <= max_array_length -> height source <= max_array_length ->
  Double.new_calculate (double_size source) (double_size target)
                       (double_size margin) useInline = Ok r ->
  forall p, In p (Double.main (Double.layout r))
            \/ In p (Double.remain_seq (Double.layout r)) ->
            within (exact_size (double_size source)) (exact_rect (Double.outer p)).
Proof.
  intros Hvalid Bw Bh H p Hp.
  destruct (@double_calculate_inv _ _ _ _ _ Hvalid Bw Bh H) as (r0 & H0 & ->).
  apply double_placement_In in Hp. destruct Hp as (p0 & -> & Hp0).
  unfold double_placement. cbn [Double.outer].
  pose proof (source_width_pos Hvalid). pose proof (source_height_pos Hvalid).
  unfold max_array_length in Bw, Bh.
  apply within_exact; try lia.
  - exact (proj1 (@placement_safe _ _ _ _ _ _ Hvalid Bw Bh H0 Hp0)).
  - exact (@integer_placements_within_source _ _ _ _ _ Hvalid H0 p0 Hp0).
Qed.

Lemma placements_within_source_witness :
  exists r,
    Double.new_calculate (double_size A_source) (double_size A_target)
                         (double_size A_margin) true = Ok r
    /\ forall p, In p (Double.main (Double.layout r))
                 \/ In p (Double.remain_seq (Double.layout r)) ->
                 within (exact_size (double_size A_source))
                        (exact_rect (Double.outer p)).
Proof.
  eexists. split; [vm_compute; reflexivity|].
  apply (@placements_within_source A_source A_target A_margin true).
  - constructor; simpl; lia.
  - unfold max_array_length; simpl; lia.
  - unfold max_array_length; simpl; lia.
  - vm_compute. reflexivity.
Defined.

(** C10 as the specification words it fails on a fractional target.  On a
    4.8 x 5 source with a 0.48 x 1 target and no margin the grid is 5 x 10;
    the tenth placement of main has outer x = 9 * 0.48 = 4.32 and width
    0.48, and the value of 4.32 plus the value of 0.48 is more than the
    value of 4.8: the rectangle ends to the right of the source. *)
#[warnings="-inexact-float"]
Lemma fractional_placement_leaves_source :
  exists r p,
    Double.new_calculate {| Double.width := 4.8; Double.height := 5 |}
                         {| Double.width := 0.48; Double.height := 1 |}
                         {| Double.width := 0; Double.height := 0 |} true = Ok r
    /\ nth_error (Double.main (Double.layout r)) 9 = Some p
    /\ Double.rect_x (Double.outer p) = 4.32%float
    /\ (4.8 <? Double.rect_x (Double.outer p)
               + Double.rect_width (Double.outer p))%float = true
    /\ ~ within (exact_size {| Double.width := 4.8; Double.height := 5 |})
                (exact_rect (Double.outer p)).
Proof.
  eexists. eexists.
  split; [vm_compute; reflexivity|].
  split; [reflexivity|]. split; [reflexivity|]. split; [reflexivity|].
  intros (_ & _ & Hx & _). vm_compute in Hx. now apply Hx.
Qed.

(** X1. On safe integers (the six dimensions and target plus twice the
    margin on both axes within 2^53 - 1 in magnitude) the constructor of
    the class on doubles succeeds exactly on the valid inputs (positive
    source and target, non-negative margin, target plus twice the margin
    within the source on both axes), and the [input] getter of the instance
    then returns the three sizes as they were given. *)
Theorem constructor_accepts_exactly_valid (source target margin : ISquareSize)
    (useInline : bool) :
  safe_input source target margin ->
  (valid_input source target margin ->
   exists this,
     Double.constructor (double_size source) (double_size target)
                        (double_size margin) useInline = Ok this
     /\ Double.input this
        = {| Double.input_source := double_size source;
             Double.input_target := double_size target;
             Double.input_margin := double_size margin |}
     /\ Double._useInline this = useInline)
  /\ ((exists this,
         Double.constructor (double_size source) (double_size target)
                            (double_size margin) useInline = Ok this)
      -> valid_input source target margin).
Proof.
  intros [S1 S2 S3 S4 S5 S6 S7 S8].
  unfold safe_integer, MAX_SAFE_INTEGER in *. split.
  - intros Hvalid. eexists.
    split; [apply double_constructor_accepts; [assumption|lia|lia]|].
    split; reflexivity.
  - intros [this H]. apply double_constructor_ok_inv in H.
    unfold Double.invalid_dimensions, Double.exceeds_source, double_size in H.
    cbn [Double.width Double.height] in H.
    repeat match type of H with
           | _ || _ = false => apply orb_false_elim in H;
                               let K := fresh "K" in destruct H as [H K]
           end.
    repeat match goal with
           | K : _ || _ = false |- _ => apply orb_false_elim in K; destruct K
           end.
    rewrite of_Z_0 in *.
    repeat match goal with
           | K : (Double.of_Z _ <=? Double.of_Z _)%float = false |- _ =>
               rewrite of_Z_leb in K by lia; apply Z.leb_gt in K
           | K : (Double.of_Z _ <? Double.of_Z _)%float = false |- _ =>
               rewrite of_Z_ltb in K by lia; apply Z.ltb_ge in K
           end.
    rewrite !cell_side in * by lia.
    repeat match goal with
           | K : (Double.of_Z _ <? Double.of_Z _)%float = false |- _ =>
               rewrite of_Z_ltb in K by lia; apply Z.ltb_ge in K
           end.
    constructor; lia.
Qed.

Lemma constructor_accepts_exactly_valid_witness :
  exists this,
    Double.constructor (double_size A_source) (double_size A_target)
                       (double_size A_margin) false = Ok this
    /\ Double.input this
       = {| Double.input_source := double_size A_source;
            Double.input_target := double_size A_target;
            Double.input_margin := double_size A_margin |}
    /\ Double._useInline this = false.
Proof.
  apply (proj1 (@constructor_accepts_exactly_valid A_source A_target A_margin
                  false
                  ltac:(constructor; unfold safe_integer, MAX_SAFE_INTEGER;
                        simpl; lia))).
  constructor; simpl; lia.
Defined.

(** X7. The number of main placements the class on doubles returns on a
    valid input of integer dimensions, the sides of the source within the
    largest array length, is rows times columns of the primary grid:
    floor(source.height / cellHeight) * floor(source.width / cellWidth)
    inline, and the same with the cell turned in the cross orientation. *)
Theorem main_count (source target margin : ISquareSize) (useInline : bool)
    (r : Double.ILayoutTotal) :
  valid_input source target margin ->
  width source <= max_array_length -> height source <= max_array_length ->
  Double.new_calculate (double_size source) (double_size target)
                       (double_size margin) useInline = Ok r ->
  Z.of_nat (length (Double.main (Double.layout r)))
  = if useInline
    then (height source / (height target + 2 * height margin))
         * (width source / (width target + 2 * width margin))
    else (height source / (width target + 2 * width margin))
         * (width source / (height target + 2 * height margin)).
Proof.
  intros Hvalid Bw Bh H.
  destruct (@double_calculate_inv _ _ _ _ _ Hvalid Bw Bh H) as (r0 & H0 & ->).
  cbn [double_result double_layout Double.layout Double.main].
  rewrite length_map. exact (@integer_main_count _ _ _ _ _ Hvalid H0).
Qed.

Lemma main_count_witness :
  exists r,
    Double.new_calculate (double_size A_source) (double_size A_target)
                         (double_size A_margin) true = Ok r
    /\ Z.of_nat (length (Double.main (Double.layout r)))
       = (109 / (32 + 2 * 3)) * (79 / (22 + 2 * 2)).
Proof.
  eexists. split; [vm_compute; reflexivity|].
  apply (@main_count A_source A_target A_margin true);
    [constructor; simpl; lia | unfold max_array_length; simpl; lia
    | unfold max_array_length; simpl; lia | vm_compute; reflexivity].
Defined.

(** X8. Inline, on a valid input of integer dimensions with the sides of
    the source within the largest array length, the leftovers are the
    remainders of the source by the cell, rx = source.width mod cellWidth
    and ry = source.height mod cellHeight, and the number of remain
    placements the class on doubles returns is floor(source.height /
    cellWidth) * floor(rx / cellHeight) when rx >= target.height, otherwise
    floor(ry / cellWidth) * floor(source.width / cellHeight) when
    ry >= target.width, otherwise 0. *)
Theorem remain_count_inline (source target margin : ISquareSize)
    (r : Double.ILayoutTotal) :
  valid_input source target margin ->
  width source <= max_array_length -> height source <= max_array_length ->
  Double.new_calculate (double_size source) (double_size target)
                       (double_size margin) true = Ok r ->
  let cellWidth := width target + 2 * width margin in
  let cellHeight := height target + 2 * height margin in
  let rx := width source mod cellWidth in
  let ry := height source mod cellHeight in
  Z.of_nat (length (Double.remain_seq (Double.layout r)))
  = if height target <=? rx
    then (height source / cellWidth) * (rx / cellHeight)
    else if width target <=? ry
         then (ry / cellWidth) * (width source / cellHeight)
         else 0.
Proof.
  intros Hvalid Bw Bh H.
  destruct (@double_calculate_inv _ _ _ _ _ Hvalid Bw Bh H) as (r0 & H0 & ->).
  rewrite double_remain_seq_result, length_map.
  exact (@integer_remain_count_inline _ _ _ _ Hvalid H0).
Qed.

Lemma remain_count_inline_witness :
  exists r,
    Double.new_calculate (double_size B_source) (double_size B_target)
                         (double_size B_margin) true = Ok r
    /\ Z.of_nat (length (Double.remain_seq (Double.layout r)))
       = (100 / (43 + 2 * 1)) * ((65 mod (43 + 2 * 1)) / (12 + 2 * 1)).
Proof.
  eexists. split; [vm_compute; reflexivity|].
  apply (@remain_count_inline B_source B_target B_margin);
    [constructor; simpl; lia | unfold max_array_length; simpl; lia
    | unfold max_array_length; simpl; lia | vm_compute; reflexivity].
Defined.

(** X11. The placements never take more than the sheet holds: on a valid
    input of integer dimensions, the sides of the source within the largest
    array length, the total the class on doubles returns times the area of a
    cell (target plus margin on every side) is at most the area of the
    source. *)
Theorem total_fits_the_area (source target margin : ISquareSize)
    (useInline : bool) (r : Double.ILayoutTotal) :
  valid_input source target margin ->
  width source <= max_array_length -> height source <= max_array_length ->
  Double.new_calculate (double_size source) (double_size target)
                       (double_size margin) useInline = Ok r ->
  Double.total r * ((width target + 2 * width margin)
                    * (height target + 2 * height margin))
  <= width source * height source.
Proof.
  intros Hvalid Bw Bh H.
  destruct (@double_calculate_inv _ _ _ _ _ Hvalid Bw Bh H) as (r0 & H0 & ->).
  cbn [double_result Double.total].
  exact (@integer_total_fits_the_area _ _ _ _ _ Hvalid H0).
Qed.

Lemma total_fits_the_area_witness :
  exists r,
    Double.new_calculate (double_size B_source) (double_size B_target)
                         (double_size B_margin) true = Ok r
    /\ Double.total r * ((43 + 2 * 1) * (12 + 2 * 1)) <= 65 * 100.
Proof.
  eexists. split; [vm_compute; reflexivity|].
  apply (@total_fits_the_area B_source B_target B_margin true);
    [constructor; simpl; lia | unfold max_array_length; simpl; lia
    | unfold max_array_length; simpl; lia | vm_compute; reflexivity].
Defined.

(** X12. On a valid input of integer dimensions, the sides of the source
    within the largest array length, the inner rectangle of every placement
    the class on doubles returns lies inside its outer rectangle and is
    centred in it: the gap on the left equals the gap on the right, and the
    gap above equals the gap below. *)
Theorem inner_centred_in_outer (source target margin : ISquareSize)
    (useInline : bool) (r : Double.ILayoutTotal) :
  valid_input source target margin ->
  width source <= max_array_length -> height source <= max_array_length ->
  Double.new_calculate (double_size source) (double_size target)
                       (double_size margin) useInline = Ok r ->
  forall p,
    In p (Double.main (Double.layout r))
    \/ In p (Double.remain_seq (Double.layout r)) ->
    inside (exact_rect (Double.inner p)) (exact_rect (Double.outer p))
    /\ rect_x (exact_rect (Double.inner p)) - rect_x (exact_rect (Double.outer p))
       = (rect_x (exact_rect (Double.outer p))
          + rect_width (exact_rect (Double.outer p)))
         - (rect_x (exact_rect (Double.inner p))
            + rect_width (exact_rect (Double.inner p)))
    /\ rect_y (exact_rect (Double.inner p)) - rect_y (exact_rect (Double.outer p))
       = (rect_y (exact_rect (Double.outer p))
          + rect_height (exact_rect (Double.outer p)))
         - (rect_y (exact_rect (Double.inner p))
            + rect_height (exact_rect (Double.inner p))).
Proof.
  intros Hvalid Bw Bh H p Hp.
  destruct (@double_calculate_inv _ _ _ _ _ Hvalid Bw Bh H) as (r0 & H0 & ->).
  apply double_placement_In in Hp. destruct Hp as (p0 & -> & Hp0).
  destruct (@placement_safe _ _ _ _ _ _ Hvalid Bw Bh H0 Hp0) as [So Si].
  destruct (@integer_inner_centred_in_outer _ _ _ _ _ Hvalid H0 p0 Hp0)
    as ((I1 & I2 & I3 & I4) & Gx & Gy).
  unfold double_placement. cbn [Double.inner Double.outer].
  rewrite !exact_rect_double by assumption.
  unfold inside. cbn [rect_x rect_y rect_width rect_height].
  assert (Hc : 0 < 2 ^ 1074) by (apply Z.pow_pos_nonneg; lia).
  set (c := 2 ^ 1074) in *. clearbody c.
  repeat split; nia.
Qed.

Lemma inner_centred_in_outer_witness :
  exists r,
    Double.new_calculate (double_size A_source) (double_size A_target)
                         (double_size A_margin) true = Ok r
    /\ forall p,
         In p (Double.main (Double.layout r))
         \/ In p (Double.remain_seq (Double.layout r)) ->
         inside (exact_rect (Double.inner p)) (exact_rect (Double.outer p))
         /\ rect_x (exact_rect (Double.inner p))
            - rect_x (exact_rect (Double.outer p))
            = (rect_x (exact_rect (Double.outer p))
               + rect_width (exact_rect (Double.outer p)))
              - (rect_x (exact_rect (Double.inner p))
                 + rect_width (exact_rect (Double.inner p)))
         /\ rect_y (exact_rect (Double.inner p))
            - rect_y (exact_rect (Double.outer p))
            = (rect_y (exact_rect (Double.outer p))
               + rect_height (exact_rect (Double.outer p)))
              - (rect_y (exact_rect (Double.inner p))
                 + rect_height (exact_rect (Double.inner p))).
Proof.
  eexists. split; [vm_compute; reflexivity|].
  apply (@inner_centred_in_outer A_source A_target A_margin true);
    [constructor; simpl; lia | unfold max_array_length; simpl; lia
    | unfold max_array_length; simpl; lia | vm_compute; reflexivity].
Defined.

(** X20. On integer-valued dimensions the class computes without rounding:
    on a valid input of integers, the area of the source within the largest
    array length (so that every array the class fills or pushes to stays
    within it), constructing and calculating on doubles gives the error, or
    number by number the placements and the total, that the computation in
    exact integer arithmetic gives. *)
Theorem integer_dimensions_compute_exactly (source target margin : ISquareSize)
    (useInline : bool) :
  valid_input source target margin ->
  width source * height source <= max_array_length ->
  Double.new_calculate (double_size source) (double_size target)
                       (double_size margin) useInline
  = double_outcome (calculate source target margin useInline).
Proof.
  intros Hvalid Harea.
  pose proof (source_width_pos Hvalid). pose proof (source_height_pos Hvalid).
  apply double_calculate_agrees; [assumption | nia | nia].
Qed.

Lemma integer_dimensions_compute_exactly_witness :
  Double.new_calculate (double_size N_source) (double_size N_target)
                       (double_size N_margin) false
  = double_outcome (calculate N_source N_target N_margin false).
Proof.
  apply (@integer_dimensions_compute_exactly N_source N_target N_margin false);
    [constructor; simpl; lia | unfold max_array_length; simpl; lia].
Defined.

End IntegerDimensions.
